(** * Conjoint survey generation: price levels, combinations, preferences

    A shallow embedding of the survey-generation logic of the digital-shelf
    application:

    - [server/routes/survey.ts]: [generatePriceMatrix],
      [generateConjointMatrix], [getPersonaPreference], the result
      computation of [POST /api/shelves/:id/run-survey] and the combination
      builder of [GET /api/survey/:id];
    - [server/utils/simulate-utils.ts]: [getSimulatedConsumerPreference];
    - [registerRoutes] of the server:
      [POST /api/shelves/:id/conjoint-configuration];
    - [client/src/pages/conjoint-configuration.tsx]: [generatePriceLevels];
    - [client/src/pages/analysis.tsx]: [calculateOptimalPrice] and
      [calculatePriceElasticity].

    Prices are integer cents (the [integer] columns of [db/schema.ts]) and
    are modelled in [Z].  Arithmetic on them that leaves the integers
    (halves, thirds, the 0.8 and 1.2 factors, means and shares) is carried
    out in [Q]; [Math.round] is [floor (x + 1/2)].  On whole cents the
    doubles of the source round to the same integers, since the exact
    values are never within rounding error of a half.  Means and shares
    are exact quotients here and correctly rounded doubles in the source.
    The analysis page divides by values that may be zero, so it is
    modelled on binary64 floats, where [0/0] is NaN. *)

From Stdlib Require Import ZArith QArith Qround Lqa Floats List Ascii String Sorted Lia.
From Stdlib Require Import DecimalString DecimalZ Permutation.
From stdpp Require Import gmap strings.
Import ListNotations.

#[local] Set Warnings "-inexact-float".

Local Open Scope Z_scope.

(** ** JavaScript helpers *)

Module JS.

(** [Math.round(x)]: the nearest integer, ties towards plus infinity. *)
Definition Math_round (x : Q) : Z := Qfloor (x + (1 # 2)).

(** [x || d] on an optional number: [undefined], [null] and [0] are falsy. *)
Definition or_default (x : option Z) (d : Z) : Z :=
  match x with
  | Some v => if v =? 0 then d else v
  | None => d
  end.

(** A number read as a condition: only [0] is falsy (NaN cannot occur on
    the integer paths modelled with this helper). *)
Definition truthy (x : Z) : bool := negb (x =? 0).

(** [\d] of a regular expression without the unicode flag: [0-9]. *)
Definition is_digit (c : ascii) : bool :=
  ((48 <=? nat_of_ascii c) && (nat_of_ascii c <=? 57))%nat.

Fixpoint take_digits (s : string) : string :=
  match s with
  | EmptyString => EmptyString
  | String c s' => if is_digit c then String c (take_digits s') else EmptyString
  end.

(** [s.match(/\d+/)]: the leftmost, longest run of digits, as [match[0]];
    [None] is the [null] of a failed match. *)
Fixpoint match_digits (s : string) : option string :=
  match s with
  | EmptyString => None
  | String c s' =>
      if is_digit c then Some (String c (take_digits s')) else match_digits s'
  end.

Definition digit_value (c : ascii) : Z := Z.of_nat (nat_of_ascii c) - 48.

Fixpoint parseInt_from (acc : Z) (digits : string) : Z :=
  match digits with
  | EmptyString => acc
  | String c digits' => parseInt_from (acc * 10 + digit_value c) digits'
  end.

(** [parseInt(digits, 10)] on a non-empty string of digits.  The exact
    value is kept; a double loses precision only above 2^53, far beyond
    any array length the result is compared with. *)
Definition parseInt (digits : string) : Z := parseInt_from 0 digits.

End JS.

(** ** The language model *)

(** What [openai.chat.completions.create] followed by reading
    [completion.choices[0].message.content] gives: an exception, or the
    content, which may be [null]. *)
Inductive Completion :=
  | Threw
  | Content (content : option string).

(** Why a preference parser answers [null]. *)
Inductive NullReason (completion : Completion) (count : nat) : Prop :=
  | api_threw : completion = Threw -> NullReason completion count
  | no_content :
      completion = Content None \/ completion = Content (Some EmptyString) ->
      NullReason completion count
  | no_digit response :
      completion = Content (Some response) ->
      JS.match_digits response = None ->
      NullReason completion count
  | out_of_range response digits :
      completion = Content (Some response) ->
      JS.match_digits response = Some digits ->
      ~ (1 <= JS.parseInt digits <= Z.of_nat count) ->
      NullReason completion count.

(** ** The server: price matrix and conjoint matrix *)

Module Server.

Record ProductImage := {
  image_id : Z;
  url : string;
  ordinal : Z
}.

Record Product := {
  id : Z;
  brandName : string;
  productName : string;
  description : string;
  listPrice : Z;
  lowPrice : option Z;
  highPrice : option Z;
  benefits : option string;
  images : list ProductImage
}.

(** [generatePriceMatrix(product, priceLevels)], survey.ts 700-722. *)
Definition generatePriceMatrix (product : Product) (priceLevels : Z) : list Z :=
  let lowPrice :=
    JS.or_default (lowPrice product)
      (JS.Math_round (inject_Z (listPrice product) * 0.8)) in
  let highPrice :=
    JS.or_default (highPrice product)
      (JS.Math_round (inject_Z (listPrice product) * 1.2)) in
  let listPrice := listPrice product in
  if priceLevels =? 2 then
    [lowPrice; highPrice]
  else if priceLevels =? 3 then
    [lowPrice; listPrice; highPrice]
  else if priceLevels =? 4 then
    let quarterPoint :=
      JS.Math_round (inject_Z lowPrice + (inject_Z listPrice - inject_Z lowPrice) / 2) in
    let threeQuarterPoint :=
      JS.Math_round (inject_Z listPrice + (inject_Z highPrice - inject_Z listPrice) / 2) in
    [lowPrice; quarterPoint; threeQuarterPoint; highPrice]
  else if priceLevels =? 5 then
    let p1 :=
      JS.Math_round (inject_Z lowPrice + (inject_Z listPrice - inject_Z lowPrice) / 3) in
    let p2 :=
      JS.Math_round (inject_Z lowPrice + 2 * (inject_Z listPrice - inject_Z lowPrice) / 3) in
    let p3 :=
      JS.Math_round (inject_Z listPrice + (inject_Z highPrice - inject_Z listPrice) / 3) in
    let p4 :=
      JS.Math_round (inject_Z listPrice + 2 * (inject_Z highPrice - inject_Z listPrice) / 3) in
    [lowPrice; p1; p2; p3; p4; highPrice]
  else
    [lowPrice; listPrice; highPrice].

(** The locals [lowPrice] and [highPrice] of [generatePriceMatrix]: the
    configured bound, or the list price scaled by 0.8 resp. 1.2. *)
Definition effectiveLowPrice (product : Product) : Z :=
  JS.or_default (lowPrice product)
    (JS.Math_round (inject_Z (listPrice product) * 0.8)).

Definition effectiveHighPrice (product : Product) : Z :=
  JS.or_default (highPrice product)
    (JS.Math_round (inject_Z (listPrice product) * 1.2)).

(** An entry of [productPrices]: the product spread with its [prices]. *)
Record PricedProduct := {
  pp_product : Product;
  prices : list Z
}.

(** An entry of a combination: [{ ...product, currentPrice: price }]. *)
Record Offer := {
  offer_product : PricedProduct;
  currentPrice : Z
}.

Definition offer_id (o : Offer) : Z := id (pp_product (offer_product o)).

(** The inner [generateCombinations(current, index)], survey.ts 735-745.
    The products from [index] on are the list recursed over; the array
    [combinations] that the source pushes to is threaded through. *)
Fixpoint generateCombinations (rest : list PricedProduct) (current : list Offer)
    (combinations : list (list Offer)) : list (list Offer) :=
  match rest with
  | [] => combinations ++ [current]
  | product :: rest' =>
      fold_left
        (fun combinations price =>
           generateCombinations rest'
             (current ++ [{| offer_product := product; currentPrice := price |}])
             combinations)
        (prices product) combinations
  end.

(** The rows that one call of [generateCombinations] appends, written
    without the accumulator; used to reason about the enumeration. *)
Fixpoint expand (rest : list PricedProduct) (current : list Offer) : list (list Offer) :=
  match rest with
  | [] => [current]
  | product :: rest' =>
      flat_map
        (fun price =>
           expand rest' (current ++ [{| offer_product := product; currentPrice := price |}]))
        (prices product)
  end.

Record Persona := {
  persona_id : Z;
  persona_name : string
}.

(** [getPersonaPreference(persona, products)], survey.ts 752-803.
    [completion] is the model's answer to the prompt built from [persona]
    and [products]. *)
Definition getPersonaPreference (completion : Completion)
    (persona : Persona) (products : list Offer) : option Z :=
  match completion with
  | Threw => None
  | Content None => None
  | Content (Some response) =>
      if String.eqb response EmptyString then None
      else
        match JS.match_digits response with
        | None => None
        | Some digits =>
            let selectedIndex := JS.parseInt digits - 1 in
            if (selectedIndex <? 0) || (selectedIndex >=? Z.of_nat (length products))
            then None
            else
              match nth_error products (Z.to_nat selectedIndex) with
              | Some product => Some (offer_id product)
              | None => None
              end
        end
  end.

(** [generateConjointMatrix(products, priceLevels)], survey.ts 725-749. *)
Definition generateConjointMatrix (products : list Product) (priceLevels : Z)
    : list (list Offer) :=
  let productPrices :=
    map (fun product =>
           {| pp_product := product;
              prices := generatePriceMatrix product priceLevels |})
        products in
  generateCombinations productPrices [] [].

End Server.

(** ** The survey page *)

Module Survey.

(** An element of [variant.productLineup]. *)
Record ProductLineupItem := {
  productId : Z;
  price : Z
}.

(** An element of [priceOptions]: a product offered at one price.  The
    display strings [id], [benefits] and [formattedPrice], derived from
    the same product and price, are left out. *)
Record PriceOption := {
  option_productId : Z;
  option_brandName : string;
  option_productName : string;
  option_description : string;
  option_imageUrl : option string;
  option_price : Z
}.

(** An element of [productsWithPrices]. *)
Record ProductWithPrices := {
  product : Server.Product;
  priceOptions : list PriceOption
}.

(** An element of [productCombinations]; an option is [None] where the
    source would read past the end of [priceOptions]. *)
Record Combination := {
  id : Z;
  options : list (option PriceOption)
}.

(** [db.query.products.findMany({ where: inArray(products.id, ids) })]
    over the rows [table] of [products], survey.ts 118-130. *)
Definition findProducts (table : list Server.Product) (lineup : list ProductLineupItem)
    : list Server.Product :=
  let productIds : gset Z := list_to_set (map productId lineup) in
  List.filter (fun p => bool_decide (Server.id p ∈ productIds)) table.

(** The body of [productsData.map(...)], survey.ts 153-169. *)
Definition withPriceOptions (priceLevels : Z) (product : Server.Product)
    : ProductWithPrices :=
  let prices := Server.generatePriceMatrix product priceLevels in
  {| product := product;
     priceOptions :=
       map (fun price =>
              {| option_productId := Server.id product;
                 option_brandName := Server.brandName product;
                 option_productName := Server.productName product;
                 option_description := Server.description product;
                 option_imageUrl := option_map Server.url (head (Server.images product));
                 option_price := price |})
           prices |}.

(** [l.map(p => ({ sort: Math.random(), value: p }))]: [random k] is the
    [k]-th number [Math.random] returns. *)
Fixpoint withSortKeys {A : Type} (random : nat -> Q) (k : nat) (l : list A)
    : list (Q * A) :=
  match l with
  | [] => []
  | x :: l' => (random k, x) :: withSortKeys random (S k) l'
  end.

(** [.sort((a, b) => a.sort - b.sort)]: a stable sort by ascending key,
    here by insertion. *)
Fixpoint insertByKey {A : Type} (x : Q * A) (sorted : list (Q * A)) : list (Q * A) :=
  match sorted with
  | [] => [x]
  | y :: sorted' =>
      if Qle_bool (fst y) (fst x) then y :: insertByKey x sorted'
      else x :: y :: sorted'
  end.

Definition sortByKey {A : Type} (l : list (Q * A)) : list (Q * A) :=
  fold_left (fun sorted x => insertByKey x sorted) l [].

(** [selectedProducts.map(product => product.priceOptions[randomPriceIndex])],
    survey.ts 186-189. *)
Fixpoint chooseOptions (random : nat -> Q) (k : nat) (selected : list ProductWithPrices)
    : list (option PriceOption) :=
  match selected with
  | [] => []
  | product :: selected' =>
      let randomPriceIndex :=
        Qfloor (random k * inject_Z (Z.of_nat (length (priceOptions product)))) in
      (if randomPriceIndex <? 0 then None
       else nth_error (priceOptions product) (Z.to_nat randomPriceIndex))
        :: chooseOptions random (S k) selected'
  end.

(** The loop [for (let i = 0; i < numCombinations; i++)], survey.ts
    177-195, with [remaining] iterations to go. *)
Fixpoint combinationsLoop (random : nat -> Q) (productsWithPrices : list ProductWithPrices)
    (numProductsToShow : nat) (remaining : nat) (i : Z) (k : nat)
    : list Combination :=
  match remaining with
  | O => []
  | S remaining' =>
      let selectedProducts :=
        map snd
          (firstn numProductsToShow
             (sortByKey (withSortKeys random k productsWithPrices))) in
      let k := (k + length productsWithPrices)%nat in
      let options := chooseOptions random k selectedProducts in
      let k := (k + length selectedProducts)%nat in
      {| id := i + 1; options := options |}
        :: combinationsLoop random productsWithPrices numProductsToShow
             remaining' (i + 1) k
  end.

(** The [productCombinations] of [GET /api/survey/:id], survey.ts
    118-195, for a variant that was found: [configured] is
    [variant.shelf.conjointConfiguration?.priceLevels]. *)
Definition productCombinations (random : nat -> Q) (table : list Server.Product)
    (lineup : list ProductLineupItem) (configured : option Z) : list Combination :=
  let productsData := findProducts table lineup in
  let priceLevels := JS.or_default configured 3 in
  let productsWithPrices := map (withPriceOptions priceLevels) productsData in
  let numProductsToShow := Nat.min 6 (length productsWithPrices) in
  let numCombinations :=
    Z.max 5 (Qceiling (inject_Z (Z.of_nat (length productsWithPrices)) / 2)) in
  combinationsLoop random productsWithPrices numProductsToShow
    (Z.to_nat numCombinations) 0 0.

End Survey.

(** ** The simulated survey run *)

Module RunSurvey.

(** A value of [simulationResults]: [{ selections, prices }]. *)
Record SimulationResult := {
  selections : Z;
  prices : list Z
}.

(** The state the two loops of the run work on: how many answers the
    language model has given so far, and [simulationResults], an object
    keyed by product id. *)
Record SimState := {
  calls : nat;
  simulationResults : gmap Z SimulationResult
}.

(** [for (const x of l) { ... }] over a body that may throw. *)
Fixpoint forEach {A S : Type} (body : A -> S -> option S) (l : list A) (s : S)
    : option S :=
  match l with
  | [] => Some s
  | x :: l' =>
      match body x s with
      | Some s' => forEach body l' s'
      | None => None
      end
  end.

(** [productsData.forEach(p => simulationResults[p.id] = {...})],
    survey.ts 365-370. *)
Definition initResults (productsData : list Server.Product)
    : gmap Z SimulationResult :=
  fold_left
    (fun simulationResults p =>
       <[Server.id p := {| selections := 0; prices := [] |}]> simulationResults)
    productsData ∅.

(** The body of the inner loop, survey.ts 386-403.  [ai k] is the
    language model's answer to the [k]-th prompt of the run.  [None] is
    the [TypeError] of reading a missing entry of [simulationResults]. *)
Definition surveyCombination (ai : nat -> Completion) (persona : Server.Persona)
    (combination : list Server.Offer) (st : SimState) : option SimState :=
  let selectedProductId :=
    Server.getPersonaPreference (ai (calls st)) persona combination in
  let simulationResults := simulationResults st in
  let calls := S (calls st) in
  match selectedProductId with
  | None => Some {| calls := calls; simulationResults := simulationResults |}
  | Some selectedProductId =>
      if JS.truthy selectedProductId then
        match List.find (fun p => Server.offer_id p =? selectedProductId) combination with
        | Some selectedProduct =>
            match simulationResults !! selectedProductId with
            | Some result =>
                Some {| calls := calls;
                        simulationResults :=
                          <[selectedProductId :=
                              {| selections := selections result + 1;
                                 prices := prices result
                                           ++ [Server.currentPrice selectedProduct] |}]>
                            simulationResults |}
            | None => None
            end
        | None => Some {| calls := calls; simulationResults := simulationResults |}
        end
      else Some {| calls := calls; simulationResults := simulationResults |}
  end.

(** The loops over personas and combinations, survey.ts 373-405. *)
Definition simulate (ai : nat -> Completion) (productsData : list Server.Product)
    (personas : list Server.Persona) (conjointMatrix : list (list Server.Offer))
    : option SimState :=
  forEach
    (fun persona => forEach (surveyCombination ai persona) conjointMatrix)
    personas
    {| calls := 0; simulationResults := initResults productsData |}.

(** [Object.values(simulationResults).reduce((sum, r) => sum + r.selections, 0)] *)
Definition totalSelections (simulationResults : gmap Z SimulationResult) : Z :=
  map_fold (fun _ result sum => sum + selections result) 0 simulationResults.

(** An element of the [products] array of the response. *)
Record SurveyResult := {
  brand : string;
  name : string;
  description : string;
  imageUrl : option string;
  optimalPrice : Q;
  preferenceShare : Q
}.

(** The body of [productsData.map(product => ...)], survey.ts 411-429. *)
Definition productResult (simulationResults : gmap Z SimulationResult)
    (totalSelections : Z) (productCount : nat) (product : Server.Product)
    : option SurveyResult :=
  match simulationResults !! Server.id product with
  | None => None
  | Some result =>
      let optimalPrice :=
        if (0 <? length (prices result))%nat
        then (inject_Z (fold_left Z.add (prices result) 0%Z)
              / inject_Z (Z.of_nat (length (prices result))))%Q
        else inject_Z (Server.listPrice product) in
      Some {| brand := Server.brandName product;
              name := Server.productName product;
              description := Server.description product;
              imageUrl := option_map Server.url (head (Server.images product));
              optimalPrice := (optimalPrice / 100)%Q;
              preferenceShare :=
                if 0 <? totalSelections
                then (inject_Z (selections result) / inject_Z totalSelections)%Q
                else (1 / inject_Z (Z.of_nat productCount))%Q |}
  end.

(** The computation of [POST /api/shelves/:id/run-survey] once the
    request has passed the guards, survey.ts 332-429: [configured] is
    [shelf.conjointConfiguration?.priceLevels].  The result is the
    [products] array of the response; [None] is an exception, answered
    with status 500.  The rows written to [shelf_variants], [respondents]
    and [responses] do not feed the results and are left out. *)
Definition runSurvey (ai : nat -> Completion) (productsData : list Server.Product)
    (personas : list Server.Persona) (configured : option Z)
    : option (list SurveyResult) :=
  let priceLevels := JS.or_default configured 3 in
  let conjointMatrix := Server.generateConjointMatrix productsData priceLevels in
  match simulate ai productsData personas conjointMatrix with
  | None => None
  | Some st =>
      let totalSelections := totalSelections (simulationResults st) in
      mapM (productResult (simulationResults st) totalSelections (length productsData))
        productsData
  end.

(** *** The run as the personas see it *)

(** The offer a completion designates among those shown: the one at the
    position the answer names. *)
Definition chosenOffer (completion : Completion) (combination : list Server.Offer)
    : option Server.Offer :=
  match completion with
  | Content (Some response) =>
      match JS.match_digits response with
      | Some digits =>
          if (1 <=? JS.parseInt digits)
             && (JS.parseInt digits <=? Z.of_nat (length combination))
          then nth_error combination (Z.to_nat (JS.parseInt digits - 1))
          else None
      | None => None
      end
  | _ => None
  end.

(** The offers chosen along a sequence of shown combinations, the first
    of which is answered by [ai k]. *)
Fixpoint chosenFrom (ai : nat -> Completion) (k : nat)
    (shown : list (list Server.Offer)) : list Server.Offer :=
  match shown with
  | [] => []
  | combination :: shown' =>
      match chosenOffer (ai k) combination with
      | Some offer => offer :: chosenFrom ai (S k) shown'
      | None => chosenFrom ai (S k) shown'
      end
  end.

(** All offers chosen in a run: every persona is shown every row of the
    conjoint matrix, in order. *)
Definition chosenOffers (ai : nat -> Completion) (personas : list Server.Persona)
    (conjointMatrix : list (list Server.Offer)) : list Server.Offer :=
  chosenFrom ai 0 (flat_map (fun _ => conjointMatrix) personas).

(** The offers of one product among the chosen ones. *)
Definition chosenOfId (i : Z) (chosen : list Server.Offer) : list Server.Offer :=
  List.filter (fun offer => Server.offer_id offer =? i) chosen.

Definition chosenOf (product : Server.Product) (chosen : list Server.Offer)
    : list Server.Offer :=
  chosenOfId (Server.id product) chosen.

(** [simulationResults] tallies the offers [chosen] so far: it has an
    entry for each product id of [productsData] and no other, counting
    how often the product was chosen and listing the prices it was chosen
    at, in order. *)
Definition tallies (productsData : list Server.Product) (chosen : list Server.Offer)
    (simulationResults : gmap Z SimulationResult) : Prop :=
  forall i : Z,
    (In i (map Server.id productsData) ->
     simulationResults !! i =
       Some {| selections := Z.of_nat (length (chosenOfId i chosen));
               prices := map Server.currentPrice (chosenOfId i chosen) |}) /\
    (~ In i (map Server.id productsData) -> simulationResults !! i = None).

(** [sum xs / length xs], the arithmetic mean. *)
Definition mean (xs : list Z) : Q :=
  (inject_Z (fold_right Z.add 0%Z xs) / inject_Z (Z.of_nat (length xs)))%Q.

Definition Qsum (xs : list Q) : Q := fold_right Qplus 0%Q xs.

(** The quotient [result.selections / totalSelections] as the double the
    response carries. *)
Definition preferenceShareDouble (selections totalSelections : float) : float :=
  (selections / totalSelections)%float.

End RunSurvey.

(** ** The conjoint-configuration route *)

Module Routes.

(** The value of a property of the JSON request body. *)
Inductive JsonValue :=
  | JUndefined
  | JNull
  | JBool (b : bool)
  | JNumber (n : Q)
  | JString (s : string)
  | JObject.

(** [!v] *)
Definition falsy (v : JsonValue) : bool :=
  match v with
  | JUndefined | JNull => true
  | JBool b => negb b
  | JNumber n => Qeq_bool n 0
  | JString s => String.eqb s EmptyString
  | JObject => false
  end.

(** [typeof v !== 'number'] *)
Definition not_a_number (v : JsonValue) : bool :=
  match v with
  | JNumber _ => false
  | _ => true
  end.

(** The numeric value of [v], read only where [v] is known to be a
    number (after the [typeof] test). *)
Definition number_of (v : JsonValue) : Q :=
  match v with
  | JNumber n => n
  | _ => 0
  end.

(** [a < b] on numbers. *)
Definition less_than (a b : Q) : bool := negb (Qle_bool b a).

Record Request := {
  params_id : Z;
  body_priceLevels : JsonValue;
  user_id : option Z
}.

(** The shelf as [findFirst] loads it, with its product links. *)
Record Shelf := {
  shelf_id : Z;
  products : list Server.Product
}.

(** A database call returns or throws. *)
Inductive DbResult (A : Type) :=
  | DbOk (a : A)
  | DbError.
Arguments DbOk {A} a.
Arguments DbError {A}.

(** The values inserted into [conjoint_configurations]. *)
Record ConjointConfiguration := {
  shelfId : Z;
  priceLevels : Q;
  combinationCount : Q;
  estimatedDuration : Q;
  createdBy : Z
}.

Inductive Body :=
  | Message (message : string)
  | Config (config : ConjointConfiguration).

Record Response := {
  status : Z;
  body : Body
}.

(** [Math.pow(base, n)] for an array length [n]. *)
Definition Math_pow (base : Q) (n : nat) : Q := Qpower base (Z.of_nat n).

(** [POST /api/shelves/:id/conjoint-configuration] in [registerRoutes],
    lines 34-87.
    [findShelf] is the outcome of the shelf query and [insertOk] tells
    whether the insert goes through.  The second component is the row
    inserted, if any. *)
Definition postConjointConfiguration (req : Request)
    (findShelf : DbResult (option Shelf)) (insertOk : bool)
    : Response * option ConjointConfiguration :=
  let priceLevels := body_priceLevels req in
  match user_id req with
  | None =>
      ({| status := 401; body := Message "Unauthorized" |}, None)
  | Some userId =>
      if negb (JS.truthy userId) then
        ({| status := 401; body := Message "Unauthorized" |}, None)
      else if falsy priceLevels || not_a_number priceLevels
              || less_than (number_of priceLevels) 2
              || less_than 5 (number_of priceLevels) then
        ({| status := 400;
            body := Message "Invalid price levels. Must be between 2 and 5." |}, None)
      else
        match findShelf with
        | DbError =>
            ({| status := 500; body := Message "Error saving configuration" |}, None)
        | DbOk None =>
            ({| status := 404; body := Message "Shelf not found" |}, None)
        | DbOk (Some shelf) =>
            if (length (products shelf) =? 0)%nat then
              ({| status := 400;
                  body := Message
                    "Shelf must have at least one product to configure conjoint analysis" |},
               None)
            else
              let combinationCount :=
                Math_pow (number_of priceLevels) (length (products shelf)) in
              let estimatedDuration := (combinationCount * 30)%Q in
              let config :=
                {| shelfId := params_id req;
                   priceLevels := number_of priceLevels;
                   combinationCount := combinationCount;
                   estimatedDuration := estimatedDuration;
                   createdBy := userId |} in
              if insertOk then
                ({| status := 200; body := Config config |}, Some config)
              else
                ({| status := 500; body := Message "Error saving configuration" |}, None)
        end
  end.

(** The rejected values of [priceLevels], as the specification lists them:
    missing, not a number, below 2, or above 5. *)
Definition priceLevelsRejected (v : JsonValue) : Prop :=
  v = JUndefined \/
  (forall n, v <> JNumber n) \/
  (exists n, v = JNumber n /\ (n < 2 \/ 5 < n)%Q).

End Routes.

(** ** The consumer simulation helper *)

Module SimulateUtils.

(** A product as [getSimulatedConsumerPreference] reads it. *)
Record SimProduct := {
  id : Z;
  brandName : string;
  productName : string;
  description : string;
  price : Z
}.

(** [getSimulatedConsumerPreference(consumerProfile, products)],
    simulate-utils.ts 7-63; [completion] is the model's answer. *)
Definition getSimulatedConsumerPreference (completion : Completion)
    (products : list SimProduct) : option Z :=
  match completion with
  | Threw => None
  | Content None => None
  | Content (Some response) =>
      if String.eqb response EmptyString then None
      else
        match JS.match_digits response with
        | None => None
        | Some digits =>
            let selectedIndex := JS.parseInt digits - 1 in
            if (selectedIndex <? 0) || (selectedIndex >=? Z.of_nat (length products))
            then None
            else
              match nth_error products (Z.to_nat selectedIndex) with
              | Some product => Some (id product)
              | None => None
              end
        end
  end.

End SimulateUtils.

(** ** The client: price preview of the configuration page *)

Module Client.

(** An element of [ShelfData['products']]. *)
Record ShelfProduct := {
  id : Z;
  productName : string;
  listPrice : Z;
  lowPrice : option Z;
  highPrice : option Z
}.

(** [generatePriceLevels(product, levels)], conjoint-configuration.tsx 61-83. *)
Definition generatePriceLevels (product : ShelfProduct) (levels : Z) : list Z :=
  let lowPrice :=
    JS.or_default (lowPrice product)
      (JS.Math_round (inject_Z (listPrice product) * 0.8)) in
  let highPrice :=
    JS.or_default (highPrice product)
      (JS.Math_round (inject_Z (listPrice product) * 1.2)) in
  let listPrice := listPrice product in
  if levels =? 2 then
    [lowPrice; highPrice]
  else if levels =? 3 then
    [lowPrice; listPrice; highPrice]
  else if levels =? 4 then
    let quarterPoint :=
      JS.Math_round (inject_Z lowPrice + (inject_Z listPrice - inject_Z lowPrice) / 2) in
    let threeQuarterPoint :=
      JS.Math_round (inject_Z listPrice + (inject_Z highPrice - inject_Z listPrice) / 2) in
    [lowPrice; quarterPoint; threeQuarterPoint; highPrice]
  else if levels =? 5 then
    let p1 :=
      JS.Math_round (inject_Z lowPrice + (inject_Z listPrice - inject_Z lowPrice) / 3) in
    let p2 :=
      JS.Math_round (inject_Z lowPrice + 2 * (inject_Z listPrice - inject_Z lowPrice) / 3) in
    let p3 :=
      JS.Math_round (inject_Z listPrice + (inject_Z highPrice - inject_Z listPrice) / 3) in
    let p4 :=
      JS.Math_round (inject_Z listPrice + 2 * (inject_Z highPrice - inject_Z listPrice) / 3) in
    [lowPrice; p1; p2; p3; p4; highPrice]
  else
    [lowPrice; listPrice; highPrice].

End Client.

(** ** The analysis page *)

Module Analysis.

Local Open Scope float_scope.

(** [!x] on a number: [0], [-0] and NaN are falsy. *)
Definition falsy (x : float) : bool := PrimFloat.is_nan x || (x =? 0).

(** [x || d] on an optional number. *)
Definition or_default (x : option float) (d : float) : float :=
  match x with
  | Some v => if falsy v then d else v
  | None => d
  end.

(** An integer of magnitude below 2^53 as a double. *)
Definition float_of_Z (n : Z) : float :=
  if (n <? 0)%Z then - PrimFloat.of_uint63 (Uint63.of_Z (- n))
  else PrimFloat.of_uint63 (Uint63.of_Z n).

(** [Math.round(x)]: NaN, the infinities, the zeros and the integers are
    returned as they are; otherwise [floor(x + 1/2)], computed on the
    exact value [(-1)^s * m * 2^e] of [x], with the sign of [x] when the
    result is zero. *)
Definition Math_round (x : float) : float :=
  match Prim2SF x with
  | S754_finite s m e =>
      if (0 <=? e)%Z then x
      else
        let twice := (if s then - Z.pos m~0 else Z.pos m~0)%Z in
        let n := ((twice + 2 ^ (- e)) / 2 ^ (1 - e))%Z in
        if (n =? 0)%Z then (if s then -0 else 0) else float_of_Z n
  | _ => x
  end.

(** [ProductAnalysis]; [responses] lists the entries of the object in
    the order of [Object.values]. *)
Record ProductAnalysis := {
  productId : Z;
  brandName : string;
  productName : string;
  responses : list (string * float);
  listPrice : float;
  lowPrice : option float;
  highPrice : option float
}.

Record AnalysisData := {
  totalResponses : float;
  byRespondentType : list (string * float);
  byProduct : list ProductAnalysis
}.

(** [Object.values(product.responses).reduce((a, b) => a + b, 0)] *)
Definition sumResponses (product : ProductAnalysis) : float :=
  fold_left PrimFloat.add (map snd (responses product)) 0.

(** [calculateOptimalPrice(product)], analysis.tsx 62-80; [analysis] is
    the query result, [None] while it is undefined. *)
Definition calculateOptimalPrice (analysis : option AnalysisData)
    (product : ProductAnalysis) : float :=
  match analysis with
  | None => listPrice product
  | Some analysis =>
      let totalResponses := sumResponses product in
      if totalResponses =? 0 then listPrice product
      else
        let responseProportion := totalResponses / Analysis.totalResponses analysis in
        let basePrice := listPrice product in
        let lowPrice := or_default (lowPrice product) (Math_round (basePrice * 0.8)) in
        let highPrice := or_default (highPrice product) (Math_round (basePrice * 1.2)) in
        let optimalPrice :=
          basePrice +
          (if 0.5 <? responseProportion
           then Math_round ((highPrice - basePrice) * (responseProportion - 0.5) * 2)
           else Math_round ((lowPrice - basePrice) * (1 - responseProportion * 2))) in
        optimalPrice
  end.

(** [calculatePriceElasticity(product)], analysis.tsx 83-99. *)
Definition calculatePriceElasticity (analysis : option AnalysisData)
    (product : ProductAnalysis) : float :=
  match analysis with
  | None => 0
  | Some data =>
      let totalResponses := sumResponses product in
      let marketShare := totalResponses / Analysis.totalResponses data in
      let optimalPrice := calculateOptimalPrice analysis product in
      let priceChange := (optimalPrice - listPrice product) / listPrice product in
      let quantityChange := (marketShare - 0.5) / 0.5 in
      if priceChange =? 0 then 0
      else PrimFloat.abs (quantityChange / priceChange)
  end.

End Analysis.

(** ** Sample data *)

(** A product given away for free, chosen in the only response. *)
Definition free_sample : Analysis.ProductAnalysis :=
  {| Analysis.productId := 3; Analysis.brandName := "Acme";
     Analysis.productName := "Sample"; Analysis.responses := [("SYNTHETIC"%string, 1%float)];
     Analysis.listPrice := 0%float;
     Analysis.lowPrice := None; Analysis.highPrice := None |}.

Definition one_response : Analysis.AnalysisData :=
  {| Analysis.totalResponses := 1%float;
     Analysis.byRespondentType := [("SYNTHETIC"%string, 1%float)];
     Analysis.byProduct := [free_sample] |}.

Definition cola_analysis : Analysis.ProductAnalysis :=
  {| Analysis.productId := 1; Analysis.brandName := "Acme";
     Analysis.productName := "Cola";
     Analysis.responses := [("SYNTHETIC"%string, 3%float); ("HUMAN"%string, 1%float)];
     Analysis.listPrice := 499%float;
     Analysis.lowPrice := None; Analysis.highPrice := None |}.

Definition ten_responses : Analysis.AnalysisData :=
  {| Analysis.totalResponses := 10%float;
     Analysis.byRespondentType := [("SYNTHETIC"%string, 7%float); ("HUMAN"%string, 3%float)];
     Analysis.byProduct := [cola_analysis] |}.

Definition cola : Server.Product :=
  {| Server.id := 1; Server.brandName := "Acme"; Server.productName := "Cola";
     Server.description := "Classic cola"; Server.listPrice := 499;
     Server.lowPrice := None; Server.highPrice := None;
     Server.benefits := None; Server.images := [] |}.

Definition cola_preview : Client.ShelfProduct :=
  {| Client.id := 1; Client.productName := "Cola"; Client.listPrice := 499;
     Client.lowPrice := None; Client.highPrice := None |}.

(** [cola] under the id [i]. *)
Definition numbered (i : Z) : Server.Product :=
  {| Server.id := i; Server.brandName := "Acme"; Server.productName := "Cola";
     Server.description := "Classic cola"; Server.listPrice := 499;
     Server.lowPrice := None; Server.highPrice := None;
     Server.benefits := None; Server.images := [] |}.

Definition seven_products : list Server.Product :=
  map numbered [1; 2; 3; 4; 5; 6; 7].

Definition lemonade : Server.Product :=
  {| Server.id := 2; Server.brandName := "Acme"; Server.productName := "Lemonade";
     Server.description := "Cloudy lemonade"; Server.listPrice := 300;
     Server.lowPrice := Some 250; Server.highPrice := Some 350;
     Server.benefits := None; Server.images := [] |}.

Definition two_item_lineup : list Survey.ProductLineupItem :=
  [ {| Survey.productId := 1; Survey.price := 499 |};
    {| Survey.productId := 2; Survey.price := 300 |} ].

(** The lineup of a shelf that lists [cola] twice. *)
Definition doubled_lineup : list Survey.ProductLineupItem :=
  [ {| Survey.productId := 1; Survey.price := 499 |};
    {| Survey.productId := 1; Survey.price := 499 |} ].

(** A source of random numbers: 1/2, 1/3, 1/4, ... *)
Definition harmonic (k : nat) : Q := 1 # Pos.of_succ_nat (S k).

Definition shopper : Server.Persona :=
  {| Server.persona_id := 1; Server.persona_name := "Shopper" |}.

(** A model that answers the second prompt with "Product 2" and gives no
    content otherwise. *)
Definition second_prompt_picks_two (k : nat) : Completion :=
  if (k =? 1)%nat then Content (Some "Product 2"%string) else Content None.

(** A model that answers every prompt with "3". *)
Definition always_three (k : nat) : Completion := Content (Some "3"%string).

Definition cola_shelf : Routes.Shelf :=
  {| Routes.shelf_id := 7; Routes.products := [cola] |}.

Definition five_levels_request : Routes.Request :=
  {| Routes.params_id := 7;
     Routes.body_priceLevels := Routes.JNumber 5;
     Routes.user_id := Some 42 |}.

Definition anonymous_request : Routes.Request :=
  {| Routes.params_id := 7;
     Routes.body_priceLevels := Routes.JUndefined;
     Routes.user_id := None |}.

(** ** Predicates used to state further properties *)

Module Shape.

(** All characters of [s] satisfy [p]. *)
Fixpoint all_chars (p : ascii -> bool) (s : string) : bool :=
  match s with
  | EmptyString => true
  | String c s' => p c && all_chars p s'
  end.

(** [s] does not begin with a digit. *)
Definition no_leading_digit (s : string) : bool :=
  match s with
  | EmptyString => true
  | String c _ => negb (JS.is_digit c)
  end.

(** [simulationResults] has an entry for every product of [productsData],
    and no entry counts a negative number of selections. *)
Definition keepsEntries (productsData : list Server.Product)
    (simulationResults : gmap Z RunSurvey.SimulationResult) : Prop :=
  (forall product, In product productsData ->
     is_Some (simulationResults !! Server.id product)) /\
  (forall i result, simulationResults !! i = Some result ->
     0 <= RunSurvey.selections result).

(** The prompts of a run, in the order they are made: every persona in
    turn is shown every row of the conjoint matrix. *)
Definition prompts (personas : list Server.Persona)
    (conjointMatrix : list (list Server.Offer))
    : list (Server.Persona * list Server.Offer) :=
  flat_map (fun persona => map (fun row => (persona, row)) conjointMatrix) personas.

End Shape.

(** ** Strings *)

Module Text.

(** [String(n)] and [`${n}`] for an integer [n]: its decimal numeral. *)
Definition Number_toString (n : Z) : string :=
  NilZero.string_of_int (Z.to_int n).

(** [s.startsWith(searchString)] *)
Definition startsWith (s searchString : string) : bool :=
  String.prefix searchString s.

(** [s] without its first [n] characters. *)
Fixpoint drop (n : nat) (s : string) : string :=
  match n, s with
  | O, _ => s
  | S n', String _ s' => drop n' s'
  | S _, EmptyString => EmptyString
  end.

(** [s.replace(pattern, replacement)] for a string pattern: the first
    occurrence of [pattern] is replaced. *)
Fixpoint replace (s pattern replacement : string) : string :=
  if String.prefix pattern s
  then (replacement ++ drop (String.length pattern) s)%string
  else
    match s with
    | EmptyString => EmptyString
    | String c s' => String c (replace s' pattern replacement)
    end.

End Text.

(** ** The questions of the survey page and the answers submitted *)

Module SurveyQuestions.

Inductive AnswerType := SINGLE | MULTIPLE | NUMBER | TEXT.

(** A question as a persona or the [questions] table holds it. *)
Module Stored.
Record Question := {
  id : Z;
  question : string;
  answerType : AnswerType;
  options : option (list string)
}.
End Stored.

(** A question as [GET /api/survey/:id] serves it. *)
Record Question := {
  id : string;
  question : string;
  type : AnswerType;
  options : option (list string)
}.

(** [l.findIndex(p)], counting from [index]: [-1] when nothing matches. *)
Fixpoint findIndexFrom {A : Type} (p : A -> bool) (l : list A) (index : Z) : Z :=
  match l with
  | [] => -1
  | x :: l' => if p x then index else findIndexFrom p l' (index + 1)
  end.

Definition findIndex {A : Type} (p : A -> bool) (l : list A) : Z :=
  findIndexFrom p l 0.

(** [l.filter((x, index) => keep(x, index))], counting from [index]. *)
Fixpoint filterFrom {A : Type} (keep : A -> Z -> bool) (l : list A) (index : Z)
    : list A :=
  match l with
  | [] => []
  | x :: l' =>
      if keep x index then x :: filterFrom keep l' (index + 1)
      else filterFrom keep l' (index + 1)
  end.

(** The demographic questions, survey.ts 93-106: the questions of all
    personas of the shelf, renamed [demo_<id>], each id once. *)
Definition demographicQuestions (personas : list (list Stored.Question))
    : list Question :=
  let all :=
    flat_map
      (fun demographics =>
         map (fun q =>
                {| id := ("demo_" ++ Text.Number_toString (Stored.id q))%string;
                   question := Stored.question q;
                   type := Stored.answerType q;
                   options := Stored.options q |})
             demographics)
      personas in
  filterFrom
    (fun q index => index =? findIndex (fun t => String.eqb (id t) (id q)) all)
    all 0.

(** The questions of the shelf, survey.ts 108-114. *)
Definition shelfQuestions (questions : list Stored.Question) : list Question :=
  map (fun sq =>
         {| id := Text.Number_toString (Stored.id sq);
            question := Stored.question sq;
            type := Stored.answerType sq;
            options := Stored.options sq |})
      questions.

(** [questions], survey.ts 116-117: demographics first. *)
Definition questions (personas : list (list Stored.Question))
    (shelf : list Stored.Question) : list Question :=
  demographicQuestions personas ++ shelfQuestions shelf.

(** [formattedDemographics] of [POST /api/survey/:id/submit], survey.ts
    213-219; [entries] is [Object.entries(demographics)]. *)
Definition formattedDemographics {V : Type} (entries : list (string * V))
    : gmap string V :=
  fold_left
    (fun acc entry => <[Text.replace (fst entry) "demo_" EmptyString := snd entry]> acc)
    (List.filter (fun entry => Text.startsWith (fst entry) "demo_") entries)
    ∅.

(** The value of the property [key] in the object with these entries. *)
Definition property {V : Type} (entries : list (string * V)) (key : string)
    : option V :=
  option_map snd (List.find (fun entry => String.eqb (fst entry) key) entries).

End SurveyQuestions.

(** ** The lists of surveys and runs *)

Module Runs.

(** A shelf variant with the project name of its shelf. *)
Record Variant := {
  id : Z;
  shelfId : Z;
  projectName : string;
  createdAt : Z
}.

(** An entry of [GET /api/survey-runs]. *)
Record SurveyRun := {
  run_id : Z;
  run_shelfId : Z;
  run_projectName : string;
  date : Z
}.

(** [new Date(undefined).toDateString()] *)
Definition invalidDate : string := "Invalid Date".

(** [uniqueVariants] of [GET /api/active-surveys], survey.ts 262-275.
    [toDateString t] is [new Date(t).toDateString()], which depends on the
    time zone of the server. *)
Definition uniqueVariants (toDateString : Z -> string) (activeVariants : list Variant)
    : list Variant :=
  fold_left
    (fun acc variant =>
       if negb (existsb
                  (fun v =>
                     (shelfId v =? shelfId variant)
                     && String.eqb (toDateString (createdAt v))
                          (toDateString (createdAt variant)))
                  acc)
       then acc ++ [{| id := id variant;
                       shelfId := shelfId variant;
                       projectName := projectName variant;
                       createdAt := createdAt variant |}]
       else acc)
    activeVariants [].

(** [uniqueRuns] of [GET /api/survey-runs], survey.ts 467-478.  The
    entries collected carry [date], so [r.createdAt] is [undefined] in the
    test. *)
Definition uniqueRuns (toDateString : Z -> string) (runs : list Variant)
    : list SurveyRun :=
  fold_left
    (fun acc run =>
       if negb (existsb
                  (fun r =>
                     (run_shelfId r =? shelfId run)
                     && String.eqb invalidDate (toDateString (createdAt run)))
                  acc)
       then acc ++ [{| run_id := id run;
                       run_shelfId := shelfId run;
                       run_projectName := projectName run;
                       date := createdAt run |}]
       else acc)
    runs [].

(** The shelf and the day of a variant. *)
Definition shelfAndDay (toDateString : Z -> string) (v : Variant) : Z * string :=
  (shelfId v, toDateString (createdAt v)).

(** The entry [GET /api/survey-runs] builds from a variant. *)
Definition runOf (run : Variant) : SurveyRun :=
  {| run_id := id run;
     run_shelfId := shelfId run;
     run_projectName := projectName run;
     date := createdAt run |}.

(** Same shelf, same day. *)
Definition sameShelfAndDay (toDateString : Z -> string) (v w : Variant) : bool :=
  (shelfId v =? shelfId w)
  && String.eqb (toDateString (createdAt v)) (toDateString (createdAt w)).

End Runs.

(** ** The analysis route *)

Module AnalysisRoute.

(** [respondent_type] of the schema. *)
Inductive RespondentType := HUMAN | SYNTHETIC.

Definition typeName (type : RespondentType) : string :=
  match type with
  | HUMAN => "HUMAN"
  | SYNTHETIC => "SYNTHETIC"
  end.

(** A row of the grouped count of responses; [respondentType] is [None]
    where the left join found no respondent. *)
Record ResponseCount := {
  productId : Z;
  respondentType : option RespondentType;
  count : Z
}.

Record ProductAnalysis := {
  product : Server.Product;
  responses : gmap string Z
}.

Record Analysis := {
  totalResponses : Z;
  byRespondentType : gmap string Z;
  byProduct : list ProductAnalysis
}.

(** [item.respondentType || "UNKNOWN"] *)
Definition typeOf (item : ResponseCount) : string :=
  match respondentType item with
  | Some type => typeName type
  | None => "UNKNOWN"%string
  end.

(** [acc[type] || 0] *)
Definition tally (acc : gmap string Z) (type : string) : Z :=
  match acc !! type with
  | Some n => n
  | None => 0
  end.

(** The [analysis] object of [GET /api/survey-runs/:runId/analysis],
    survey.ts 555-577. *)
Definition analysis (responseData : list ResponseCount)
    (productsData : list Server.Product) : Analysis :=
  {| totalResponses := fold_left (fun sum item => sum + count item) responseData 0;
     byRespondentType :=
       fold_left
         (fun acc item => <[typeOf item := tally acc (typeOf item) + count item]> acc)
         responseData ∅;
     byProduct :=
       map (fun product =>
              {| product := product;
                 responses :=
                   fold_left
                     (fun acc item => <[typeOf item := count item]> acc)
                     (List.filter (fun r => productId r =? Server.id product)
                        responseData)
                     ∅ |})
           productsData |}.

(** The sum of the values of an object of numbers. *)
Definition total (counts : gmap string Z) : Z :=
  map_fold (fun _ n sum => sum + n) 0 counts.

(** The sum of [f x] over the [x] of a list. *)
Definition sumOf {A : Type} (f : A -> Z) (l : list A) : Z :=
  fold_right (fun x sum => f x + sum) 0 l.

End AnalysisRoute.

(** ** Lineups and shelf metrics *)

Module Shelves.

(** [productLineup] as [run-survey] and [create-survey] store it,
    survey.ts 354-357 and 620-623. *)
Definition productLineup (productsData : list Server.Product)
    : list Survey.ProductLineupItem :=
  map (fun p => {| Survey.productId := Server.id p;
                   Survey.price := Server.listPrice p |})
      productsData.

(** What the shelf metrics read of a product. *)
Record Product := {
  priceLevels : option Z;
  lowPrice : option Z;
  highPrice : option Z
}.

Record ShelfMetrics := {
  totalCombinations : Z;
  minSampleSize : Z;
  estimatedTime : Z
}.

(** [calculateShelfMetrics(products, overridePriceLevels)] of the shelf
    setup page.  The numbers are integers; the products are those of the
    doubles as long as they stay below 2^53. *)
Definition calculateShelfMetrics (products : list Product)
    (overridePriceLevels : option Z) : ShelfMetrics :=
  let totalCombinations :=
    fold_left
      (fun acc p =>
         let priceLevels :=
           JS.or_default overridePriceLevels (JS.or_default (priceLevels p) 3) in
         acc * priceLevels)
      products 1 in
  {| totalCombinations := totalCombinations;
     minSampleSize := Qceiling (inject_Z totalCombinations * 1.5);
     estimatedTime := Qceiling (inject_Z totalCombinations * 0.5) |}.

(** [calculateTotalCombinations(shelfProducts)] of the shelf routes. *)
Definition calculateTotalCombinations (shelfProducts : list Product) : Z :=
  fold_left
    (fun totalCombinations product =>
       let priceLevels :=
         JS.or_default (priceLevels product)
           (if JS.truthy (JS.or_default (lowPrice product) 0)
               && JS.truthy (JS.or_default (highPrice product) 0)
            then 5 else 1) in
       totalCombinations * priceLevels)
    shelfProducts 1.

(** [calculateMinimumSampleSize(totalCombinations)] of the shelf routes. *)
Definition calculateMinimumSampleSize (totalCombinations : Z) : Z :=
  Z.min (totalCombinations * 30) 1000.

End Shelves.

(** ** Auxiliary lists used to state properties of the questions *)

Module QuestionShape.

(** A persona question as the survey page serves it. *)
Definition served (q : SurveyQuestions.Stored.Question) : SurveyQuestions.Question :=
  {| SurveyQuestions.id :=
       ("demo_" ++ Text.Number_toString (SurveyQuestions.Stored.id q))%string;
     SurveyQuestions.question := SurveyQuestions.Stored.question q;
     SurveyQuestions.type := SurveyQuestions.Stored.answerType q;
     SurveyQuestions.options := SurveyQuestions.Stored.options q |}.

(** The questions of all personas, in order, before ids are made unique. *)
Definition allServed (personas : list (list SurveyQuestions.Stored.Question))
    : list SurveyQuestions.Question :=
  flat_map (fun demographics => map served demographics) personas.

End QuestionShape.

(** ** More sample data *)

Definition age_question : SurveyQuestions.Stored.Question :=
  {| SurveyQuestions.Stored.id := 7;
     SurveyQuestions.Stored.question := "How old are you?";
     SurveyQuestions.Stored.answerType := SurveyQuestions.NUMBER;
     SurveyQuestions.Stored.options := None |}.

Definition diet_question : SurveyQuestions.Stored.Question :=
  {| SurveyQuestions.Stored.id := 12;
     SurveyQuestions.Stored.question := "Do you drink diet soda?";
     SurveyQuestions.Stored.answerType := SurveyQuestions.SINGLE;
     SurveyQuestions.Stored.options := Some ["yes"%string; "no"%string] |}.

(** The answers of a respondent: two demographic ones and one to a shelf
    question. *)
Definition sample_answers : list (string * string) :=
  [ ("demo_7", "34"); ("demo_12", "no"); ("3", "Cola") ]%string.

(** Days of ten thousand seconds, for the examples. *)
Definition sample_day (t : Z) : string := Text.Number_toString (t / 10000).

Definition sample_variants : list Runs.Variant :=
  [ {| Runs.id := 3; Runs.shelfId := 1; Runs.projectName := "Sodas";
       Runs.createdAt := 25000 |};
    {| Runs.id := 2; Runs.shelfId := 1; Runs.projectName := "Sodas";
       Runs.createdAt := 21000 |};
    {| Runs.id := 1; Runs.shelfId := 1; Runs.projectName := "Sodas";
       Runs.createdAt := 5000 |} ].

Definition sample_counts : list AnalysisRoute.ResponseCount :=
  [ {| AnalysisRoute.productId := 1;
       AnalysisRoute.respondentType := Some AnalysisRoute.SYNTHETIC;
       AnalysisRoute.count := 3 |};
    {| AnalysisRoute.productId := 1;
       AnalysisRoute.respondentType := Some AnalysisRoute.HUMAN;
       AnalysisRoute.count := 1 |};
    {| AnalysisRoute.productId := 2;
       AnalysisRoute.respondentType := Some AnalysisRoute.SYNTHETIC;
       AnalysisRoute.count := 6 |} ].

(* ===================================================================== *)
(** * Theorems *)
(* ===================================================================== *)

(** ** Rounding *)

Section Rounding.

Lemma Math_round_inject (z : Z) : JS.Math_round (inject_Z z) = z.
Proof.
  unfold JS.Math_round.
  apply Z.le_antisymm.
  - apply Z.lt_succ_r. rewrite <- Z.add_1_r.
    rewrite Zlt_Qlt. eapply Qle_lt_trans; [apply Qfloor_le|].
    rewrite inject_Z_plus. change (inject_Z 1) with 1%Q. lra.
  - rewrite <- (Qfloor_Z z) at 1. apply Qfloor_resp_le. lra.
Qed.

Lemma Math_round_mono (x y : Q) : (x <= y)%Q -> JS.Math_round x <= JS.Math_round y.
Proof. intros H. unfold JS.Math_round. apply Qfloor_resp_le. lra. Qed.

Lemma Math_round_ge (z : Z) (x : Q) : (inject_Z z <= x)%Q -> z <= JS.Math_round x.
Proof. intros H. rewrite <- (Math_round_inject z). now apply Math_round_mono. Qed.

Lemma Math_round_le (z : Z) (x : Q) : (x <= inject_Z z)%Q -> JS.Math_round x <= z.
Proof. intros H. rewrite <- (Math_round_inject z). now apply Math_round_mono. Qed.

End Rounding.

(** ** Price levels *)

Section PriceMatrix.

Import Server.

(** The number of prices [generatePriceMatrix] returns for a level count. *)
Lemma generatePriceMatrix_length (product : Product) (priceLevels : Z) :
  length (generatePriceMatrix product priceLevels) =
    if priceLevels =? 2 then 2%nat
    else if priceLevels =? 3 then 3%nat
    else if priceLevels =? 4 then 4%nat
    else if priceLevels =? 5 then 6%nat
    else 3%nat.
Proof.
  unfold generatePriceMatrix.
  repeat (destruct (_ =? _); [reflexivity|]); reflexivity.
Qed.

(** For 2, 3 and 4 levels the matrix has as many prices as levels. *)
Lemma generatePriceMatrix_length_2_4 (product : Product) (priceLevels : Z) :
  2 <= priceLevels <= 4 ->
  Z.of_nat (length (generatePriceMatrix product priceLevels)) = priceLevels.
Proof.
  intros H. rewrite generatePriceMatrix_length.
  assert (priceLevels = 2 \/ priceLevels = 3 \/ priceLevels = 4) as [-> | [-> | ->]] by lia;
    reflexivity.
Qed.

Lemma generatePriceLevels_length (product : Client.ShelfProduct) (levels : Z) :
  length (Client.generatePriceLevels product levels) =
    if levels =? 2 then 2%nat
    else if levels =? 3 then 3%nat
    else if levels =? 4 then 4%nat
    else if levels =? 5 then 6%nat
    else 3%nat.
Proof.
  unfold Client.generatePriceLevels.
  repeat (destruct (_ =? _); [reflexivity|]); reflexivity.
Qed.

(** C1. With five price levels configured, both the server's
    [generatePriceMatrix] and the client's [generatePriceLevels] return six
    prices for every product: the low price, two prices between low and
    list, two between list and high, and the high price.  The claimed
    length n fails at n = 5. *)
Theorem price_matrix_five_levels_has_six_prices
    (product : Product) (preview : Client.ShelfProduct) :
  length (generatePriceMatrix product 5) = 6%nat /\
  length (Client.generatePriceLevels preview 5) = 6%nat.
Proof. split; [apply generatePriceMatrix_length | apply generatePriceLevels_length]. Qed.

(** C8. The client preview and the server matrix agree: on products with
    the same list price and the same optional low and high prices,
    [generatePriceLevels] and [generatePriceMatrix] return the same list,
    for every level count. *)
Theorem generatePriceLevels_agrees_with_generatePriceMatrix
    (preview : Client.ShelfProduct) (product : Product) (levels : Z) :
  Client.listPrice preview = listPrice product ->
  Client.lowPrice preview = lowPrice product ->
  Client.highPrice preview = highPrice product ->
  Client.generatePriceLevels preview levels = generatePriceMatrix product levels.
Proof.
  intros Hlist Hlow Hhigh.
  unfold Client.generatePriceLevels, generatePriceMatrix.
  rewrite Hlist, Hlow, Hhigh. reflexivity.
Qed.

Lemma generatePriceLevels_agrees_witness :
  Client.generatePriceLevels cola_preview 5 = generatePriceMatrix cola 5.
Proof.
  apply (generatePriceLevels_agrees_with_generatePriceMatrix cola_preview cola 5);
    reflexivity.
Defined.

Lemma generatePriceMatrix_effective (product : Product) (priceLevels : Z) :
  generatePriceMatrix product priceLevels =
    let lowPrice := effectiveLowPrice product in
    let highPrice := effectiveHighPrice product in
    let listPrice := listPrice product in
    if priceLevels =? 2 then [lowPrice; highPrice]
    else if priceLevels =? 3 then [lowPrice; listPrice; highPrice]
    else if priceLevels =? 4 then
      [lowPrice;
       JS.Math_round (inject_Z lowPrice + (inject_Z listPrice - inject_Z lowPrice) / 2);
       JS.Math_round (inject_Z listPrice + (inject_Z highPrice - inject_Z listPrice) / 2);
       highPrice]
    else if priceLevels =? 5 then
      [lowPrice;
       JS.Math_round (inject_Z lowPrice + (inject_Z listPrice - inject_Z lowPrice) / 3);
       JS.Math_round (inject_Z lowPrice + 2 * (inject_Z listPrice - inject_Z lowPrice) / 3);
       JS.Math_round (inject_Z listPrice + (inject_Z highPrice - inject_Z listPrice) / 3);
       JS.Math_round (inject_Z listPrice + 2 * (inject_Z highPrice - inject_Z listPrice) / 3);
       highPrice]
    else [lowPrice; listPrice; highPrice].
Proof. reflexivity. Qed.

(** Closes a comparison between prices and rounded interpolation points,
    given the ordering of the three anchor prices in [Q]. *)
Ltac q_linear :=
  unfold Qdiv;
  change (/ 2)%Q with (1 # 2)%Q; change (/ 3)%Q with (1 # 3)%Q;
  lra.

Ltac round_bound :=
  match goal with
  | |- JS.Math_round _ <= JS.Math_round _ => apply Math_round_mono; q_linear
  | |- _ <= JS.Math_round _ => apply Math_round_ge; q_linear
  | |- JS.Math_round _ <= _ => apply Math_round_le; q_linear
  | |- _ <= _ => lia
  end.

Ltac ordered_list :=
  repeat match goal with
    | |- StronglySorted _ [] => apply SSorted_nil
    | |- StronglySorted _ (_ :: _) => apply SSorted_cons
    | |- Forall _ [] => constructor
    | |- Forall _ (_ :: _) => constructor
    | |- _ /\ _ => split
    | |- _ = _ => reflexivity
    | |- _ <= _ => round_bound
    end.

(** C10. When the effective low price (the configured one, or 0.8 times
    the list price) is at most the list price and the list price at most
    the effective high price, the price matrix is nondecreasing, starts
    with the low price, ends with the high price, and all its prices lie
    between the two. *)
Theorem generatePriceMatrix_ordered_within_bounds
    (product : Product) (priceLevels : Z) :
  effectiveLowPrice product <= listPrice product <= effectiveHighPrice product ->
  StronglySorted Z.le (generatePriceMatrix product priceLevels) /\
  head (generatePriceMatrix product priceLevels) = Some (effectiveLowPrice product) /\
  last (generatePriceMatrix product priceLevels) = Some (effectiveHighPrice product) /\
  Forall (fun price => effectiveLowPrice product <= price <= effectiveHighPrice product)
    (generatePriceMatrix product priceLevels).
Proof.
  intros [Hlow Hhigh].
  rewrite generatePriceMatrix_effective.
  generalize dependent (effectiveHighPrice product).
  generalize dependent (effectiveLowPrice product).
  generalize (listPrice product).
  intros l lo Hlow hi Hhigh. cbv zeta.
  pose proof Hlow as Hlow'. pose proof Hhigh as Hhigh'.
  rewrite Zle_Qle in Hlow', Hhigh'.
  repeat (destruct (_ =? _)); ordered_list.
Qed.

Lemma generatePriceMatrix_ordered_witness :
  StronglySorted Z.le (generatePriceMatrix cola 5) /\
  head (generatePriceMatrix cola 5) = Some 399 /\
  last (generatePriceMatrix cola 5) = Some 599 /\
  Forall (fun price => 399 <= price <= 599) (generatePriceMatrix cola 5).
Proof.
  apply (generatePriceMatrix_ordered_within_bounds cola 5).
  vm_compute. split; discriminate.
Defined.

End PriceMatrix.

(** ** Reading the model's answer *)

Section Preference.

Import Server.

Lemma nth_error_in_range {A} (l : list A) (i : Z) :
  (i <? 0) || (i >=? Z.of_nat (length l)) = false ->
  exists x, nth_error l (Z.to_nat i) = Some x /\ In x l.
Proof.
  intros H. apply orb_false_iff in H as [H0 H1].
  apply Z.ltb_ge in H0. rewrite Z.geb_leb in H1. apply Z.leb_gt in H1.
  destruct (nth_error l (Z.to_nat i)) as [x|] eqn:E.
  - exists x. split; [reflexivity|]. eapply nth_error_In; eassumption.
  - apply nth_error_None in E. lia.
Qed.

Lemma getPersonaPreference_sound (completion : Completion) (persona : Persona)
    (products : list Offer) :
  (getPersonaPreference completion persona products = None /\
   NullReason completion (length products)) \/
  (exists product, In product products /\
     getPersonaPreference completion persona products = Some (offer_id product)).
Proof.
  unfold getPersonaPreference.
  destruct completion as [|[response|]].
  - left. split; [reflexivity|]. now apply api_threw.
  - destruct (String.eqb_spec response EmptyString) as [->|Hne].
    { left. split; [reflexivity|]. apply no_content. now right. }
    destruct (JS.match_digits response) as [digits|] eqn:Hm.
    2:{ left. split; [reflexivity|]. now apply (no_digit _ _ response). }
    cbv zeta.
    destruct ((JS.parseInt digits - 1 <? 0)
              || (JS.parseInt digits - 1 >=? Z.of_nat (length products))) eqn:Hr.
    + left. split; [reflexivity|].
      apply (out_of_range _ _ response digits); [reflexivity|assumption|].
      apply orb_true_iff in Hr as [Hr|Hr].
      * apply Z.ltb_lt in Hr. lia.
      * rewrite Z.geb_leb in Hr. apply Z.leb_le in Hr. lia.
    + destruct (nth_error_in_range _ _ Hr) as (product & -> & Hin).
      right. exists product. split; [assumption|reflexivity].
  - left. split; [reflexivity|]. apply no_content. now left.
Qed.

Lemma getSimulatedConsumerPreference_sound (completion : Completion)
    (products : list SimulateUtils.SimProduct) :
  (SimulateUtils.getSimulatedConsumerPreference completion products = None /\
   NullReason completion (length products)) \/
  (exists product, In product products /\
     SimulateUtils.getSimulatedConsumerPreference completion products
       = Some (SimulateUtils.id product)).
Proof.
  unfold SimulateUtils.getSimulatedConsumerPreference.
  destruct completion as [|[response|]].
  - left. split; [reflexivity|]. now apply api_threw.
  - destruct (String.eqb_spec response EmptyString) as [->|Hne].
    { left. split; [reflexivity|]. apply no_content. now right. }
    destruct (JS.match_digits response) as [digits|] eqn:Hm.
    2:{ left. split; [reflexivity|]. now apply (no_digit _ _ response). }
    cbv zeta.
    destruct ((JS.parseInt digits - 1 <? 0)
              || (JS.parseInt digits - 1 >=? Z.of_nat (length products))) eqn:Hr.
    + left. split; [reflexivity|].
      apply (out_of_range _ _ response digits); [reflexivity|assumption|].
      apply orb_true_iff in Hr as [Hr|Hr].
      * apply Z.ltb_lt in Hr. lia.
      * rewrite Z.geb_leb in Hr. apply Z.leb_le in Hr. lia.
    + destruct (nth_error_in_range _ _ Hr) as (product & -> & Hin).
      right. exists product. split; [assumption|reflexivity].
  - left. split; [reflexivity|]. apply no_content. now left.
Qed.

Example answer_names_second_offer :
  getPersonaPreference (Content (Some "Product 2"%string)) shopper
    (nth 0 (generateConjointMatrix [cola; lemonade] 2) []) = Some 2.
Proof. reflexivity. Qed.

Example answer_zero_is_null :
  getPersonaPreference (Content (Some "0"%string)) shopper
    (nth 0 (generateConjointMatrix [cola; lemonade] 2) []) = None.
Proof. reflexivity. Qed.

Example answer_beyond_the_offers_is_null :
  getPersonaPreference (Content (Some "I would buy product 12."%string)) shopper
    (nth 0 (generateConjointMatrix [cola; lemonade] 2) []) = None.
Proof. reflexivity. Qed.

(** C9. The preference parsers never fabricate a product.  Whatever the
    model answers, [getPersonaPreference] and
    [getSimulatedConsumerPreference] return either [null] -- and then the
    call threw, there was no content, the content has no digit, or its
    first number lies outside 1..length -- or the id of one of the products
    they were given. *)
Theorem preference_parsers_return_null_or_a_given_product
    (completion : Completion) (persona : Persona)
    (offers : list Offer) (products : list SimulateUtils.SimProduct) :
  ((getPersonaPreference completion persona offers = None /\
    NullReason completion (length offers)) \/
   (exists offer, In offer offers /\
      getPersonaPreference completion persona offers = Some (offer_id offer)))
  /\
  ((SimulateUtils.getSimulatedConsumerPreference completion products = None /\
    NullReason completion (length products)) \/
   (exists product, In product products /\
      SimulateUtils.getSimulatedConsumerPreference completion products
        = Some (SimulateUtils.id product))).
Proof.
  split.
  - apply getPersonaPreference_sound.
  - apply getSimulatedConsumerPreference_sound.
Qed.

End Preference.

(** ** The conjoint matrix *)

Section ConjointMatrix.

Import Server.

Lemma generateCombinations_expand (rest : list PricedProduct) :
  forall current combinations,
    generateCombinations rest current combinations
      = combinations ++ expand rest current.
Proof.
  induction rest as [|product rest IH]; intros current combinations.
  - reflexivity.
  - simpl. generalize combinations.
    induction (prices product) as [|price ps IHps]; intros acc; simpl.
    + now rewrite app_nil_r.
    + rewrite IH, IHps, <- app_assoc. reflexivity.
Qed.

(** Each enumerated row lists the products in order, one offer each,
    priced at one of that product's prices. *)
Lemma expand_rows (rest : list PricedProduct) :
  forall current row,
    In row (expand rest current) ->
    map offer_product row = map offer_product current ++ rest /\
    exists tail,
      row = current ++ tail /\
      Forall (fun offer => In (currentPrice offer) (prices (offer_product offer))) tail.
Proof.
  induction rest as [|product rest IH]; intros current row Hin; simpl in Hin.
  - destruct Hin as [<-|[]]. rewrite app_nil_r. split; [reflexivity|].
    exists []. rewrite app_nil_r. split; [reflexivity|constructor].
  - apply in_flat_map in Hin as (price & Hprice & Hrow).
    apply IH in Hrow as (Hmap & tail & -> & Htail).
    split.
    + rewrite Hmap, map_app, <- app_assoc. reflexivity.
    + exists ({| offer_product := product; currentPrice := price |} :: tail).
      split; [now rewrite <- app_assoc|].
      constructor; [exact Hprice|exact Htail].
Qed.

Lemma expand_length (rest : list PricedProduct) :
  forall current,
    length (expand rest current)
      = fold_right Nat.mul 1%nat (map (fun product => length (prices product)) rest).
Proof.
  induction rest as [|product rest IH]; intros current; simpl; [reflexivity|].
  induction (prices product) as [|price ps IHps]; simpl; [reflexivity|].
  rewrite length_app, IH, IHps. reflexivity.
Qed.

Lemma generateConjointMatrix_expand (products : list Product) (priceLevels : Z) :
  generateConjointMatrix products priceLevels =
    expand
      (map (fun product =>
              {| pp_product := product;
                 prices := generatePriceMatrix product priceLevels |}) products) [].
Proof. unfold generateConjointMatrix. now rewrite generateCombinations_expand. Qed.

(** Every row of the conjoint matrix holds exactly the given products, in
    order. *)
Lemma generateConjointMatrix_row_products (products : list Product) (priceLevels : Z)
    (row : list Offer) :
  In row (generateConjointMatrix products priceLevels) ->
  map (fun offer => pp_product (offer_product offer)) row = products.
Proof.
  rewrite generateConjointMatrix_expand. intros Hin.
  apply expand_rows in Hin as [Hmap _]. simpl in Hmap.
  rewrite <- (map_map offer_product pp_product), Hmap, map_map. simpl.
  apply map_id.
Qed.

Lemma generateConjointMatrix_row_length (products : list Product) (priceLevels : Z)
    (row : list Offer) :
  In row (generateConjointMatrix products priceLevels) ->
  length row = length products.
Proof.
  intros Hin. apply generateConjointMatrix_row_products in Hin.
  rewrite <- Hin. now rewrite length_map.
Qed.

(** The number of rows is the product of the numbers of prices. *)
Lemma generateConjointMatrix_length (products : list Product) (priceLevels : Z) :
  length (generateConjointMatrix products priceLevels) =
    Nat.pow
      (if priceLevels =? 2 then 2
       else if priceLevels =? 3 then 3
       else if priceLevels =? 4 then 4
       else if priceLevels =? 5 then 6
       else 3)
      (length products).
Proof.
  rewrite generateConjointMatrix_expand, expand_length, map_map. simpl.
  induction products as [|product products IH]; simpl; [reflexivity|].
  rewrite IH. f_equal. apply generatePriceMatrix_length.
Qed.

(** For 2, 3 and 4 levels the matrix has [priceLevels ^ #products] rows. *)
Lemma generateConjointMatrix_length_2_4 (products : list Product) (priceLevels : Z) :
  2 <= priceLevels <= 4 ->
  Z.of_nat (length (generateConjointMatrix products priceLevels))
    = priceLevels ^ Z.of_nat (length products).
Proof.
  intros H. rewrite generateConjointMatrix_length, Nat2Z.inj_pow.
  assert (priceLevels = 2 \/ priceLevels = 3 \/ priceLevels = 4) as [-> | [-> | ->]] by lia;
    reflexivity.
Qed.

End ConjointMatrix.

(** ** The conjoint-configuration route *)

Section ConfigurationRoute.

Import Routes.

Lemma less_than_spec (a b : Q) : less_than a b = true <-> (a < b)%Q.
Proof.
  unfold less_than. rewrite negb_true_iff.
  destruct (Qle_bool b a) eqn:E.
  - apply Qle_bool_iff in E. split; [discriminate|]. intros H.
    exfalso. eapply Qlt_not_le; eassumption.
  - split; [intros _|reflexivity]. apply Qnot_le_lt. intros H.
    apply Qle_bool_iff in H. congruence.
Qed.

(** The validation test of the route rejects exactly the values the
    specification lists. *)
Lemma validation_rejects_iff (v : JsonValue) :
  falsy v || not_a_number v || less_than (number_of v) 2 || less_than 5 (number_of v)
    = true
  <-> priceLevelsRejected v.
Proof.
  unfold priceLevelsRejected.
  destruct v as [| |b|n|str|];
    try (split;
         [ intros _; right; left; intros n; discriminate
         | intros _; cbn [not_a_number]; now rewrite orb_true_r ]).
  cbn [falsy not_a_number number_of].
  rewrite orb_false_r, !orb_true_iff, !less_than_spec.
  split.
  - intros [[H|H]|H].
    + right; right. exists n. split; [reflexivity|]. left.
      apply Qeq_bool_iff in H. rewrite H. reflexivity.
    + right; right. exists n. split; [reflexivity|]. now left.
    + right; right. exists n. split; [reflexivity|]. now right.
  - intros [H|[H|(m & Hm & H)]].
    + discriminate.
    + now specialize (H n).
    + injection Hm as ->. destruct H; [left; now right | now right].
Qed.

(** C2. A shelf with one product, configured with five price levels: the
    conjoint matrix of a run has six rows, while the configuration route
    records a combination count of five.  The two agree for 2, 3 and 4
    levels ([generateConjointMatrix_length_2_4]) and differ at 5, where
    the price matrix has six prices. *)
Theorem five_level_matrix_rows_differ_from_combinationCount :
  length (Server.generateConjointMatrix (products cola_shelf) 5) = 6%nat /\
  option_map combinationCount
    (snd (postConjointConfiguration five_levels_request (DbOk (Some cola_shelf)) true))
    = Some 5%Q.
Proof. split; reflexivity. Qed.

Ltac route_case :=
  intros;
  repeat match goal with
    | H : _ /\ _ |- _ => destruct H
    | H : exists _, _ |- _ => destruct H
    | H : _ \/ _ |- _ => destruct H
    | H : Some _ = Some _ |- _ => injection H as H; subst
    | H : DbOk _ = DbOk _ |- _ => injection H as H; subst
    end;
  try discriminate; try congruence; try tauto.

(** C4, as stated, fails on a request without a user: [priceLevels] is
    missing, yet the answer is 401, not 400. *)
Lemma conjoint_configuration_anonymous_is_401 :
  priceLevelsRejected (body_priceLevels anonymous_request) /\
  status (fst (postConjointConfiguration anonymous_request (DbOk (Some cola_shelf)) true))
    = 401 /\
  ~ (status (fst (postConjointConfiguration anonymous_request (DbOk (Some cola_shelf)) true))
       = 400 <->
     priceLevelsRejected (body_priceLevels anonymous_request) \/
     exists shelf, DbOk (Some cola_shelf) = DbOk (Some shelf) /\ products shelf = []).
Proof.
  split; [now left|]. split; [reflexivity|].
  intros [_ H]. discriminate H. left. now left.
Qed.

(** The answers to a request of a logged-in user. *)
Lemma logged_in_responses
    (req : Request) (findShelf : DbResult (option Shelf)) (insertOk : bool)
    (userId : Z) :
  user_id req = Some userId ->
  userId <> 0 ->
  let result := postConjointConfiguration req findShelf insertOk in
  ((status (fst result) = 400 /\ snd result = None) <->
     (priceLevelsRejected (body_priceLevels req) \/
      exists shelf, findShelf = DbOk (Some shelf) /\ products shelf = [])) /\
  (status (fst result) = 404 <->
     (~ priceLevelsRejected (body_priceLevels req) /\ findShelf = DbOk None)) /\
  (status (fst result) = 200 <-> exists row, snd result = Some row) /\
  (forall row, snd result = Some row ->
     exists shelf,
       findShelf = DbOk (Some shelf) /\
       body_priceLevels req = JNumber (priceLevels row) /\
       combinationCount row
         = Qpower (priceLevels row) (Z.of_nat (length (products shelf))) /\
       (estimatedDuration row == 30 * combinationCount row)%Q).
Proof.
  intros Huser Hid result. subst result.
  unfold postConjointConfiguration. rewrite Huser.
  assert (JS.truthy userId = true) as ->
    by (unfold JS.truthy; apply negb_true_iff, Z.eqb_neq, Hid).
  cbn [negb].
  pose proof (validation_rejects_iff (body_priceLevels req)) as Hval.
  destruct (falsy (body_priceLevels req) || not_a_number (body_priceLevels req)
            || less_than (number_of (body_priceLevels req)) 2
            || less_than 5 (number_of (body_priceLevels req))) eqn:Hv.
  { assert (priceLevelsRejected (body_priceLevels req)) as Hrej by now apply Hval.
    cbn. repeat split; route_case. }
  assert (~ priceLevelsRejected (body_priceLevels req)) as Hacc
    by (intros H; apply Hval in H; discriminate).
  destruct findShelf as [[shelf|]|].
  - destruct (length (products shelf) =? 0)%nat eqn:Hlen.
    + apply Nat.eqb_eq in Hlen.
      assert (products shelf = []) as Hnil by now destruct (products shelf).
      cbn. repeat split; route_case.
      right. now exists shelf.
    + apply Nat.eqb_neq in Hlen.
      assert (products shelf <> []) as Hne by (intros H; now rewrite H in Hlen).
      destruct insertOk; cbn; repeat split; route_case.
      * eexists. reflexivity.
      * exists shelf. cbn. repeat split.
        -- destruct (body_priceLevels req) as [| | |n| |];
             try (exfalso; apply Hacc; right; left; intros; discriminate).
           reflexivity.
        -- ring.
  - cbn. repeat split; route_case.
  - cbn. repeat split; route_case.
Qed.

(** A request without a user is answered 401, whatever it carries and
    whatever the database holds, and nothing is inserted. *)
Lemma without_user_is_401
    (req : Request) (findShelf : DbResult (option Shelf)) (insertOk : bool) :
  user_id req = None \/ user_id req = Some 0 ->
  postConjointConfiguration req findShelf insertOk
  = ({| status := 401; body := Message "Unauthorized" |}, None).
Proof.
  unfold postConjointConfiguration. intros [-> | ->]; reflexivity.
Qed.

(** A request of a logged-in user is never answered 401. *)
Lemma logged_in_is_not_401
    (req : Request) (findShelf : DbResult (option Shelf)) (insertOk : bool)
    (userId : Z) :
  user_id req = Some userId ->
  userId <> 0 ->
  status (fst (postConjointConfiguration req findShelf insertOk)) <> 401.
Proof.
  intros Huser Hid. unfold postConjointConfiguration. rewrite Huser.
  assert (JS.truthy userId = true) as ->
    by (unfold JS.truthy; apply negb_true_iff, Z.eqb_neq, Hid).
  cbn [negb].
  destruct (falsy (body_priceLevels req) || not_a_number (body_priceLevels req)
            || less_than (number_of (body_priceLevels req)) 2
            || less_than 5 (number_of (body_priceLevels req))); [discriminate|].
  destruct findShelf as [[shelf|]|]; try discriminate.
  destruct (length (products shelf) =? 0)%nat; [discriminate|].
  destruct insertOk; discriminate.
Qed.

(** C4, amended.  A request without a user (no user id, or the id 0) is
    answered 401 and inserts nothing, whatever [priceLevels] and the shelf
    are, and no other request is answered 401.  For a request of a
    logged-in user: the route answers 400, inserting nothing, exactly when
    [priceLevels] is missing, not a number, below 2 or above 5, or the
    shelf was found and has no products; it answers 404 exactly when
    [priceLevels] is acceptable and the shelf does not exist; it answers
    200 exactly when it inserts a row, and that row has
    [combinationCount = priceLevels ^ #products] and
    [estimatedDuration = 30 * combinationCount]. *)
Theorem conjoint_configuration_responses
    (req : Request) (findShelf : DbResult (option Shelf)) (insertOk : bool) :
  let result := postConjointConfiguration req findShelf insertOk in
  ((status (fst result) = 401 /\ snd result = None) <->
     (user_id req = None \/ user_id req = Some 0)) /\
  (forall userId : Z,
     user_id req = Some userId ->
     userId <> 0 ->
     ((status (fst result) = 400 /\ snd result = None) <->
        (priceLevelsRejected (body_priceLevels req) \/
         exists shelf, findShelf = DbOk (Some shelf) /\ products shelf = [])) /\
     (status (fst result) = 404 <->
        (~ priceLevelsRejected (body_priceLevels req) /\ findShelf = DbOk None)) /\
     (status (fst result) = 200 <-> exists row, snd result = Some row) /\
     (forall row, snd result = Some row ->
        exists shelf,
          findShelf = DbOk (Some shelf) /\
          body_priceLevels req = JNumber (priceLevels row) /\
          combinationCount row
            = Qpower (priceLevels row) (Z.of_nat (length (products shelf))) /\
          (estimatedDuration row == 30 * combinationCount row)%Q)).
Proof.
  intros result. subst result. split.
  - split.
    + intros [H401 _].
      destruct (user_id req) as [userId|] eqn:Huser; [|now left].
      destruct (Z.eq_dec userId 0) as [->|Hid]; [now right|].
      exfalso. now apply (logged_in_is_not_401 req findShelf insertOk userId).
    + intros Hnone. now rewrite without_user_is_401.
  - intros userId Huser Hid.
    exact (logged_in_responses req findShelf insertOk userId Huser Hid).
Qed.

Lemma conjoint_configuration_responses_witness :
  (status (fst (postConjointConfiguration five_levels_request (DbOk (Some cola_shelf)) true))
     = 200 <->
   exists row,
     snd (postConjointConfiguration five_levels_request (DbOk (Some cola_shelf)) true)
       = Some row) /\
  (status (fst (postConjointConfiguration five_levels_request (DbOk (Some cola_shelf)) true))
     = 404 <->
   ~ priceLevelsRejected (body_priceLevels five_levels_request)
   /\ DbOk (Some cola_shelf) = @DbOk (option Shelf) None).
Proof.
  pose proof (conjoint_configuration_responses
                five_levels_request (DbOk (Some cola_shelf)) true) as [_ Hlogged].
  destruct (Hlogged 42) as (_ & H404 & H200 & _);
    [reflexivity | discriminate | ].
  split; [exact H200 | exact H404].
Defined.

End ConfigurationRoute.

(** ** The simulated survey run *)

Section RunSurveyFacts.

Import Server RunSurvey.

(** *** What the parser returns is the id of the designated offer *)

Lemma getPersonaPreference_chosenOffer (completion : Completion) (persona : Persona)
    (combination : list Offer) :
  getPersonaPreference completion persona combination
    = option_map offer_id (chosenOffer completion combination).
Proof.
  unfold getPersonaPreference, chosenOffer.
  destruct completion as [|[response|]]; [reflexivity| |reflexivity].
  destruct (String.eqb_spec response EmptyString) as [->|_]; [reflexivity|].
  destruct (JS.match_digits response) as [digits|]; [|reflexivity].
  cbv zeta.
  destruct ((JS.parseInt digits - 1 <? 0)
            || (JS.parseInt digits - 1 >=? Z.of_nat (length combination))) eqn:Hr.
  - apply orb_true_iff in Hr.
    destruct ((1 <=? JS.parseInt digits)
              && (JS.parseInt digits <=? Z.of_nat (length combination))) eqn:Hc;
      [|reflexivity].
    apply andb_true_iff in Hc as [H1 H2].
    apply Z.leb_le in H1, H2.
    destruct Hr as [Hr|Hr]; [apply Z.ltb_lt in Hr; lia|].
    rewrite Z.geb_leb in Hr. apply Z.leb_le in Hr. lia.
  - apply orb_false_iff in Hr as [H0 H1].
    apply Z.ltb_ge in H0. rewrite Z.geb_leb in H1. apply Z.leb_gt in H1.
    assert ((1 <=? JS.parseInt digits)
            && (JS.parseInt digits <=? Z.of_nat (length combination)) = true) as ->.
    { apply andb_true_iff. split; apply Z.leb_le; lia. }
    now destruct (nth_error combination (Z.to_nat (JS.parseInt digits - 1))).
Qed.

Lemma chosenOffer_In (completion : Completion) (combination : list Offer) (offer : Offer) :
  chosenOffer completion combination = Some offer -> In offer combination.
Proof.
  unfold chosenOffer.
  destruct completion as [|[response|]]; try discriminate.
  destruct (JS.match_digits response) as [digits|]; try discriminate.
  destruct (_ && _); try discriminate.
  apply nth_error_In.
Qed.

Lemma chosenFrom_app (ai : nat -> Completion) (shown shown' : list (list Offer)) :
  forall k,
    chosenFrom ai k (shown ++ shown')
      = chosenFrom ai k shown ++ chosenFrom ai (k + length shown) shown'.
Proof.
  induction shown as [|combination shown IH]; intros k; simpl.
  - now rewrite Nat.add_0_r.
  - rewrite IH, Nat.add_succ_r.
    now destruct (chosenOffer (ai k) combination).
Qed.

(** [find] by id returns the very offer when ids do not repeat. *)
Lemma find_by_id_unique (combination : list Offer) (offer : Offer) :
  List.NoDup (map offer_id combination) ->
  In offer combination ->
  List.find (fun p => offer_id p =? offer_id offer) combination = Some offer.
Proof.
  induction combination as [|first rest IH]; intros Hnd Hin; [destruct Hin|].
  simpl in *. apply List.NoDup_cons_iff in Hnd as [Hfresh Hnd].
  destruct (Z.eqb_spec (offer_id first) (offer_id offer)) as [Heq|Hne].
  - destruct Hin as [->|Hin]; [reflexivity|].
    exfalso. apply Hfresh. rewrite Heq. now apply in_map.
  - destruct Hin as [->|Hin]; [congruence|]. now apply IH.
Qed.

(** *** The tally kept by the loops *)

Lemma initResults_lookup (productsData : list Product) :
  forall (m : gmap Z SimulationResult) (i : Z),
    (In i (map id productsData) ->
     fold_left
       (fun sr p => <[id p := {| selections := 0; prices := [] |}]> sr)
       productsData m !! i = Some {| selections := 0; prices := [] |}) /\
    (~ In i (map id productsData) ->
     fold_left
       (fun sr p => <[id p := {| selections := 0; prices := [] |}]> sr)
       productsData m !! i = m !! i).
Proof.
  induction productsData as [|p ps IH]; intros m i; simpl.
  - split; [intros []|reflexivity].
  - destruct (IH (<[id p := {| selections := 0; prices := [] |}]> m) i) as [IHin IHout].
    split.
    + intros Hin.
      destruct (In_dec Z.eq_dec i (map id ps)) as [Hi|Hi]; [now apply IHin|].
      destruct Hin as [<-|Hin]; [|contradiction].
      rewrite (IHout Hi). apply lookup_insert_eq.
    + intros Hout. rewrite IHout by tauto.
      apply lookup_insert_ne. tauto.
Qed.

Lemma initResults_tallies (productsData : list Product) :
  tallies productsData [] (initResults productsData).
Proof.
  intros i. destruct (initResults_lookup productsData ∅ i) as [Hin Hout].
  split; intros H.
  - now apply Hin.
  - unfold initResults. rewrite (Hout H). apply lookup_empty.
Qed.

Lemma chosenOfId_snoc_same (chosen : list Offer) (offer : Offer) :
  chosenOfId (offer_id offer) (chosen ++ [offer])
    = chosenOfId (offer_id offer) chosen ++ [offer].
Proof.
  unfold chosenOfId. rewrite List.filter_app. simpl. now rewrite Z.eqb_refl.
Qed.

Lemma chosenOfId_snoc_other (i : Z) (chosen : list Offer) (offer : Offer) :
  offer_id offer <> i ->
  chosenOfId i (chosen ++ [offer]) = chosenOfId i chosen.
Proof.
  intros Hne. unfold chosenOfId. rewrite List.filter_app. simpl.
  apply Z.eqb_neq in Hne. rewrite Hne. apply app_nil_r.
Qed.

Lemma row_ids (productsData : list Product) (row : list Offer) :
  map (fun offer => pp_product (offer_product offer)) row = productsData ->
  map offer_id row = map id productsData.
Proof. intros <-. now rewrite map_map. Qed.

(** *** Totals *)

Lemma totalSelections_sum (ids : list Z) (f : Z -> SimulationResult) :
  List.NoDup ids ->
  forall sr : gmap Z SimulationResult,
    (forall i, (In i ids -> sr !! i = Some (f i)) /\ (~ In i ids -> sr !! i = None)) ->
    totalSelections sr = fold_right Z.add 0 (map (fun i => selections (f i)) ids).
Proof.
  induction 1 as [|i ids Hfresh Hnd IH]; intros sr Hsr.
  - assert (sr = ∅) as ->.
    { apply map_eq. intros i. rewrite lookup_empty. apply Hsr. intros []. }
    apply map_fold_empty.
  - unfold totalSelections.
    rewrite (map_fold_delete_L _ _ i (f i)).
    + fold (totalSelections (delete i sr)). rewrite (IH (delete i sr)).
      * simpl. lia.
      * intros j. destruct (Hsr j) as [Hin Hout]. split; intros Hj.
        -- rewrite lookup_delete_ne by (intros ->; contradiction).
           apply Hin. now right.
        -- destruct (Z.eq_dec i j) as [->|Hne]; [apply lookup_delete_eq|].
           rewrite lookup_delete_ne by assumption.
           apply Hout. intros [?|?]; contradiction.
    + intros. lia.
    + apply Hsr. now left.
Qed.

Lemma chosenFrom_shown (ai : nat -> Completion) (shown : list (list Offer))
    (offer : Offer) :
  forall k,
    In offer (chosenFrom ai k shown) -> exists row, In row shown /\ In offer row.
Proof.
  induction shown as [|row shown IH]; intros k Hin; [destruct Hin|].
  cbn [chosenFrom] in Hin.
  destruct (chosenOffer (ai k) row) as [o|] eqn:Hchosen.
  - destruct Hin as [<-|Hin].
    + exists row. split; [now left|]. eapply chosenOffer_In; eassumption.
    + destruct (IH _ Hin) as (row' & Hrow' & Hoffer). exists row'. split; [now right|assumption].
  - destruct (IH _ Hin) as (row' & Hrow' & Hoffer). exists row'. split; [now right|assumption].
Qed.

Lemma chosenOffers_ids (productsData : list Product) (ai : nat -> Completion)
    (personas : list Persona) (priceLevels : Z) (offer : Offer) :
  In offer (chosenOffers ai personas (generateConjointMatrix productsData priceLevels)) ->
  In (offer_id offer) (map id productsData).
Proof.
  intros Hin. apply chosenFrom_shown in Hin as (row & Hrow & Hoffer).
  apply in_flat_map in Hrow as (_ & _ & Hrow).
  apply generateConjointMatrix_row_products in Hrow. apply row_ids in Hrow.
  rewrite <- Hrow. now apply in_map.
Qed.

Lemma count_one (ids : list Z) (x : Z) :
  List.NoDup ids -> In x ids ->
  fold_right Z.add 0 (map (fun i => if x =? i then 1 else 0) ids) = 1.
Proof.
  induction 1 as [|i ids Hfresh Hnd IH]; intros Hin; [destruct Hin|].
  simpl. destruct (Z.eqb_spec x i) as [->|Hne].
  - assert (fold_right Z.add 0 (map (fun j => if i =? j then 1 else 0) ids) = 0) as ->;
      [|reflexivity].
    clear IH Hnd Hin. induction ids as [|j ids IH]; [reflexivity|]. simpl.
    destruct (Z.eqb_spec i j) as [->|_]; [exfalso; apply Hfresh; now left|].
    rewrite IH; [reflexivity|]. intros H. apply Hfresh. now right.
  - destruct Hin as [->|Hin]; [contradiction|]. now rewrite IH.
Qed.

(** Each chosen offer is counted for exactly one product. *)
Lemma chosen_partition (ids : list Z) (chosen : list Offer) :
  List.NoDup ids ->
  (forall offer, In offer chosen -> In (offer_id offer) ids) ->
  fold_right Z.add 0 (map (fun i => Z.of_nat (length (chosenOfId i chosen))) ids)
    = Z.of_nat (length chosen).
Proof.
  intros Hnd. induction chosen as [|offer chosen IH]; intros Hids.
  - simpl. induction ids as [|i ids IHids]; [reflexivity|]. simpl.
    apply List.NoDup_cons_iff in Hnd as [_ Hnd]. now rewrite IHids.
  - assert (forall l,
              fold_right Z.add 0
                (map (fun i => Z.of_nat (length (chosenOfId i (offer :: chosen)))) l)
              = fold_right Z.add 0
                  (map (fun i => if offer_id offer =? i then 1 else 0) l)
                + fold_right Z.add 0
                    (map (fun i => Z.of_nat (length (chosenOfId i chosen))) l)) as Hsplit.
    { induction l as [|i l IHl]; [reflexivity|].
      cbn [map fold_right]. rewrite IHl.
      assert (Z.of_nat (length (chosenOfId i (offer :: chosen)))
              = (if offer_id offer =? i then 1 else 0)
                + Z.of_nat (length (chosenOfId i chosen))) as ->; [|lia].
      unfold chosenOfId. cbn [List.filter].
      destruct (offer_id offer =? i); cbn [length]; lia. }
    rewrite Hsplit, IH, count_one; [simpl length; lia|assumption| |].
    + apply Hids. now left.
    + intros o Ho. apply Hids. now right.
Qed.

(** *** Sums of rationals *)

Lemma Qsum_scaled {A : Type} (count : A -> Z) (total : Q) (l : list A) :
  (Qsum (map (fun x => inject_Z (count x) / total) l)
   == inject_Z (fold_right Z.add 0%Z (map count l)) / total)%Q.
Proof.
  induction l as [|x l IH]; simpl.
  - unfold Qdiv. ring.
  - rewrite IH, inject_Z_plus. unfold Qdiv. ring.
Qed.

Lemma Qsum_constant {A : Type} (c : Q) (l : list A) :
  (Qsum (map (fun _ => c) l) == inject_Z (Z.of_nat (length l)) * c)%Q.
Proof.
  induction l as [|x l IH]; cbn [map Qsum fold_right length].
  - ring.
  - fold (Qsum (map (fun _ : A => c) l)). rewrite IH, Nat2Z.inj_succ.
    unfold Z.succ. rewrite inject_Z_plus. ring.
Qed.

Lemma Qsum_pointwise {A B : Type} (f : A -> Q) (g : B -> Q)
    (l : list A) (k : list B) :
  Forall2 (fun x y => g y == f x)%Q l k ->
  (Qsum (map g k) == Qsum (map f l))%Q.
Proof.
  induction 1 as [|x y l k Hhead _ IH]; [reflexivity|].
  unfold Qsum in *. simpl. now rewrite Hhead, IH.
Qed.

Lemma inject_Z_nonzero (z : Z) : z <> 0 -> ~ (inject_Z z == 0)%Q.
Proof. intros Hz H. apply Hz. unfold Qeq in H. simpl in H. lia. Qed.

Lemma sum_fold_left_right (xs : list Z) :
  fold_left Z.add xs 0 = fold_right Z.add 0 xs.
Proof. apply fold_symmetric; intros; lia. Qed.

(** *** The loops *)

(** The conditions under which the run is read: ids are distinct and
    non-zero, as the serial primary key of [products] provides. *)
Variable productsData : list Product.
Hypothesis ids_distinct : List.NoDup (map id productsData).
Hypothesis ids_nonzero : Forall (fun product => id product <> 0) productsData.

Lemma id_nonzero (i : Z) : In i (map id productsData) -> i <> 0.
Proof.
  intros Hin. apply in_map_iff in Hin as (product & <- & Hin).
  rewrite Forall_forall in ids_nonzero. apply ids_nonzero.
  now apply list_elem_of_In.
Qed.

(** One pass of the loop body extends the tally by the chosen offer. *)
Lemma surveyCombination_tallies (ai : nat -> Completion) (persona : Persona)
    (row chosen : list Offer) (k : nat) (sr : gmap Z SimulationResult) :
  map (fun offer => pp_product (offer_product offer)) row = productsData ->
  tallies productsData chosen sr ->
  exists sr',
    surveyCombination ai persona row {| calls := k; simulationResults := sr |}
      = Some {| calls := S k; simulationResults := sr' |} /\
    tallies productsData (chosen ++ chosenFrom ai k [row]) sr'.
Proof.
  intros Hrow Htally. apply row_ids in Hrow.
  unfold surveyCombination. cbn [calls simulationResults chosenFrom].
  rewrite getPersonaPreference_chosenOffer.
  destruct (chosenOffer (ai k) row) as [offer|] eqn:Hchosen; cbn [option_map].
  2:{ exists sr. split; [reflexivity|]. now rewrite app_nil_r. }
  pose proof (chosenOffer_In _ _ _ Hchosen) as Hin.
  assert (In (offer_id offer) (map id productsData)) as Hid
    by (rewrite <- Hrow; now apply in_map).
  assert (JS.truthy (offer_id offer) = true) as ->
    by (apply negb_true_iff, Z.eqb_neq, id_nonzero, Hid).
  rewrite find_by_id_unique; [|now rewrite Hrow|assumption].
  destruct (Htally (offer_id offer)) as [Hsome _]. rewrite (Hsome Hid).
  eexists. split; [reflexivity|].
  intros i. destruct (Htally i) as [Hi_in Hi_out]. split; intros Hi.
  - destruct (Z.eq_dec (offer_id offer) i) as [<-|Hne].
    + rewrite lookup_insert_eq, chosenOfId_snoc_same. cbn [selections prices].
      rewrite length_app, map_app. simpl. do 2 f_equal. lia.
    + rewrite lookup_insert_ne by assumption.
      rewrite chosenOfId_snoc_other by assumption. now apply Hi_in.
  - rewrite lookup_insert_ne by (intros <-; contradiction). now apply Hi_out.
Qed.

Lemma combinations_loop_tallies (ai : nat -> Completion) (persona : Persona)
    (rows : list (list Offer)) :
  Forall (fun row => map (fun offer => pp_product (offer_product offer)) row
                     = productsData) rows ->
  forall (k : nat) (chosen : list Offer) (sr : gmap Z SimulationResult),
    tallies productsData chosen sr ->
    exists sr',
      forEach (surveyCombination ai persona) rows
        {| calls := k; simulationResults := sr |}
        = Some {| calls := k + length rows; simulationResults := sr' |} /\
      tallies productsData (chosen ++ chosenFrom ai k rows) sr'.
Proof.
  induction 1 as [|row rows Hrow _ IH]; intros k chosen sr Htally.
  - exists sr. simpl. rewrite Nat.add_0_r, app_nil_r. now split.
  - destruct (surveyCombination_tallies ai persona row chosen k sr Hrow Htally)
      as (sr1 & Hstep & Htally1).
    destruct (IH (S k) _ sr1 Htally1) as (sr2 & Hloop & Htally2).
    exists sr2. split.
    + cbn [forEach]. rewrite Hstep, Hloop. cbn [length].
      now rewrite Nat.add_succ_r.
    + rewrite <- app_assoc in Htally2.
      change (row :: rows) with ([row] ++ rows).
      rewrite chosenFrom_app. cbn [length]. now rewrite Nat.add_1_r.
Qed.

Lemma personas_loop_tallies (ai : nat -> Completion) (personas : list Persona)
    (conjointMatrix : list (list Offer)) :
  Forall (fun row => map (fun offer => pp_product (offer_product offer)) row
                     = productsData) conjointMatrix ->
  forall (k : nat) (chosen : list Offer) (sr : gmap Z SimulationResult),
    tallies productsData chosen sr ->
    exists k' sr',
      forEach (fun persona => forEach (surveyCombination ai persona) conjointMatrix)
        personas {| calls := k; simulationResults := sr |}
        = Some {| calls := k'; simulationResults := sr' |} /\
      tallies productsData
        (chosen ++ chosenFrom ai k (flat_map (fun _ => conjointMatrix) personas)) sr'.
Proof.
  intros Hrows.
  induction personas as [|persona personas IH]; intros k chosen sr Htally.
  - exists k, sr. simpl. rewrite app_nil_r. now split.
  - destruct (combinations_loop_tallies ai persona conjointMatrix Hrows k chosen sr Htally)
      as (sr1 & Hinner & Htally1).
    destruct (IH (k + length conjointMatrix)%nat _ sr1 Htally1)
      as (k' & sr2 & Houter & Htally2).
    exists k', sr2. split.
    + cbn [forEach]. now rewrite Hinner.
    + cbn [flat_map]. rewrite chosenFrom_app, app_assoc. exact Htally2.
Qed.

(** The loops never throw, and leave the tally of all chosen offers. *)
Lemma simulate_tallies (ai : nat -> Completion) (personas : list Persona)
    (priceLevels : Z) :
  exists st,
    simulate ai productsData personas (generateConjointMatrix productsData priceLevels)
      = Some st /\
    tallies productsData
      (chosenOffers ai personas (generateConjointMatrix productsData priceLevels))
      (simulationResults st).
Proof.
  unfold simulate, chosenOffers.
  destruct (personas_loop_tallies ai personas
              (generateConjointMatrix productsData priceLevels)) with
    (k := 0%nat) (chosen := @nil Offer) (sr := initResults productsData)
    as (k' & sr' & Hrun & Htally).
  - apply Forall_forall. intros row Hin.
    apply generateConjointMatrix_row_products with (priceLevels := priceLevels).
    now apply list_elem_of_In.
  - apply initResults_tallies.
  - eexists. split; [exact Hrun|exact Htally].
Qed.

(** *** The reported results *)

(** The run returns one result per product, computed from the offers the
    personas chose. *)
Lemma runSurvey_report (ai : nat -> Completion) (personas : list Persona)
    (configured : option Z) :
  let chosen :=
    chosenOffers ai personas
      (generateConjointMatrix productsData (JS.or_default configured 3)) in
  exists results,
    runSurvey ai productsData personas configured = Some results /\
    Forall2
      (fun product result =>
         let paid := map currentPrice (chosenOf product chosen) in
         optimalPrice result
           = ((if (0 <? length paid)%nat
               then inject_Z (fold_left Z.add paid 0%Z) / inject_Z (Z.of_nat (length paid))
               else inject_Z (listPrice product)) / 100)%Q /\
         preferenceShare result
           = (if 0 <? Z.of_nat (length chosen)
              then inject_Z (Z.of_nat (length (chosenOf product chosen)))
                   / inject_Z (Z.of_nat (length chosen))
              else 1 / inject_Z (Z.of_nat (length productsData)))%Q)
      productsData results.
Proof.
  intros chosen. unfold runSurvey.
  destruct (simulate_tallies ai personas (JS.or_default configured 3))
    as (st & -> & Htally).
  fold chosen in Htally.
  assert (totalSelections (simulationResults st) = Z.of_nat (length chosen)) as ->.
  { rewrite (totalSelections_sum (map id productsData)
               (fun i => {| selections := Z.of_nat (length (chosenOfId i chosen));
                            prices := map currentPrice (chosenOfId i chosen) |}));
      [|assumption|exact Htally].
    cbn [selections]. apply chosen_partition; [assumption|].
    intros offer Hin. eapply chosenOffers_ids. exact Hin. }
  match goal with
  | |- context [mapM ?f productsData] =>
      assert (forall product, In product productsData ->
                exists result, f product = Some result /\
                  (let paid := map currentPrice (chosenOf product chosen) in
                   optimalPrice result
                     = ((if (0 <? length paid)%nat
                         then inject_Z (fold_left Z.add paid 0%Z)
                              / inject_Z (Z.of_nat (length paid))
                         else inject_Z (listPrice product)) / 100)%Q /\
                   preferenceShare result
                     = (if 0 <? Z.of_nat (length chosen)
                        then inject_Z (Z.of_nat (length (chosenOf product chosen)))
                             / inject_Z (Z.of_nat (length chosen))
                        else 1 / inject_Z (Z.of_nat (length productsData)))%Q))
        as Heach
  end.
  { intros product Hin. unfold productResult.
    destruct (Htally (id product)) as [Hsome _].
    rewrite Hsome by now apply in_map.
    eexists. split; [reflexivity|]. cbn. split; reflexivity. }
  clear Htally.
  generalize dependent (length productsData). intros n Heach.
  revert Heach. generalize (length chosen). intros total.
  generalize chosen. clear chosen. intros chosen.
  induction productsData as [|product products IH]; intros Heach.
  - exists []. split; [reflexivity|constructor].
  - destruct (Heach product (or_introl eq_refl)) as (result & Hres & Hprop).
    destruct IH as (results & Hresults & Hall).
    + now apply List.NoDup_cons_iff in ids_distinct.
    + now apply Forall_cons in ids_nonzero.
    + intros p Hp. apply Heach. now right.
    + exists (result :: results). split.
      * cbn. rewrite Hres. cbn. rewrite Hresults. reflexivity.
      * constructor; assumption.
Qed.

End RunSurveyFacts.

Section RunSurveyResults.

Import Server RunSurvey.

(** C3, amended.  For a run over a non-empty list of products with
    pairwise distinct, non-zero ids, the run returns results whose
    preference shares, as exact quotients, sum to 1: each share is the
    number of times the product was chosen divided by the number of all
    choices when there was a choice, and 1 divided by the number of
    products otherwise. *)
Theorem preference_shares_sum_to_one (ai : nat -> Completion)
    (productsData : list Product) (personas : list Persona) (configured : option Z) :
  productsData <> [] ->
  List.NoDup (map id productsData) ->
  Forall (fun product => id product <> 0) productsData ->
  let chosen :=
    chosenOffers ai personas
      (generateConjointMatrix productsData (JS.or_default configured 3)) in
  exists results,
    runSurvey ai productsData personas configured = Some results /\
    Forall2
      (fun product result =>
         preferenceShare result
           == if (0 <? length chosen)%nat
              then inject_Z (Z.of_nat (length (chosenOf product chosen)))
                   / inject_Z (Z.of_nat (length chosen))
              else 1 / inject_Z (Z.of_nat (length productsData)))%Q
      productsData results /\
    (Qsum (map preferenceShare results) == 1)%Q.
Proof.
  intros Hne ids_distinct ids_nonzero chosen.
  destruct (runSurvey_report productsData ids_distinct ids_nonzero ai personas configured)
    as (results & Hrun & Hall).
  fold chosen in Hall.
  exists results. split; [exact Hrun|].
  assert ((0 <? Z.of_nat (length chosen)) = (0 <? length chosen)%nat) as Hpos.
  { destruct (length chosen); reflexivity. }
  rewrite Hpos in Hall.
  set (share := fun product : Product =>
                  (if (0 <? length chosen)%nat
                   then inject_Z (Z.of_nat (length (chosenOf product chosen)))
                        / inject_Z (Z.of_nat (length chosen))
                   else 1 / inject_Z (Z.of_nat (length productsData)))%Q).
  assert (Forall2 (fun product result => preferenceShare result == share product)%Q
            productsData results) as Hshares.
  { eapply Forall2_impl; [exact Hall|]. intros product result [_ ->]. reflexivity. }
  split; [exact Hshares|].
  transitivity (Qsum (map share productsData)).
  { now apply Qsum_pointwise. }
  subst share.
  destruct (length chosen) as [|m] eqn:Hlen; cbn [Nat.ltb Nat.leb].
  - rewrite Qsum_constant. field. apply inject_Z_nonzero.
    destruct productsData; [contradiction|simpl; lia].
  - rewrite (Qsum_scaled (fun product => Z.of_nat (length (chosenOf product chosen)))).
    assert (fold_right Z.add 0
              (map (fun product => Z.of_nat (length (chosenOf product chosen)))
                 productsData)
            = Z.of_nat (S m)) as ->.
    { rewrite <- Hlen. unfold chosenOf.
      rewrite <- (map_map id (fun i => Z.of_nat (length (chosenOfId i chosen)))).
      apply chosen_partition; [assumption|].
      intros offer Hin. eapply chosenOffers_ids. exact Hin. }
    field. apply inject_Z_nonzero. lia.
Qed.

(** C6, amended.  For a run over products with pairwise distinct,
    non-zero ids, the reported optimal price of each product is the
    arithmetic mean of the prices (in cents) of the offers of that product
    the personas chose, divided by 100, and the list price divided by 100
    when the product was never chosen. *)
Theorem optimal_price_is_mean_of_chosen_prices (ai : nat -> Completion)
    (productsData : list Product) (personas : list Persona) (configured : option Z) :
  List.NoDup (map id productsData) ->
  Forall (fun product => id product <> 0) productsData ->
  let chosen :=
    chosenOffers ai personas
      (generateConjointMatrix productsData (JS.or_default configured 3)) in
  exists results,
    runSurvey ai productsData personas configured = Some results /\
    Forall2
      (fun product result =>
         optimalPrice result
           == match chosenOf product chosen with
              | [] => inject_Z (listPrice product) / 100
              | _ :: _ => mean (map currentPrice (chosenOf product chosen)) / 100
              end)%Q
      productsData results.
Proof.
  intros ids_distinct ids_nonzero chosen.
  destruct (runSurvey_report productsData ids_distinct ids_nonzero ai personas configured)
    as (results & Hrun & Hall).
  fold chosen in Hall.
  exists results. split; [exact Hrun|].
  eapply Forall2_impl; [exact Hall|].
  intros product result [-> _]. cbv zeta.
  rewrite sum_fold_left_right. unfold mean.
  destruct (chosenOf product chosen); reflexivity.
Qed.

End RunSurveyResults.

Section RunSurveyExamples.

Import Server RunSurvey.

Lemma cola_lemonade_ids_distinct : List.NoDup (map id [cola; lemonade]).
Proof.
  simpl. apply List.NoDup_cons; [intros [H|[]]; discriminate|].
  apply List.NoDup_cons; [intros []|apply List.NoDup_nil].
Qed.

Lemma cola_lemonade_ids_nonzero :
  Forall (fun product => id product <> 0) [cola; lemonade].
Proof. repeat constructor; discriminate. Qed.

Lemma preference_shares_witness :
  exists results,
    runSurvey second_prompt_picks_two [cola; lemonade] [shopper] (Some 2)
      = Some results /\
    (Qsum (map preferenceShare results) == 1)%Q.
Proof.
  destruct (preference_shares_sum_to_one second_prompt_picks_two
              [cola; lemonade] [shopper] (Some 2))
    as (results & Hrun & _ & Hsum);
    [discriminate | apply cola_lemonade_ids_distinct | apply cola_lemonade_ids_nonzero |].
  exists results. split; assumption.
Defined.

Lemma optimal_price_witness :
  exists results,
    runSurvey second_prompt_picks_two [cola; lemonade] [shopper] (Some 2)
      = Some results /\
    length results = 2%nat.
Proof.
  destruct (optimal_price_is_mean_of_chosen_prices second_prompt_picks_two
              [cola; lemonade] [shopper] (Some 2)
              cola_lemonade_ids_distinct cola_lemonade_ids_nonzero)
    as (results & Hrun & Hall).
  exists results. split; [assumption|].
  apply Forall2_length in Hall. now rewrite <- Hall.
Defined.

(** C3, as stated, fails when a shelf lists the same product twice: the
    persona makes a single choice, each of the two entries reports the
    share 1, and the shares sum to 2. *)
Lemma duplicate_product_shares_sum_to_two :
  exists results,
    runSurvey second_prompt_picks_two [cola; cola] [shopper] (Some 2) = Some results /\
    (Qsum (map preferenceShare results) == 2)%Q /\
    ~ (Qsum (map preferenceShare results) == 1)%Q.
Proof.
  eexists. split; [vm_compute; reflexivity|].
  split; [reflexivity|]. intros H. vm_compute in H. discriminate.
Qed.

(** C6, as stated, fails on the same shelf: the persona answers
    "Product 2" to the row (399, 599), so the product is chosen at 599
    cents, yet the reported optimal price is 3.99, the price of the first
    entry with that id. *)
Lemma duplicate_product_optimal_price_is_not_the_chosen_price :
  map currentPrice
    (chosenOf cola
       (chosenOffers second_prompt_picks_two [shopper]
          (generateConjointMatrix [cola; cola] 2))) = [599] /\
  exists results,
    runSurvey second_prompt_picks_two [cola; cola] [shopper] (Some 2) = Some results /\
    Forall (fun result =>
              (optimalPrice result == 399 # 100)%Q /\
              ~ (optimalPrice result == mean [599%Z] / 100)%Q) results.
Proof.
  split; [vm_compute; reflexivity|].
  eexists. split; [vm_compute; reflexivity|].
  repeat constructor; try reflexivity; intros H; vm_compute in H; discriminate.
Qed.

(** On doubles the quotients are rounded: ten products chosen once each
    carry the share 0.1, and adding the ten doubles gives
    0.99999999999999989, not 1. *)
Example ten_equal_shares_as_doubles :
  fold_left PrimFloat.add (repeat (preferenceShareDouble 1 10) 10) 0%float
    = 0x1.fffffffffffffp-1%float.
Proof. vm_compute. reflexivity. Qed.

End RunSurveyExamples.

(** ** The survey page *)

Section SurveyPage.

Import Survey.

Lemma length_insertByKey {A : Type} (x : Q * A) (sorted : list (Q * A)) :
  length (insertByKey x sorted) = S (length sorted).
Proof.
  induction sorted as [|y sorted IH]; simpl; [reflexivity|].
  destruct (Qle_bool (fst y) (fst x)); simpl; now rewrite ?IH.
Qed.

Lemma length_sortByKey {A : Type} (l : list (Q * A)) :
  length (sortByKey l) = length l.
Proof.
  unfold sortByKey.
  assert (forall sorted,
            length (fold_left (fun sorted x => insertByKey x sorted) l sorted)
            = (length l + length sorted)%nat) as H.
  { induction l as [|x l IH]; intros sorted; simpl; [reflexivity|].
    rewrite IH, length_insertByKey. lia. }
  rewrite H. simpl. lia.
Qed.

Lemma length_withSortKeys {A : Type} (random : nat -> Q) (l : list A) :
  forall k, length (withSortKeys random k l) = length l.
Proof. induction l as [|x l IH]; intros k; simpl; [reflexivity|]. now rewrite IH. Qed.

Lemma length_chooseOptions (random : nat -> Q) (selected : list ProductWithPrices) :
  forall k, length (chooseOptions random k selected) = length selected.
Proof.
  induction selected as [|x l IH]; intros k; simpl; [reflexivity|]. now rewrite IH.
Qed.

Lemma combinationsLoop_options (random : nat -> Q)
    (productsWithPrices : list ProductWithPrices) (numProductsToShow remaining : nat) :
  forall i k,
    Forall (fun combination =>
              length (options combination)
              = Nat.min numProductsToShow (length productsWithPrices))
      (combinationsLoop random productsWithPrices numProductsToShow remaining i k).
Proof.
  induction remaining as [|remaining IH]; intros i k; simpl; constructor.
  - cbn [options].
    rewrite length_chooseOptions, length_map, length_firstn,
      length_sortByKey, length_withSortKeys.
    reflexivity.
  - apply IH.
Qed.

(** Every combination shows [min(6, #products found)] options. *)
Lemma productCombinations_options (random : nat -> Q) (table : list Server.Product)
    (lineup : list ProductLineupItem) (configured : option Z) :
  Forall (fun combination =>
            length (options combination)
            = Nat.min 6 (length (findProducts table lineup)))
    (productCombinations random table lineup configured).
Proof.
  unfold productCombinations. cbv zeta.
  eapply Forall_impl; [apply combinationsLoop_options|].
  intros combination ->. rewrite length_map. lia.
Qed.

Lemma filter_map_id (keep : Z -> bool) (table : list Server.Product) :
  map Server.id (List.filter (fun p => keep (Server.id p)) table)
    = List.filter keep (map Server.id table).
Proof.
  induction table as [|p table IH]; simpl; [reflexivity|].
  destruct (keep (Server.id p)); simpl; now rewrite IH.
Qed.

(** A lineup of distinct products of the table is found in full. *)
Lemma findProducts_length (table : list Server.Product)
    (lineup : list ProductLineupItem) :
  List.NoDup (map productId lineup) ->
  List.NoDup (map Server.id table) ->
  (forall item, In item lineup -> In (productId item) (map Server.id table)) ->
  length (findProducts table lineup) = length lineup.
Proof.
  intros Hlineup Htable Hfound. unfold findProducts. cbv zeta.
  rewrite <- (length_map Server.id), <- (length_map productId lineup).
  pose proof (filter_map_id
                (fun i => bool_decide
                            (i ∈ (list_to_set (map productId lineup) : gset Z)))
                table) as Hswap.
  cbv beta in Hswap. rewrite Hswap. clear Hswap.
  apply Permutation_length, NoDup_Permutation.
  - apply NoDup_ListNoDup. now apply List.NoDup_filter.
  - now apply NoDup_ListNoDup.
  - intros i. rewrite !list_elem_of_In, filter_In, bool_decide_eq_true,
      elem_of_list_to_set, list_elem_of_In.
    split; [tauto|]. intros Hin. split; [|assumption].
    apply in_map_iff in Hin as (item & <- & Hitem). now apply Hfound.
Qed.

(** C5, as stated, fails for a shelf of seven products: the rows of the
    conjoint matrix hold seven offers each.  It also fails for a lineup
    that names the same product twice: one product is found, and the
    combinations of the survey page show one option, not two. *)
Lemma conjoint_matrix_rows_exceed_six :
  ~ Forall (fun row => (length row <= 6)%nat)
      (Server.generateConjointMatrix seven_products 2) /\
  ~ Forall (fun combination =>
              length (options combination) = Nat.min 6 (length doubled_lineup))
      (productCombinations harmonic [cola; lemonade] doubled_lineup (Some 2)).
Proof.
  split; [|intros Hall; apply Forall_cons in Hall as [Hhead _];
           vm_compute in Hhead; discriminate].
  intros Hall.
  pose proof (generateConjointMatrix_length seven_products 2) as Hrows.
  destruct (Server.generateConjointMatrix seven_products 2) as [|row rows] eqn:Hmatrix;
    [discriminate|].
  apply Forall_cons in Hall as [Hrow _].
  assert (length row = length seven_products) as Hlen.
  { apply (generateConjointMatrix_row_length seven_products 2).
    rewrite Hmatrix. now left. }
  rewrite Hlen in Hrow. simpl in Hrow. lia.
Qed.

(** C5, amended.  For a lineup of distinct products that exist in the
    products table, every product combination of the survey page shows
    [min(6, number of lineup products)] options; every row of the conjoint
    matrix of a simulated run holds exactly as many offers as the shelf has
    products, whatever their number. *)
Theorem combination_sizes (random : nat -> Q) (table : list Server.Product)
    (lineup : list ProductLineupItem) (configured : option Z)
    (products : list Server.Product) (priceLevels : Z) :
  List.NoDup (map productId lineup) ->
  List.NoDup (map Server.id table) ->
  (forall item, In item lineup -> In (productId item) (map Server.id table)) ->
  Forall (fun combination =>
            length (options combination) = Nat.min 6 (length lineup))
    (productCombinations random table lineup configured) /\
  Forall (fun row => length row = length products)
    (Server.generateConjointMatrix products priceLevels).
Proof.
  intros Hlineup Htable Hfound. split.
  - rewrite <- (findProducts_length table lineup) by assumption.
    apply productCombinations_options.
  - apply Forall_forall. intros row Hin.
    apply (generateConjointMatrix_row_length products priceLevels).
    now apply list_elem_of_In.
Qed.

Lemma combination_sizes_witness :
  Forall (fun combination => length (options combination) = 2%nat)
    (productCombinations harmonic [cola; lemonade] two_item_lineup (Some 2)) /\
  Forall (fun row => length row = 7%nat)
    (Server.generateConjointMatrix seven_products 2).
Proof.
  apply (combination_sizes harmonic [cola; lemonade]
           two_item_lineup (Some 2) seven_products 2).
  - simpl. apply List.NoDup_cons; [intros [H|[]]; discriminate|].
    apply List.NoDup_cons; [intros []|apply List.NoDup_nil].
  - apply cola_lemonade_ids_distinct.
  - intros item Hin. vm_compute in Hin. vm_compute.
    destruct Hin as [<-|[<-|[]]]; auto.
Defined.

End SurveyPage.

(** ** The analysis page *)

Section AnalysisPage.

Import Analysis.

(** The two models of [Math.round] agree on the fallback prices of a
    product listed at 499 cents: 399.2 rounds to 399 and 598.8 to 599, on
    doubles as on exact rationals. *)
Example fallback_prices_on_doubles :
  Math_round (499 * 0.8) = 399%float /\
  Math_round (499 * 1.2) = 599%float /\
  Server.generatePriceMatrix cola 2 = [399; 599]%Z.
Proof. repeat split; vm_compute; reflexivity. Qed.

(** On ordinary data the elasticity is the ratio of the two changes:
    three of ten responses at a list price of 499 give an optimal price
    of 479 and an elasticity of about 4.99. *)
Example cola_elasticity :
  calculateOptimalPrice (Some ten_responses) cola_analysis = 479%float /\
  calculatePriceElasticity (Some ten_responses) cola_analysis
    = 0x1.3f5c28f5c28f5p+2%float.
Proof. split; vm_compute; reflexivity. Qed.

(** Whatever the data, the elasticity is never negative: it is NaN or at
    least 0. *)
Lemma calculatePriceElasticity_nonnegative_or_nan
    (analysis : option AnalysisData) (product : ProductAnalysis) :
  PrimFloat.is_nan (calculatePriceElasticity analysis product) = true \/
  PrimFloat.leb 0 (calculatePriceElasticity analysis product) = true.
Proof.
  unfold calculatePriceElasticity.
  destruct analysis as [data|]; [|right; reflexivity].
  cbv zeta.
  destruct (PrimFloat.eqb _ 0); [right; reflexivity|].
  generalize ((sumResponses product / totalResponses data - 0.5) / 0.5
              / ((calculateOptimalPrice (Some data) product - listPrice product)
                 / listPrice product))%float.
  intros x. unfold PrimFloat.is_nan.
  rewrite FloatAxioms.eqb_spec, FloatAxioms.leb_spec, FloatAxioms.abs_spec.
  destruct (Prim2SF x) as [s|s| |s m e]; cbn; auto.
Qed.

(** C7.  For a product whose list price is 0 the computed optimal price
    equals the list price, yet [calculatePriceElasticity] does not return
    0: the price change is [0 / 0], NaN is not [=== 0], and the result is
    NaN. *)
Theorem free_product_elasticity_is_nan :
  calculateOptimalPrice (Some one_response) free_sample = listPrice free_sample /\
  PrimFloat.is_nan (calculatePriceElasticity (Some one_response) free_sample) = true /\
  PrimFloat.eqb (calculatePriceElasticity (Some one_response) free_sample) 0 = false.
Proof. repeat split; vm_compute; reflexivity. Qed.

End AnalysisPage.

(* ===================================================================== *)
(** * Further properties *)
(* ===================================================================== *)

(** ** The conjoint matrix is the full factorial design *)

Section FullFactorial.

Import Server.

Lemma expand_rows_iff (rest : list PricedProduct) :
  forall current row,
    In row (expand rest current) <->
    exists tail,
      row = current ++ tail /\
      Forall2 (fun offer product =>
                 offer_product offer = product /\
                 In (currentPrice offer) (prices product)) tail rest.
Proof.
  induction rest as [|product rest IH]; intros current row; simpl.
  - split.
    + intros [<-|[]]. exists []. rewrite app_nil_r. split; [reflexivity|constructor].
    + intros (tail & -> & Htail). apply Forall2_nil_inv_r in Htail as ->.
      left. now rewrite app_nil_r.
  - rewrite in_flat_map. split.
    + intros (price & Hprice & Hrow).
      apply IH in Hrow as (tail & -> & Htail).
      exists ({| offer_product := product; currentPrice := price |} :: tail).
      split; [now rewrite <- app_assoc|].
      constructor; [split; [reflexivity|exact Hprice]|exact Htail].
    + intros (tail & -> & Htail).
      apply Forall2_cons_inv_r in Htail as (offer & tail' & [Hproduct Hprice] & Htail & ->).
      exists (currentPrice offer). split; [exact Hprice|].
      apply IH. exists tail'. split; [|exact Htail].
      rewrite <- app_assoc. simpl. destruct offer as [op cp]. simpl in *. now subst.
Qed.

Lemma conjointMatrix_rows (products : list Product) (priceLevels : Z)
    (row : list Offer) :
  In row (generateConjointMatrix products priceLevels) <->
  Forall2
    (fun offer product =>
       offer_product offer
         = {| pp_product := product;
              prices := generatePriceMatrix product priceLevels |} /\
       In (currentPrice offer) (generatePriceMatrix product priceLevels))
    row products.
Proof.
  rewrite generateConjointMatrix_expand, expand_rows_iff. simpl.
  split.
  - intros (tail & -> & Htail).
    apply Forall2_fmap_r in Htail.
    eapply Forall2_impl; [exact Htail|]. intros offer product [H1 H2]. now split.
  - intros Hrow. exists row. split; [reflexivity|].
    apply Forall2_fmap_r.
    eapply Forall2_impl; [exact Hrow|]. intros offer product [H1 H2]. now split.
Qed.

(** X1. The conjoint matrix is exactly the full factorial design: a list
    of offers is a row of the matrix if and only if it offers the given
    products in order, each at one of the prices of its price matrix. *)
Theorem generateConjointMatrix_is_full_factorial
    (products : list Product) (priceLevels : Z) (row : list Offer) :
  In row (generateConjointMatrix products priceLevels) <->
  Forall2
    (fun offer product =>
       offer_product offer
         = {| pp_product := product;
              prices := generatePriceMatrix product priceLevels |} /\
       In (currentPrice offer) (generatePriceMatrix product priceLevels))
    row products.
Proof. apply conjointMatrix_rows. Qed.

End FullFactorial.

(** ** The fallback price range *)

Section FallbackRange.

Import Server.

Ltac q_arith :=
  unfold Qdiv;
  change (/ 2)%Q with (1 # 2)%Q; change (/ 3)%Q with (1 # 3)%Q;
  lra.

Ltac price_bound :=
  match goal with
  | |- JS.Math_round _ <= JS.Math_round _ => apply Math_round_mono; q_arith
  | |- _ <= JS.Math_round _ => apply Math_round_ge; q_arith
  | |- JS.Math_round _ <= _ => apply Math_round_le; q_arith
  | |- _ <= _ => lia
  end.

(** Between anchors in order, the matrix is nondecreasing and stays within
    the anchors. *)
Lemma price_matrix_sorted_between (product : Product) (priceLevels : Z) :
  effectiveLowPrice product <= listPrice product <= effectiveHighPrice product ->
  StronglySorted Z.le (generatePriceMatrix product priceLevels) /\
  Forall (fun price => effectiveLowPrice product <= price <= effectiveHighPrice product)
    (generatePriceMatrix product priceLevels).
Proof.
  intros [Hlow Hhigh].
  rewrite generatePriceMatrix_effective.
  generalize dependent (effectiveHighPrice product).
  generalize dependent (effectiveLowPrice product).
  generalize (listPrice product).
  intros l lo Hlow hi Hhigh. cbv zeta.
  pose proof Hlow as Hlow'. pose proof Hhigh as Hhigh'.
  rewrite Zle_Qle in Hlow', Hhigh'.
  repeat (destruct (_ =? _));
    repeat match goal with
      | |- StronglySorted _ [] => apply SSorted_nil
      | |- StronglySorted _ (_ :: _) => apply SSorted_cons
      | |- Forall _ [] => constructor
      | |- Forall _ (_ :: _) => constructor
      | |- _ /\ _ => split
      | |- _ <= _ => price_bound
      end.
Qed.

Lemma fallback_brackets_list_price (listPrice : Z) :
  0 <= listPrice ->
  0 <= JS.Math_round (inject_Z listPrice * 0.8) <= listPrice /\
  listPrice <= JS.Math_round (inject_Z listPrice * 1.2).
Proof.
  intros Hpos. pose proof Hpos as Hq. rewrite Zle_Qle in Hq.
  change (inject_Z 0) with 0%Q in Hq.
  repeat split.
  - apply Math_round_ge. change (inject_Z 0) with 0%Q. lra.
  - apply Math_round_le. lra.
  - apply Math_round_ge. lra.
Qed.

(** X2. A product without configured low and high prices and with a
    non-negative list price gets a well-formed matrix for every level
    count: the fallback bounds bracket the list price, the prices are
    nondecreasing, none is negative, and all lie between 0.8 and 1.2 times
    the list price, rounded. *)
Theorem fallback_price_matrix_is_well_formed (product : Product) (priceLevels : Z) :
  lowPrice product = None ->
  highPrice product = None ->
  0 <= listPrice product ->
  StronglySorted Z.le (generatePriceMatrix product priceLevels) /\
  Forall (fun price =>
            0 <= price /\
            JS.Math_round (inject_Z (listPrice product) * 0.8) <= price
              <= JS.Math_round (inject_Z (listPrice product) * 1.2))
    (generatePriceMatrix product priceLevels).
Proof.
  intros Hlow Hhigh Hpos.
  destruct (fallback_brackets_list_price (listPrice product) Hpos) as [[H0 H1] H2].
  assert (effectiveLowPrice product = JS.Math_round (inject_Z (listPrice product) * 0.8))
    as Elow by (unfold effectiveLowPrice; now rewrite Hlow).
  assert (effectiveHighPrice product = JS.Math_round (inject_Z (listPrice product) * 1.2))
    as Ehigh by (unfold effectiveHighPrice; now rewrite Hhigh).
  destruct (price_matrix_sorted_between product priceLevels) as [Hsorted Hall].
  { rewrite Elow, Ehigh. lia. }
  split; [exact Hsorted|].
  rewrite Elow, Ehigh in Hall.
  eapply Forall_impl; [exact Hall|]. intros price Hprice. cbv beta in Hprice. lia.
Qed.

Lemma fallback_price_matrix_witness :
  StronglySorted Z.le (generatePriceMatrix cola 4) /\
  Forall (fun price => 0 <= price /\ 399 <= price <= 599) (generatePriceMatrix cola 4).
Proof.
  apply (fallback_price_matrix_is_well_formed cola 4); [reflexivity|reflexivity|].
  vm_compute. discriminate.
Defined.

End FallbackRange.

(** ** Reading a number out of free text *)

Section FreeText.

Import Server Shape.

Lemma take_digits_run (digits suffix : string) :
  all_chars JS.is_digit digits = true ->
  no_leading_digit suffix = true ->
  JS.take_digits (digits ++ suffix) = digits.
Proof.
  intros Hdigits Hsuffix.
  induction digits as [|c digits IH]; simpl in *.
  - destruct suffix as [|c suffix]; [reflexivity|]. simpl in *.
    apply negb_true_iff in Hsuffix. now rewrite Hsuffix.
  - apply andb_true_iff in Hdigits as [Hc Hdigits]. rewrite Hc. f_equal. now apply IH.
Qed.

Lemma match_digits_run (prefix digits suffix : string) :
  all_chars (fun c => negb (JS.is_digit c)) prefix = true ->
  digits <> EmptyString ->
  all_chars JS.is_digit digits = true ->
  no_leading_digit suffix = true ->
  JS.match_digits (prefix ++ digits ++ suffix) = Some digits.
Proof.
  intros Hprefix Hne Hdigits Hsuffix.
  induction prefix as [|c prefix IH]; simpl in *.
  - destruct digits as [|c digits]; [contradiction|]. simpl in *.
    apply andb_true_iff in Hdigits as [Hc Hdigits]. rewrite Hc.
    now rewrite take_digits_run.
  - apply andb_true_iff in Hprefix as [Hc Hprefix].
    apply negb_true_iff in Hc. rewrite Hc. now apply IH.
Qed.

Lemma append_nonempty (prefix digits suffix : string) :
  digits <> EmptyString ->
  String.eqb (prefix ++ digits ++ suffix)%string EmptyString = false.
Proof.
  intros Hne. apply String.eqb_neq.
  destruct prefix; [|discriminate]. destruct digits; [contradiction|discriminate].
Qed.

(** X3. Text around the number does not matter.  When the answer is some
    text without digits, then a run of digits, then text that does not
    start with a digit, both parsers read the run of digits as the
    position: they return the id of the product at that position when it
    is between 1 and the number of products, and [null] otherwise. *)
Theorem preference_parsers_read_the_first_number
    (prefix digits suffix : string) (persona : Persona)
    (offers : list Offer) (products : list SimulateUtils.SimProduct) :
  all_chars (fun c => negb (JS.is_digit c)) prefix = true ->
  digits <> EmptyString ->
  all_chars JS.is_digit digits = true ->
  no_leading_digit suffix = true ->
  getPersonaPreference (Content (Some (prefix ++ digits ++ suffix)%string)) persona offers
    = (if (1 <=? JS.parseInt digits) && (JS.parseInt digits <=? Z.of_nat (length offers))
       then option_map offer_id (nth_error offers (Z.to_nat (JS.parseInt digits - 1)))
       else None) /\
  SimulateUtils.getSimulatedConsumerPreference
    (Content (Some (prefix ++ digits ++ suffix)%string)) products
    = (if (1 <=? JS.parseInt digits) && (JS.parseInt digits <=? Z.of_nat (length products))
       then option_map SimulateUtils.id
              (nth_error products (Z.to_nat (JS.parseInt digits - 1)))
       else None).
Proof.
  intros Hprefix Hne Hdigits Hsuffix.
  pose proof (match_digits_run prefix digits suffix Hprefix Hne Hdigits Hsuffix) as Hmatch.
  pose proof (append_nonempty prefix digits suffix Hne) as Hnonempty.
  assert (forall n : nat,
            (JS.parseInt digits - 1 <? 0) || (JS.parseInt digits - 1 >=? Z.of_nat n)
            = negb ((1 <=? JS.parseInt digits) && (JS.parseInt digits <=? Z.of_nat n)))
    as Hrange.
  { intros n. rewrite Z.geb_leb.
    destruct (Z.ltb_spec (JS.parseInt digits - 1) 0);
      destruct (Z.leb_spec (Z.of_nat n) (JS.parseInt digits - 1));
      destruct (Z.leb_spec 1 (JS.parseInt digits));
      destruct (Z.leb_spec (JS.parseInt digits) (Z.of_nat n)); simpl; try reflexivity; lia. }
  split.
  - unfold getPersonaPreference. rewrite Hnonempty, Hmatch. cbv zeta.
    rewrite Hrange. destruct (_ && _); simpl; [|reflexivity].
    now destruct (nth_error offers _).
  - unfold SimulateUtils.getSimulatedConsumerPreference.
    rewrite Hnonempty, Hmatch. cbv zeta.
    rewrite Hrange. destruct (_ && _); simpl; [|reflexivity].
    now destruct (nth_error products _).
Qed.

Lemma preference_parsers_read_witness :
  getPersonaPreference
    (Content (Some ("I pick product " ++ "2" ++ ", the lemonade.")%string)) shopper
    (nth 0 (generateConjointMatrix [cola; lemonade] 2) []) = Some 2.
Proof.
  apply (preference_parsers_read_the_first_number
           "I pick product " "2" ", the lemonade." shopper
           (nth 0 (generateConjointMatrix [cola; lemonade] 2) []) []);
    [reflexivity | discriminate | reflexivity | reflexivity].
Defined.

End FreeText.

(** ** The simulated run on arbitrary shelves *)

Section RunSurveyAlways.

Import Server RunSurvey Shape.

Lemma totalSelections_nonnegative (sr : gmap Z SimulationResult) :
  (forall i result, sr !! i = Some result -> 0 <= selections result) ->
  0 <= totalSelections sr.
Proof.
  unfold totalSelections.
  apply (map_fold_weak_ind
           (fun total m =>
              (forall i result, m !! i = Some result -> 0 <= selections result) ->
              0 <= total)).
  - intros _. lia.
  - intros i x m total Hfresh IH Hall.
    assert (0 <= selections x) by (apply (Hall i); apply lookup_insert_eq).
    assert (0 <= total).
    { apply IH. intros j result Hj. apply (Hall j).
      rewrite lookup_insert_ne; [exact Hj|]. intros ->. congruence. }
    lia.
Qed.

Lemma totalSelections_all_zero (sr : gmap Z SimulationResult) :
  (forall i result, sr !! i = Some result -> selections result = 0) ->
  totalSelections sr = 0.
Proof.
  unfold totalSelections.
  apply (map_fold_weak_ind
           (fun total m =>
              (forall i result, m !! i = Some result -> selections result = 0) ->
              total = 0)).
  - intros _. reflexivity.
  - intros i x m total Hfresh IH Hall.
    assert (selections x = 0) by (apply (Hall i); apply lookup_insert_eq).
    assert (total = 0).
    { apply IH. intros j result Hj. apply (Hall j).
      rewrite lookup_insert_ne; [exact Hj|]. intros ->. congruence. }
    lia.
Qed.

(** No entry counts more selections than the total. *)
Lemma selections_at_most_total (sr : gmap Z SimulationResult) (i : Z)
    (result : SimulationResult) :
  (forall j r, sr !! j = Some r -> 0 <= selections r) ->
  sr !! i = Some result ->
  0 <= selections result <= totalSelections sr.
Proof.
  intros Hall Hi. split; [now apply (Hall i)|].
  unfold totalSelections.
  rewrite (map_fold_delete_L _ _ i result); [|intros; lia|exact Hi].
  fold (totalSelections (delete i sr)).
  assert (0 <= totalSelections (delete i sr)); [|lia].
  apply totalSelections_nonnegative. intros j r Hj.
  apply (Hall j). apply lookup_delete_Some in Hj. tauto.
Qed.

Lemma initResults_keepsEntries (productsData : list Product) :
  keepsEntries productsData (initResults productsData).
Proof.
  split.
  - intros product Hin.
    destruct (initResults_lookup productsData ∅ (id product)) as [Hsome _].
    unfold initResults. rewrite Hsome by now apply in_map. eauto.
  - intros i result Hi.
    destruct (initResults_lookup productsData ∅ i) as [Hsome Hnone].
    unfold initResults in Hi.
    destruct (In_dec Z.eq_dec i (map id productsData)) as [Hin|Hout].
    + rewrite (Hsome Hin) in Hi. injection Hi as <-. simpl. lia.
    + rewrite (Hnone Hout), lookup_empty in Hi. discriminate.
Qed.

Lemma initResults_zero (productsData : list Product) (i : Z) (result : SimulationResult) :
  initResults productsData !! i = Some result ->
  result = {| selections := 0; prices := [] |}.
Proof.
  intros Hi.
  destruct (initResults_lookup productsData ∅ i) as [Hsome Hnone].
  unfold initResults in Hi.
  destruct (In_dec Z.eq_dec i (map id productsData)) as [Hin|Hout].
  - rewrite (Hsome Hin) in Hi. now injection Hi as <-.
  - rewrite (Hnone Hout), lookup_empty in Hi. discriminate.
Qed.

(** One pass of the loop body never throws on a row of the matrix. *)
Lemma surveyCombination_keepsEntries (productsData : list Product)
    (ai : nat -> Completion) (persona : Persona) (row : list Offer)
    (k : nat) (sr : gmap Z SimulationResult) :
  map (fun offer => pp_product (offer_product offer)) row = productsData ->
  keepsEntries productsData sr ->
  exists sr',
    surveyCombination ai persona row {| calls := k; simulationResults := sr |}
      = Some {| calls := S k; simulationResults := sr' |} /\
    keepsEntries productsData sr'.
Proof.
  intros Hrow [Hkeys Hpos].
  unfold surveyCombination. cbn [calls simulationResults].
  rewrite getPersonaPreference_chosenOffer.
  destruct (chosenOffer (ai k) row) as [offer|] eqn:Hchosen; cbn [option_map];
    [|exists sr; split; [reflexivity|now split]].
  destruct (JS.truthy (offer_id offer)); [|exists sr; split; [reflexivity|now split]].
  destruct (List.find _ row) as [selected|]; [|exists sr; split; [reflexivity|now split]].
  assert (is_Some (sr !! offer_id offer)) as [result Hresult].
  { apply chosenOffer_In in Hchosen.
    assert (In (pp_product (offer_product offer)) productsData) as Hin
      by (rewrite <- Hrow; now apply (in_map (fun o => pp_product (offer_product o)))).
    now apply Hkeys in Hin. }
  rewrite Hresult. eexists. split; [reflexivity|]. split.
  - intros product Hin.
    destruct (Z.eq_dec (offer_id offer) (id product)) as [<-|Hne].
    + rewrite lookup_insert_eq. eauto.
    + rewrite lookup_insert_ne by assumption. now apply Hkeys.
  - intros i r Hi.
    destruct (Z.eq_dec (offer_id offer) i) as [<-|Hne].
    + rewrite lookup_insert_eq in Hi. injection Hi as <-. simpl.
      specialize (Hpos _ _ Hresult). lia.
    + rewrite lookup_insert_ne in Hi by assumption. now apply (Hpos i).
Qed.

Lemma combinations_loop_keepsEntries (productsData : list Product)
    (ai : nat -> Completion) (persona : Persona) (rows : list (list Offer)) :
  Forall (fun row => map (fun offer => pp_product (offer_product offer)) row
                     = productsData) rows ->
  forall (k : nat) (sr : gmap Z SimulationResult),
    keepsEntries productsData sr ->
    exists sr',
      forEach (surveyCombination ai persona) rows
        {| calls := k; simulationResults := sr |}
        = Some {| calls := k + length rows; simulationResults := sr' |} /\
      keepsEntries productsData sr'.
Proof.
  induction 1 as [|row rows Hrow _ IH]; intros k sr Hkeeps.
  - exists sr. simpl. rewrite Nat.add_0_r. now split.
  - destruct (surveyCombination_keepsEntries productsData ai persona row k sr Hrow Hkeeps)
      as (sr1 & Hstep & Hkeeps1).
    destruct (IH (S k) sr1 Hkeeps1) as (sr2 & Hloop & Hkeeps2).
    exists sr2. split; [|exact Hkeeps2].
    cbn [forEach]. rewrite Hstep, Hloop. cbn [length]. now rewrite Nat.add_succ_r.
Qed.

Lemma personas_loop_keepsEntries (productsData : list Product)
    (ai : nat -> Completion) (personas : list Persona)
    (conjointMatrix : list (list Offer)) :
  Forall (fun row => map (fun offer => pp_product (offer_product offer)) row
                     = productsData) conjointMatrix ->
  forall (k : nat) (sr : gmap Z SimulationResult),
    keepsEntries productsData sr ->
    exists sr',
      forEach (fun persona => forEach (surveyCombination ai persona) conjointMatrix)
        personas {| calls := k; simulationResults := sr |}
        = Some {| calls := k + length personas * length conjointMatrix;
                  simulationResults := sr' |} /\
      keepsEntries productsData sr'.
Proof.
  intros Hrows.
  induction personas as [|persona personas IH]; intros k sr Hkeeps.
  - exists sr. simpl. rewrite Nat.add_0_r. now split.
  - destruct (combinations_loop_keepsEntries productsData ai persona conjointMatrix
                Hrows k sr Hkeeps) as (sr1 & Hinner & Hkeeps1).
    destruct (IH (k + length conjointMatrix)%nat sr1 Hkeeps1) as (sr2 & Houter & Hkeeps2).
    exists sr2. split; [|exact Hkeeps2].
    cbn [forEach]. rewrite Hinner, Houter. cbn [length]. do 2 f_equal. lia.
Qed.

Lemma conjointMatrix_rows_hold_products (productsData : list Product) (priceLevels : Z) :
  Forall (fun row => map (fun offer => pp_product (offer_product offer)) row
                     = productsData)
    (generateConjointMatrix productsData priceLevels).
Proof.
  apply Forall_forall. intros row Hin.
  apply generateConjointMatrix_row_products with (priceLevels := priceLevels).
  now apply list_elem_of_In.
Qed.

(** X4. The simulation queries the language model once per persona and
    row of the conjoint matrix and never throws: whatever the products,
    personas and answers, it ends after [#personas * #rows] prompts, where
    the number of rows is the number of prices per product (2, 3, 4 or 6)
    to the power of the number of products. *)
Theorem simulate_prompts_once_per_persona_and_row
    (ai : nat -> Completion) (productsData : list Product)
    (personas : list Persona) (priceLevels : Z) :
  exists st,
    simulate ai productsData personas (generateConjointMatrix productsData priceLevels)
      = Some st /\
    calls st
      = Nat.mul (length personas)
          (Nat.pow
             (if priceLevels =? 2 then 2
              else if priceLevels =? 3 then 3
              else if priceLevels =? 4 then 4
              else if priceLevels =? 5 then 6
              else 3)
             (length productsData)).
Proof.
  unfold simulate.
  destruct (personas_loop_keepsEntries productsData ai personas
              (generateConjointMatrix productsData priceLevels)
              (conjointMatrix_rows_hold_products productsData priceLevels)
              0%nat (initResults productsData) (initResults_keepsEntries productsData))
    as (sr & Hrun & _).
  eexists. split; [exact Hrun|].
  cbn [calls]. now rewrite generateConjointMatrix_length.
Qed.

(** X5. A run always completes and reports the products in order, each
    with a preference share between 0 and 1, also when product ids repeat
    or no persona gives a usable answer. *)
Theorem runSurvey_reports_every_product
    (ai : nat -> Completion) (productsData : list Product)
    (personas : list Persona) (configured : option Z) :
  exists results,
    runSurvey ai productsData personas configured = Some results /\
    Forall2
      (fun product result =>
         brand result = brandName product /\
         name result = productName product /\
         (0 <= preferenceShare result <= 1)%Q)
      productsData results.
Proof.
  unfold runSurvey. cbv zeta.
  unfold simulate.
  destruct (personas_loop_keepsEntries productsData ai personas
              (generateConjointMatrix productsData (JS.or_default configured 3))
              (conjointMatrix_rows_hold_products productsData _)
              0%nat (initResults productsData) (initResults_keepsEntries productsData))
    as (sr & -> & [Hkeys Hpos]).
  cbn [simulationResults].
  assert (forall product, In product productsData ->
            exists result,
              productResult sr (totalSelections sr) (length productsData) product
                = Some result /\
              brand result = brandName product /\
              name result = productName product /\
              (0 <= preferenceShare result <= 1)%Q) as Heach.
  { intros product Hin. unfold productResult.
    destruct (Hkeys product Hin) as [entry Hentry]. rewrite Hentry.
    eexists. split; [reflexivity|]. cbn [brand name preferenceShare].
    split; [reflexivity|]. split; [reflexivity|].
    destruct (selections_at_most_total sr _ _ Hpos Hentry) as [H0 H1].
    destruct (Z.ltb_spec 0 (totalSelections sr)) as [Htotal|Htotal].
    - assert (0 < inject_Z (totalSelections sr))%Q
        by (rewrite <- (Zlt_Qlt 0); exact Htotal).
      rewrite Zle_Qle in H0, H1. change (inject_Z 0) with 0%Q in H0. split.
      + apply Qle_shift_div_l; [assumption|]. lra.
      + apply Qle_shift_div_r; [assumption|]. lra.
    - assert (0 < length productsData)%nat
        by (destruct productsData; [destruct Hin|simpl; lia]).
      assert (1 <= inject_Z (Z.of_nat (length productsData)))%Q
        by (rewrite <- (Zle_Qle 1); lia).
      split.
      + apply Qle_shift_div_l; lra.
      + apply Qle_shift_div_r; lra. }
  clear Hkeys Hpos.
  generalize dependent (length productsData). generalize (totalSelections sr).
  intros total n Heach.
  induction productsData as [|product products IH].
  - exists []. split; [reflexivity|constructor].
  - destruct (Heach product (or_introl eq_refl)) as (result & Hres & Hprop).
    destruct IH as (results & Hresults & Hall).
    + intros p Hp. apply Heach. now right.
    + exists (result :: results). split.
      * cbn. rewrite Hres. cbn. rewrite Hresults. reflexivity.
      * constructor; assumption.
Qed.

End RunSurveyAlways.

(** ** What a run reports, in terms of the tested prices *)

Section RunSurveyRange.

Import Server RunSurvey Shape.

Lemma Forall2_with_membership {A B : Type} (P : A -> B -> Prop)
    (l : list A) (k : list B) :
  Forall2 P l k -> Forall2 (fun x y => In x l /\ P x y) l k.
Proof.
  induction 1 as [|x y l k Hxy _ IH]; constructor.
  - split; [now left|exact Hxy].
  - eapply Forall2_impl; [exact IH|]. intros x' y' [Hin HP]. split; [now right|exact HP].
Qed.

Lemma Forall2_offer_product {A B : Type} (P : A -> B -> Prop)
    (l : list A) (k : list B) (x : A) :
  Forall2 P l k -> In x l -> exists y, In y k /\ P x y.
Proof.
  induction 1 as [|x' y l k Hxy _ IH]; intros Hin; [destruct Hin|].
  destruct Hin as [->|Hin].
  - exists y. split; [now left|exact Hxy].
  - destruct (IH Hin) as (y' & Hy' & HP). exists y'. split; [now right|exact HP].
Qed.

Lemma id_injective_on (productsData : list Product) (p q : Product) :
  List.NoDup (map id productsData) ->
  In p productsData -> In q productsData -> id p = id q -> p = q.
Proof.
  induction productsData as [|r rest IH]; intros Hnd Hp Hq Heq; [destruct Hp|].
  simpl in Hnd. apply List.NoDup_cons_iff in Hnd as [Hfresh Hnd].
  destruct Hp as [->|Hp], Hq as [->|Hq].
  - reflexivity.
  - exfalso. apply Hfresh. rewrite Heq. now apply in_map.
  - exfalso. apply Hfresh. rewrite <- Heq. now apply in_map.
  - now apply IH.
Qed.

(** A product is only ever chosen at a price of its own price matrix. *)
Lemma chosen_prices_are_tested (ai : nat -> Completion) (productsData : list Product)
    (personas : list Persona) (priceLevels : Z) (product : Product) (offer : Offer) :
  List.NoDup (map id productsData) ->
  In product productsData ->
  In offer
    (chosenOf product
       (chosenOffers ai personas (generateConjointMatrix productsData priceLevels))) ->
  In (currentPrice offer) (generatePriceMatrix product priceLevels).
Proof.
  intros Hnd Hproduct Hin.
  unfold chosenOf, chosenOfId in Hin. apply filter_In in Hin as [Hin Hid].
  apply Z.eqb_eq in Hid.
  apply chosenFrom_shown in Hin as (row & Hrow & Hoffer).
  apply in_flat_map in Hrow as (_ & _ & Hrow).
  apply conjointMatrix_rows in Hrow.
  destruct (Forall2_offer_product _ _ _ offer Hrow Hoffer) as (q & Hq & Hop & Hprice).
  assert (q = product) as ->; [|exact Hprice].
  apply (id_injective_on productsData); try assumption.
  rewrite <- Hid. unfold offer_id. now rewrite Hop.
Qed.

Lemma sum_between (a b : Z) (xs : list Z) :
  Forall (fun x => a <= x <= b) xs ->
  a * Z.of_nat (length xs) <= fold_left Z.add xs 0 <= b * Z.of_nat (length xs).
Proof.
  rewrite sum_fold_left_right.
  induction 1 as [|x xs Hx _ IH]; simpl fold_right; cbn [length]; lia.
Qed.

(** X6. For products with pairwise distinct, non-zero ids whose low price
    is at most the list price and the list price at most the high price
    (after the fallbacks), every reported optimal price lies within the
    tested range of its product: between the low and the high price, in
    dollars. *)
Theorem optimal_price_within_tested_range
    (ai : nat -> Completion) (productsData : list Product)
    (personas : list Persona) (configured : option Z) :
  List.NoDup (map id productsData) ->
  Forall (fun product => id product <> 0) productsData ->
  Forall (fun product =>
            effectiveLowPrice product <= listPrice product
              <= effectiveHighPrice product) productsData ->
  exists results,
    runSurvey ai productsData personas configured = Some results /\
    Forall2
      (fun product result =>
         (inject_Z (effectiveLowPrice product) / 100 <= optimalPrice result
          /\ optimalPrice result <= inject_Z (effectiveHighPrice product) / 100)%Q)
      productsData results.
Proof.
  intros Hnd Hnonzero Hanchors.
  destruct (runSurvey_report productsData Hnd Hnonzero ai personas configured)
    as (results & Hrun & Hall).
  exists results. split; [exact Hrun|].
  apply Forall2_with_membership in Hall.
  eapply Forall2_impl; [exact Hall|].
  intros product result [Hin [Hprice _]]. cbv zeta in Hprice. rewrite Hprice.
  rewrite Forall_forall in Hanchors.
  assert (effectiveLowPrice product <= listPrice product <= effectiveHighPrice product)
    as Hanchor by (apply Hanchors; now apply list_elem_of_In).
  set (paid := map currentPrice
                 (chosenOf product
                    (chosenOffers ai personas
                       (generateConjointMatrix productsData (JS.or_default configured 3))))).
  assert (Forall (fun x => effectiveLowPrice product <= x <= effectiveHighPrice product)
            paid) as Hpaid.
  { apply Forall_forall. intros x Hx. apply list_elem_of_In in Hx.
    apply in_map_iff in Hx as (offer & <- & Hoffer).
    apply chosen_prices_are_tested in Hoffer; [|assumption..].
    destruct (price_matrix_sorted_between product (JS.or_default configured 3) Hanchor)
      as [_ Hwithin].
    rewrite Forall_forall in Hwithin. apply Hwithin. now apply list_elem_of_In. }
  pose proof (sum_between _ _ _ Hpaid) as [Hlo Hhi].
  generalize dependent (fold_left Z.add paid 0). intros total Hlo Hhi.
  generalize dependent (effectiveHighPrice product).
  generalize dependent (effectiveLowPrice product).
  intros lo Hlo hi Hanchor Hpaid Hhi.
  destruct (length paid) as [|n] eqn:Hlen; cbn [Nat.ltb Nat.leb].
  - destruct Hanchor as [H1 H2]. rewrite Zle_Qle in H1, H2.
    unfold Qdiv. change (/ 100)%Q with (1 # 100)%Q. split; lra.
  - assert (0 < inject_Z (Z.of_nat (S n)))%Q by (rewrite <- (Zlt_Qlt 0); lia).
    rewrite Zle_Qle, inject_Z_mult in Hlo, Hhi.
    assert (inject_Z lo <= inject_Z total / inject_Z (Z.of_nat (S n)))%Q
      by (apply Qle_shift_div_l; assumption).
    assert (inject_Z total / inject_Z (Z.of_nat (S n)) <= inject_Z hi)%Q
      by (apply Qle_shift_div_r; assumption).
    set (average := (inject_Z total / inject_Z (Z.of_nat (S n)))%Q) in *.
    unfold Qdiv. change (/ 100)%Q with (1 # 100)%Q. split; lra.
Qed.

Lemma optimal_price_within_range_witness :
  exists results,
    runSurvey second_prompt_picks_two [cola; lemonade] [shopper] (Some 2) = Some results /\
    length results = 2%nat.
Proof.
  destruct (optimal_price_within_tested_range second_prompt_picks_two
              [cola; lemonade] [shopper] (Some 2)
              cola_lemonade_ids_distinct cola_lemonade_ids_nonzero)
    as (results & Hrun & Hall).
  - repeat constructor; vm_compute; discriminate.
  - exists results. split; [assumption|].
    apply Forall2_length in Hall. now rewrite <- Hall.
Defined.

Lemma unused_answer_keeps_results (ai : nat -> Completion) (persona : Persona)
    (row : list Offer) (k : nat) (sr : gmap Z SimulationResult) :
  getPersonaPreference (ai k) persona row = None
  \/ getPersonaPreference (ai k) persona row = Some 0 ->
  surveyCombination ai persona row {| calls := k; simulationResults := sr |}
  = Some {| calls := S k; simulationResults := sr |}.
Proof.
  unfold surveyCombination. cbn [calls simulationResults].
  intros [-> | ->]; reflexivity.
Qed.

Lemma unused_answers_keep_results_of_persona (ai : nat -> Completion)
    (persona : Persona) (rows : list (list Offer)) :
  forall (k : nat) (sr : gmap Z SimulationResult),
    (forall j row,
       nth_error rows j = Some row ->
       getPersonaPreference (ai (k + j)%nat) persona row = None
       \/ getPersonaPreference (ai (k + j)%nat) persona row = Some 0) ->
    forEach (surveyCombination ai persona) rows
      {| calls := k; simulationResults := sr |}
    = Some {| calls := k + length rows; simulationResults := sr |}.
Proof.
  induction rows as [|row rows IH]; intros k sr Hunused; cbn [forEach length].
  - now rewrite Nat.add_0_r.
  - rewrite unused_answer_keeps_results.
    + rewrite IH; [now rewrite Nat.add_succ_r|].
      intros j row' Hj. rewrite Nat.add_succ_l, <- Nat.add_succ_r.
      now apply Hunused.
    + specialize (Hunused 0%nat row eq_refl). now rewrite Nat.add_0_r in Hunused.
Qed.

Lemma unused_answers_keep_results (ai : nat -> Completion)
    (rows : list (list Offer)) (personas : list Persona) :
  forall (k : nat) (sr : gmap Z SimulationResult),
    (forall j persona row,
       nth_error (prompts personas rows) j = Some (persona, row) ->
       getPersonaPreference (ai (k + j)%nat) persona row = None
       \/ getPersonaPreference (ai (k + j)%nat) persona row = Some 0) ->
    exists k',
      forEach (fun persona => forEach (surveyCombination ai persona) rows)
        personas {| calls := k; simulationResults := sr |}
      = Some {| calls := k'; simulationResults := sr |}.
Proof.
  induction personas as [|persona personas IH]; intros k sr Hunused; cbn [forEach].
  - now exists k.
  - rewrite unused_answers_keep_results_of_persona.
    + apply IH. intros j persona' row Hj.
      rewrite <- Nat.add_assoc. apply Hunused.
      unfold prompts. cbn [flat_map].
      rewrite nth_error_app2 by (rewrite length_map; lia).
      rewrite length_map.
      replace (length rows + j - length rows)%nat with j by lia. exact Hj.
    + intros j row Hj. apply Hunused.
      unfold prompts. cbn [flat_map].
      rewrite nth_error_app1
        by (rewrite length_map; apply nth_error_Some; congruence).
      rewrite nth_error_map, Hj. reflexivity.
Qed.

(** X7. When none of the prompts of a run gets a usable answer -- each
    one is answered without content, without a number, with a number that
    is not the position of an offer shown, or designates the id 0; in
    particular when the shelf has no personas -- every product is reported
    at its list price with the equal share [1 / #products]. *)
Theorem run_without_answers_reports_list_prices
    (ai : nat -> Completion) (productsData : list Product)
    (personas : list Persona) (configured : option Z) :
  (forall k persona row,
     nth_error
       (prompts personas
          (generateConjointMatrix productsData (JS.or_default configured 3))) k
     = Some (persona, row) ->
     getPersonaPreference (ai k) persona row = None
     \/ getPersonaPreference (ai k) persona row = Some 0) ->
  exists results,
    runSurvey ai productsData personas configured = Some results /\
    Forall2
      (fun product result =>
         optimalPrice result = (inject_Z (listPrice product) / 100)%Q /\
         preferenceShare result = (1 / inject_Z (Z.of_nat (length productsData)))%Q)
      productsData results.
Proof.
  intros Hunused.
  unfold runSurvey, simulate. cbv zeta.
  destruct (unused_answers_keep_results ai
              (generateConjointMatrix productsData (JS.or_default configured 3))
              personas 0%nat (initResults productsData) Hunused) as (k' & ->).
  clear Hunused. cbn [simulationResults].
  rewrite totalSelections_all_zero
    by (intros i result Hi; apply initResults_zero in Hi; now subst).
  assert (forall product, In product productsData ->
            initResults productsData !! id product
            = Some {| selections := 0; prices := [] |}) as Hlookup.
  { intros product Hin.
    destruct (initResults_lookup productsData ∅ (id product)) as [Hsome _].
    apply Hsome. now apply in_map. }
  generalize dependent (initResults productsData). intros sr Hlookup.
  assert (forall product, In product productsData ->
            exists result,
              productResult sr 0 (length productsData) product = Some result /\
              optimalPrice result = (inject_Z (listPrice product) / 100)%Q /\
              preferenceShare result
                = (1 / inject_Z (Z.of_nat (length productsData)))%Q) as Heach.
  { intros product Hin. unfold productResult. rewrite Hlookup by assumption.
    eexists. split; [reflexivity|]. split; reflexivity. }
  clear Hlookup. generalize dependent (length productsData). intros n Heach.
  induction productsData as [|product products IH].
  - exists []. split; [reflexivity|constructor].
  - destruct (Heach product (or_introl eq_refl)) as (result & Hres & Hprop).
    destruct IH as (results & Hresults & Hall).
    + intros p Hp. apply Heach. now right.
    + exists (result :: results). split.
      * cbn. rewrite Hres. cbn. rewrite Hresults. reflexivity.
      * constructor; assumption.
Qed.

Lemma run_without_answers_witness :
  exists results,
    runSurvey always_three [cola; lemonade] [shopper] (Some 2) = Some results /\
    Forall2
      (fun product result =>
         optimalPrice result = (inject_Z (listPrice product) / 100)%Q /\
         preferenceShare result = (1 / inject_Z 2)%Q)
      [cola; lemonade] results.
Proof.
  apply (run_without_answers_reports_list_prices always_three
           [cola; lemonade] [shopper] (Some 2)).
  intros k persona row Hprompt.
  do 4 (destruct k as [|k];
        [injection Hprompt as <- <-; left; reflexivity|]).
  cbv in Hprompt. destruct k; discriminate Hprompt.
Defined.

End RunSurveyRange.

(** ** The combinations of the survey page *)

Section SurveyCombinations.

Import Survey.

Lemma Qceiling_half (n : nat) :
  Z.to_nat (Z.max 5 (Qceiling (inject_Z (Z.of_nat n) / 2)))
    = Nat.max 5 (Nat.div2 (S n)).
Proof.
  assert (Qceiling (inject_Z (Z.of_nat n) / 2) = (Z.of_nat n + 1) / 2) as ->.
  { unfold Qceiling, Qfloor, Qdiv, Qmult, Qopp, Qinv, inject_Z. simpl.
    rewrite Z.mul_1_r. Z.to_euclidean_division_equations. lia. }
  assert (Z.of_nat (Nat.div2 (S n)) = (Z.of_nat n + 1) / 2) as Hhalf.
  { rewrite Nat.div2_div, Nat2Z.inj_div. f_equal. lia. }
  lia.
Qed.

Lemma combinationsLoop_ids (random : nat -> Q)
    (productsWithPrices : list ProductWithPrices) (numProductsToShow remaining : nat) :
  forall i k,
    map id (combinationsLoop random productsWithPrices numProductsToShow remaining i k)
      = map (fun j => i + Z.of_nat j) (seq 1 remaining).
Proof.
  induction remaining as [|remaining IH]; intros i k; [reflexivity|].
  cbn [combinationsLoop map seq id]. f_equal; try lia.
  rewrite IH, <- (seq_shift remaining 1), map_map. apply map_ext. intros j. lia.
Qed.

(** X8. The survey page always offers at least five combinations: their
    number is the larger of 5 and half the number of products found,
    rounded up, and they are numbered 1, 2, 3, ... in order. *)
Theorem productCombinations_are_numbered (random : nat -> Q)
    (table : list Server.Product) (lineup : list ProductLineupItem)
    (configured : option Z) :
  map id (productCombinations random table lineup configured)
    = map Z.of_nat
        (seq 1 (Nat.max 5 (Nat.div2 (S (length (findProducts table lineup)))))).
Proof.
  unfold productCombinations. cbv zeta.
  rewrite combinationsLoop_ids, length_map, Qceiling_half.
  apply map_ext. intros j. lia.
Qed.

Lemma insertByKey_permutation {A : Type} (x : Q * A) (sorted : list (Q * A)) :
  Permutation (insertByKey x sorted) (x :: sorted).
Proof.
  induction sorted as [|y sorted IH]; simpl; [reflexivity|].
  destruct (Qle_bool (fst y) (fst x)); [|reflexivity].
  rewrite IH. apply perm_swap.
Qed.

(** Sorting by the random keys only reorders. *)
Lemma sortByKey_permutation {A : Type} (l : list (Q * A)) :
  Permutation (sortByKey l) l.
Proof.
  unfold sortByKey.
  assert (forall sorted,
            Permutation (fold_left (fun sorted x => insertByKey x sorted) l sorted)
              (l ++ sorted)) as H.
  { induction l as [|x l IH]; intros sorted; simpl; [reflexivity|].
    rewrite IH, insertByKey_permutation. symmetry. apply Permutation_middle. }
  rewrite H. now rewrite app_nil_r.
Qed.

Lemma withSortKeys_values {A : Type} (random : nat -> Q) (l : list A) :
  forall k, map snd (withSortKeys random k l) = l.
Proof. induction l as [|x l IH]; intros k; simpl; [reflexivity|]. now rewrite IH. Qed.

Lemma random_index_in_range (r : Q) (len : nat) :
  (0 <= r)%Q -> (r < 1)%Q -> (0 < len)%nat ->
  0 <= Qfloor (r * inject_Z (Z.of_nat len)) < Z.of_nat len.
Proof.
  intros H0 H1 Hlen.
  assert (0 < inject_Z (Z.of_nat len))%Q by (rewrite <- (Zlt_Qlt 0); lia).
  split.
  - change 0 with (Qfloor 0). apply Qfloor_resp_le. nra.
  - rewrite Zlt_Qlt. eapply Qle_lt_trans; [apply Qfloor_le|]. nra.
Qed.

Lemma chooseOptions_defined (random : nat -> Q) (selected : list ProductWithPrices) :
  (forall k, (0 <= random k)%Q /\ (random k < 1)%Q) ->
  Forall (fun product => priceOptions product <> []) selected ->
  forall k,
    Forall2
      (fun product choice =>
         exists priceOption,
           choice = Some priceOption /\ In priceOption (priceOptions product))
      selected (chooseOptions random k selected).
Proof.
  intros Hrandom.
  induction 1 as [|product selected Hne _ IH]; intros k; cbn [chooseOptions]; cbv zeta;
    constructor; [|apply IH].
  destruct (Hrandom k) as [H0 H1].
  destruct (random_index_in_range (random k) (length (priceOptions product)) H0 H1)
    as [Hlow Hhigh].
  { destruct (priceOptions product); [contradiction|simpl; lia]. }
  destruct (Z.ltb_spec (Qfloor (random k * inject_Z (Z.of_nat (length (priceOptions product))))) 0);
    [lia|].
  destruct (nth_error (priceOptions product) _) as [priceOption|] eqn:Hnth.
  - exists priceOption. split; [reflexivity|]. eapply nth_error_In. exact Hnth.
  - apply nth_error_None in Hnth. lia.
Qed.

Lemma withPriceOptions_options (priceLevels : Z) (product : Server.Product)
    (priceOption : PriceOption) :
  In priceOption (priceOptions (withPriceOptions priceLevels product)) ->
  option_productId priceOption = Server.id product /\
  option_brandName priceOption = Server.brandName product /\
  option_productName priceOption = Server.productName product /\
  In (option_price priceOption) (Server.generatePriceMatrix product priceLevels).
Proof.
  unfold withPriceOptions. cbn [priceOptions]. intros Hin.
  apply in_map_iff in Hin as (price & <- & Hprice). now repeat split.
Qed.

Lemma combinationsLoop_shows (random : nat -> Q) (priceLevels : Z)
    (found : list Server.Product) (numProductsToShow remaining : nat) :
  (forall k, (0 <= random k)%Q /\ (random k < 1)%Q) ->
  forall i k,
    Forall
      (fun combination =>
         exists shown rest,
           Permutation (shown ++ rest) found /\
           Forall2
             (fun product choice =>
                exists priceOption,
                  choice = Some priceOption /\
                  option_productId priceOption = Server.id product /\
                  option_brandName priceOption = Server.brandName product /\
                  option_productName priceOption = Server.productName product /\
                  In (option_price priceOption)
                    (Server.generatePriceMatrix product priceLevels))
             shown (options combination))
      (combinationsLoop random (map (withPriceOptions priceLevels) found)
         numProductsToShow remaining i k).
Proof.
  intros Hrandom.
  induction remaining as [|remaining IH]; intros i k; cbn [combinationsLoop];
    constructor; [|apply IH].
  cbn [options].
  set (sorted := sortByKey (withSortKeys random k (map (withPriceOptions priceLevels) found))).
  assert (Permutation (map snd sorted) (map (withPriceOptions priceLevels) found)) as Hperm.
  { unfold sorted. rewrite sortByKey_permutation. now rewrite withSortKeys_values. }
  rewrite <- (firstn_skipn numProductsToShow sorted), map_app in Hperm.
  set (selected := map snd (firstn numProductsToShow sorted)) in *.
  set (others := map snd (skipn numProductsToShow sorted)) in *.
  assert (forall x, In x (selected ++ others) ->
            x = withPriceOptions priceLevels (product x)) as Hshape.
  { intros x Hx. apply (Permutation_in _ Hperm) in Hx.
    apply in_map_iff in Hx as (p & <- & _). reflexivity. }
  exists (map product selected), (map product others). split.
  - rewrite <- map_app.
    apply (Permutation_map product) in Hperm.
    rewrite Hperm, map_map. simpl. now rewrite map_id.
  - apply Forall2_fmap_l.
    eapply Forall2_impl.
    + apply Forall2_with_membership, chooseOptions_defined; [exact Hrandom|].
      apply Forall_forall. intros x Hx. apply list_elem_of_In in Hx.
      rewrite (Hshape x) by (apply in_or_app; now left).
      unfold withPriceOptions. cbn [priceOptions].
      pose proof (generatePriceMatrix_length (product x) priceLevels) as Hlen.
      destruct (Server.generatePriceMatrix (product x) priceLevels); [|discriminate].
      simpl in Hlen. repeat (destruct (_ =? _) in Hlen); discriminate.
    + intros x choice (Hx & priceOption & -> & Hin).
      exists priceOption. split; [reflexivity|].
      apply withPriceOptions_options.
      rewrite <- (Hshape x) by (apply in_or_app; now left). exact Hin.
Qed.

(** X9. With [Math.random] in [0, 1), every combination of the survey page
    shows distinct entries of the list of products found, and each option
    is defined: it carries the id and names of its product and one of the
    prices of that product's price matrix. *)
Theorem productCombinations_show_tested_prices (random : nat -> Q)
    (table : list Server.Product) (lineup : list ProductLineupItem)
    (configured : option Z) :
  (forall k, (0 <= random k)%Q /\ (random k < 1)%Q) ->
  Forall
    (fun combination =>
       exists shown rest,
         Permutation (shown ++ rest) (findProducts table lineup) /\
         Forall2
           (fun product choice =>
              exists priceOption,
                choice = Some priceOption /\
                option_productId priceOption = Server.id product /\
                option_brandName priceOption = Server.brandName product /\
                option_productName priceOption = Server.productName product /\
                In (option_price priceOption)
                  (Server.generatePriceMatrix product (JS.or_default configured 3)))
           shown (options combination))
    (productCombinations random table lineup configured).
Proof.
  intros Hrandom. unfold productCombinations. cbv zeta.
  now apply combinationsLoop_shows.
Qed.

Lemma productCombinations_show_witness :
  Forall
    (fun combination =>
       exists shown rest,
         Permutation (shown ++ rest) (findProducts [cola; lemonade] two_item_lineup) /\
         Forall2
           (fun product choice =>
              exists priceOption,
                choice = Some priceOption /\
                option_productId priceOption = Server.id product /\
                option_brandName priceOption = Server.brandName product /\
                option_productName priceOption = Server.productName product /\
                In (option_price priceOption) (Server.generatePriceMatrix product 2))
           shown (options combination))
    (productCombinations harmonic [cola; lemonade] two_item_lineup (Some 2)).
Proof.
  apply (productCombinations_show_tested_prices harmonic [cola; lemonade]
           two_item_lineup (Some 2)).
  intros k. unfold harmonic, Qle, Qlt. simpl. lia.
Defined.

End SurveyCombinations.

(** ** Questions served, answers stored *)

Section KeepFirst.

Import SurveyQuestions.

Context {A : Type} (key : A -> string).

Lemma findIndexFrom_first (p : A -> bool) (prefix : list A) (x : A) (rest : list A) :
  forall start,
    (forall t, In t prefix -> p t = false) ->
    p x = true ->
    findIndexFrom p (prefix ++ x :: rest) start = start + Z.of_nat (length prefix).
Proof.
  induction prefix as [|y prefix IH]; intros start Hprefix Hx; simpl.
  - rewrite Hx. lia.
  - rewrite (Hprefix y) by now left.
    rewrite IH; [lia| |assumption]. intros t Ht. apply Hprefix. now right.
Qed.

Lemma findIndexFrom_earlier (p : A -> bool) (prefix rest : list A) :
  forall start,
    (exists t, In t prefix /\ p t = true) ->
    start <= findIndexFrom p (prefix ++ rest) start < start + Z.of_nat (length prefix).
Proof.
  induction prefix as [|y prefix IH]; intros start (t & Ht & Hp); [destruct Ht|].
  simpl. destruct (p y) eqn:Hy; [lia|].
  destruct Ht as [->|Ht]; [congruence|].
  specialize (IH (start + 1)). destruct IH as [H1 H2]; [now exists t|]. lia.
Qed.

(** The test of the filter keeps an element exactly when no earlier
    element has its key. *)
Lemma keeps_first_occurrence (prefix : list A) (x : A) (rest : list A) :
  (Z.of_nat (length prefix)
   =? findIndex (fun t => String.eqb (key t) (key x)) (prefix ++ x :: rest))
  = negb (existsb (fun t => String.eqb (key t) (key x)) prefix).
Proof.
  unfold findIndex.
  destruct (existsb (fun t => String.eqb (key t) (key x)) prefix) eqn:Hseen; simpl.
  - apply Z.eqb_neq. apply existsb_exists in Hseen.
    pose proof (findIndexFrom_earlier (fun t => String.eqb (key t) (key x))
                  prefix (x :: rest) 0 Hseen). lia.
  - apply Z.eqb_eq. rewrite findIndexFrom_first; [lia| |apply String.eqb_refl].
    intros t Ht. destruct (String.eqb (key t) (key x)) eqn:E; [|reflexivity].
    assert (existsb (fun t => String.eqb (key t) (key x)) prefix = true)
      by (apply existsb_exists; now exists t).
    congruence.
Qed.

Lemma find_first_occurrence (prefix : list A) (x : A) (rest : list A) :
  existsb (fun t => String.eqb (key t) (key x)) prefix = false ->
  List.find (fun t => String.eqb (key t) (key x)) (prefix ++ x :: rest) = Some x.
Proof.
  induction prefix as [|y prefix IH]; simpl; intros Hseen.
  - now rewrite String.eqb_refl.
  - apply orb_false_iff in Hseen as [Hy Hseen]. rewrite Hy. now apply IH.
Qed.

Lemma filterFrom_keeps_firsts (self : list A) :
  forall (l prefix : list A),
    self = prefix ++ l ->
    let kept :=
      filterFrom
        (fun q index => index =? findIndex (fun t => String.eqb (key t) (key q)) self)
        l (Z.of_nat (length prefix)) in
    (forall q, In q kept ->
       In q l /\ ~ In (key q) (map key prefix) /\
       List.find (fun t => String.eqb (key t) (key q)) self = Some q) /\
    List.NoDup (map key kept) /\
    (forall x, In x l -> In (key x) (map key prefix) \/ In (key x) (map key kept)).
Proof.
  induction l as [|x l IH]; intros prefix Hself; cbn [filterFrom].
  - cbv zeta. split; [intros q []|]. split; [constructor|intros x []].
  - assert (self = (prefix ++ [x]) ++ l) as Hself' by (now rewrite <- app_assoc).
    specialize (IH (prefix ++ [x]) Hself').
    rewrite length_app, Nat2Z.inj_add in IH. cbn [length] in IH.
    change (Z.of_nat 1) with 1 in IH.
    cbv zeta in IH. destruct IH as (Hkept & Hnodup & Hcover).
    assert ((Z.of_nat (length prefix)
             =? findIndex (fun t => String.eqb (key t) (key x)) self)
            = negb (existsb (fun t => String.eqb (key t) (key x)) prefix)) as Hkeep
      by (rewrite Hself; apply keeps_first_occurrence).
    cbv beta zeta. rewrite Hkeep. clear Hkeep.
    set (tail := filterFrom _ l (Z.of_nat (length prefix) + 1)) in *.
    assert (forall q, In q tail -> key q <> key x /\ ~ In (key q) (map key prefix)) as Hfresh.
    { intros q Hq. destruct (Hkept q Hq) as (_ & Hnot & _).
      rewrite map_app, in_app_iff in Hnot. simpl in Hnot. split; intros H; apply Hnot.
      - right. left. now symmetry.
      - now left. }
    destruct (existsb (fun t => String.eqb (key t) (key x)) prefix) eqn:Hseen; cbn [negb].
    + apply existsb_exists in Hseen as (t & Ht & Heq). apply String.eqb_eq in Heq.
      split; [intros q Hq|split; [exact Hnodup|intros y Hy]].
      * destruct (Hkept q Hq) as (Hl & _ & Hfind).
        split; [now right|]. split; [now apply Hfresh|exact Hfind].
      * destruct Hy as [<-|Hy].
        -- left. rewrite <- Heq. now apply in_map.
        -- destruct (Hcover y Hy) as [Hin|Hin]; [|now right].
           rewrite map_app, in_app_iff in Hin. destruct Hin as [Hin|[<-|[]]]; [now left|].
           left. rewrite <- Heq. now apply in_map.
    + assert (~ In (key x) (map key prefix)) as Hnew.
      { intros Hin. apply in_map_iff in Hin as (t & Heq & Ht).
        assert (existsb (fun t => String.eqb (key t) (key x)) prefix = true); [|congruence].
        apply existsb_exists. exists t. split; [assumption|]. now apply String.eqb_eq. }
      split; [intros q Hq|split; [|intros y Hy]].
      * destruct Hq as [<-|Hq].
        -- split; [now left|]. split; [assumption|].
           rewrite Hself. now apply find_first_occurrence.
        -- destruct (Hkept q Hq) as (Hl & _ & Hfind).
           split; [now right|]. split; [now apply Hfresh|exact Hfind].
      * cbn [map]. apply List.NoDup_cons; [|exact Hnodup].
        intros Hin. apply in_map_iff in Hin as (q & Heq & Hq).
        destruct (Hfresh q Hq) as [Hne _]. now apply Hne.
      * destruct Hy as [<-|Hy]; [right; now left|].
        destruct (Hcover y Hy) as [Hin|Hin]; [|right; now right].
        rewrite map_app, in_app_iff in Hin.
        destruct Hin as [Hin|[<-|[]]]; [now left|right; now left].
Qed.

End KeepFirst.

Section QuestionIds.

Import SurveyQuestions.

Lemma Number_toString_injective (n m : Z) :
  Text.Number_toString n = Text.Number_toString m -> n = m.
Proof.
  unfold Text.Number_toString. intros Heq.
  assert (forall z, NilZero.int_of_string (NilZero.string_of_int (Z.to_int z))
                    = Some (Z.to_int z)) as Hread.
  { intros z. apply NilZero.isi; destruct z; simpl; try discriminate;
      intros H; injection H; apply DecimalPos.Unsigned.to_uint_nonnil. }
  apply DecimalZ.to_int_inj.
  pose proof (Hread n) as Hn. rewrite Heq, Hread in Hn. congruence.
Qed.

Lemma Number_toString_head (n : Z) :
  exists c rest, Text.Number_toString n = String c rest /\ c <> "d"%char.
Proof.
  unfold Text.Number_toString.
  destruct n as [|p|p]; simpl.
  - eexists _, _. split; [reflexivity|discriminate].
  - destruct (Pos.to_uint p); simpl; eexists _, _; (split; [reflexivity|discriminate]).
  - eexists _, _. split; [reflexivity|discriminate].
Qed.

Lemma prefix_append (p s : string) :
  String.prefix p s = true -> s = (p ++ Text.drop (String.length p) s)%string.
Proof.
  revert s. induction p as [|c p IH]; intros s; [now destruct s|].
  destruct s as [|c' s]; simpl; [discriminate|].
  destruct (ascii_dec c c') as [<-|]; [|discriminate].
  intros H. apply IH in H.
  change (String c s
          = String c (p ++ Text.drop (String.length p) s)%string).
  now f_equal.
Qed.

Lemma prefix_of_append (p rest : string) :
  String.prefix p (p ++ rest) = true.
Proof.
  induction p as [|c p IH].
  - change (EmptyString ++ rest)%string with rest. now destruct rest.
  - change (String c p ++ rest)%string with (String c (p ++ rest)).
    simpl. now destruct (ascii_dec c c).
Qed.

Lemma drop_of_append (p rest : string) :
  Text.drop (String.length p) (p ++ rest) = rest.
Proof.
  induction p as [|c p IH]; [reflexivity|].
  change (String c p ++ rest)%string with (String c (p ++ rest)). exact IH.
Qed.

Lemma replace_demo (rest : string) :
  Text.replace ("demo_" ++ rest) "demo_" EmptyString = rest.
Proof.
  pose proof (prefix_of_append "demo_" rest) as Hprefix.
  pose proof (drop_of_append "demo_" rest) as Hdrop.
  change ("demo_" ++ rest)%string
    with (String "d" ("emo_" ++ rest)) in *.
  cbn [Text.replace]. now rewrite Hprefix, Hdrop.
Qed.

Lemma Number_toString_is_no_demo (n : Z) :
  Text.startsWith (Text.Number_toString n) "demo_" = false.
Proof.
  destruct (Number_toString_head n) as (c & rest & -> & Hc).
  unfold Text.startsWith. cbn [String.prefix].
  destruct (ascii_dec "d" c) as [<-|]; [now destruct Hc|reflexivity].
Qed.

Lemma allServed_ids (personas : list (list Stored.Question)) (q : Question) :
  In q (QuestionShape.allServed personas) ->
  exists n, id q = ("demo_" ++ Text.Number_toString n)%string.
Proof.
  unfold QuestionShape.allServed. intros Hq.
  apply in_flat_map in Hq as (persona & _ & Hq).
  apply in_map_iff in Hq as (stored & <- & _). now eexists.
Qed.

Lemma demographicQuestions_firsts (personas : list (list Stored.Question)) :
  List.NoDup (map id (demographicQuestions personas)) /\
  (forall q, In q (QuestionShape.allServed personas) ->
     In (id q) (map id (demographicQuestions personas))) /\
  (forall d, In d (demographicQuestions personas) ->
     List.find (fun t => String.eqb (id t) (id d)) (QuestionShape.allServed personas)
     = Some d).
Proof.
  pose proof (filterFrom_keeps_firsts id (QuestionShape.allServed personas)
                (QuestionShape.allServed personas) [] eq_refl) as H.
  cbv zeta in H. destruct H as (Hkept & Hnodup & Hcover).
  split; [exact Hnodup|]. split.
  - intros q Hq. destruct (Hcover q Hq) as [[]|Hin]. exact Hin.
  - intros d Hd. now apply (Hkept d).
Qed.

Lemma demographicQuestions_served (personas : list (list Stored.Question))
    (d : Question) :
  In d (demographicQuestions personas) -> In d (QuestionShape.allServed personas).
Proof.
  intros Hd. destruct (demographicQuestions_firsts personas) as (_ & _ & Hfirst).
  apply Hfirst in Hd. now apply find_some in Hd.
Qed.

(** X10. Among the questions of all personas of a shelf, the survey page
    serves each id once, serves every id, and serves for an id the first
    question that carries it. *)
Theorem demographic_questions_keep_the_first_of_each_id
    (personas : list (list Stored.Question)) :
  List.NoDup (map id (demographicQuestions personas)) /\
  (forall q, In q (QuestionShape.allServed personas) ->
     exists d, In d (demographicQuestions personas) /\ id d = id q) /\
  (forall d, In d (demographicQuestions personas) ->
     List.find (fun t => String.eqb (id t) (id d)) (QuestionShape.allServed personas)
     = Some d).
Proof.
  destruct (demographicQuestions_firsts personas) as (Hnodup & Hcover & Hfirst).
  split; [exact Hnodup|]. split; [|exact Hfirst].
  intros q Hq. apply Hcover in Hq. apply in_map_iff in Hq as (d & Heq & Hd).
  now exists d.
Qed.

Lemma shelfQuestions_ids (shelf : list Stored.Question) :
  map id (shelfQuestions shelf)
  = map (fun sq => Text.Number_toString (Stored.id sq)) shelf.
Proof. unfold shelfQuestions. now rewrite map_map. Qed.

Lemma NoDup_app_disjoint {A : Type} (l1 l2 : list A) :
  List.NoDup l1 -> List.NoDup l2 -> (forall x, In x l1 -> ~ In x l2) ->
  List.NoDup (l1 ++ l2).
Proof.
  induction l1 as [|x l1 IH]; intros H1 H2 Hdisjoint; [exact H2|].
  inversion H1 as [|? ? Hx H1']; subst. simpl. apply List.NoDup_cons.
  - rewrite in_app_iff. intros [Hin|Hin]; [now apply Hx|].
    apply (Hdisjoint x); [now left|assumption].
  - apply IH; [assumption|assumption|]. intros y Hy. apply Hdisjoint. now right.
Qed.

Lemma NoDup_map_injective {A B : Type} (f : A -> B) (l : list A) :
  (forall x y, f x = f y -> x = y) -> List.NoDup l -> List.NoDup (map f l).
Proof.
  intros Hinj. induction 1 as [|x l Hx Hl IH]; simpl; [constructor|].
  apply List.NoDup_cons; [|exact IH].
  intros Hin. apply in_map_iff in Hin as (y & Heq & Hy).
  apply Hinj in Heq. now subst.
Qed.

Lemma questions_ids_distinct (personas : list (list Stored.Question))
    (shelf : list Stored.Question) :
  List.NoDup (map Stored.id shelf) ->
  List.NoDup (map id (questions personas shelf)).
Proof.
  intros Hshelf. unfold questions. rewrite map_app.
  apply NoDup_app_disjoint.
  - apply demographicQuestions_firsts.
  - rewrite shelfQuestions_ids, <- (map_map Stored.id Text.Number_toString).
    apply NoDup_map_injective; [apply Number_toString_injective|exact Hshelf].
  - intros s Hdemo Hshelf'.
    apply in_map_iff in Hdemo as (d & <- & Hd).
    apply demographicQuestions_served, allServed_ids in Hd as (n & Hn).
    rewrite shelfQuestions_ids in Hshelf'.
    apply in_map_iff in Hshelf' as (sq & Heq & _).
    pose proof (Number_toString_is_no_demo (Stored.id sq)) as Hno.
    rewrite Heq, Hn in Hno. unfold Text.startsWith in Hno.
    rewrite prefix_of_append in Hno. discriminate.
Qed.

(** X11. When the questions of the shelf have distinct ids, so do the
    questions the survey page serves: a persona question never shares its
    id with another persona question or with a question of the shelf. *)
Theorem served_question_ids_are_distinct
    (personas : list (list Stored.Question)) (shelf : list Stored.Question) :
  List.NoDup (map Stored.id shelf) ->
  List.NoDup (map id (questions personas shelf)).
Proof. apply questions_ids_distinct. Qed.

Lemma served_question_ids_witness :
  List.NoDup (map id (questions [[age_question; diet_question]; [age_question]]
                                [diet_question])).
Proof.
  apply served_question_ids_are_distinct.
  simpl. apply List.NoDup_cons; [intros []|constructor].
Defined.

End QuestionIds.

Section Submission.

Import SurveyQuestions.

Context {V : Type}.

Lemma find_filter {A : Type} (p keep : A -> bool) (l : list A) :
  (forall x, p x = true -> keep x = true) ->
  List.find p (List.filter keep l) = List.find p l.
Proof.
  intros Himp. induction l as [|x l IH]; simpl; [reflexivity|].
  destruct (keep x) eqn:Hkeep; simpl.
  - now rewrite IH.
  - destruct (p x) eqn:Hp; [|exact IH]. apply Himp in Hp. congruence.
Qed.

Lemma find_none_of_fresh (l : list (string * V)) (key : string) :
  ~ In key (map fst l) ->
  List.find (fun entry => String.eqb (fst entry) key) l = None.
Proof.
  induction l as [|e l IH]; simpl; intros Hfresh; [reflexivity|].
  destruct (String.eqb_spec (fst e) key) as [Heq|_].
  - destruct Hfresh. now left.
  - apply IH. intros Hin. apply Hfresh. now right.
Qed.

Lemma stripped_entries_lookup (l : list (string * V)) :
  forall (acc : gmap string V) (k : string),
    List.NoDup (map fst l) ->
    (forall e, In e l -> Text.startsWith (fst e) "demo_" = true) ->
    fold_left
      (fun acc entry => <[Text.replace (fst entry) "demo_" EmptyString := snd entry]> acc)
      l acc !! k
    = match List.find (fun entry => String.eqb (fst entry) ("demo_" ++ k)) l with
      | Some e => Some (snd e)
      | None => acc !! k
      end.
Proof.
  induction l as [|e l IH]; intros acc k Hnodup Hdemo; [reflexivity|].
  cbn [fold_left List.find]. inversion Hnodup as [|? ? Hfresh Hnodup']; subst.
  rewrite IH; [|assumption|intros e' He'; apply Hdemo; now right].
  assert (fst e = ("demo_" ++ Text.replace (fst e) "demo_" EmptyString)%string) as Hkey.
  { pose proof (Hdemo e (or_introl eq_refl)) as Hstarts.
    apply prefix_append in Hstarts.
    set (rest := Text.drop _ (fst e)) in Hstarts.
    rewrite Hstarts. now rewrite replace_demo. }
  destruct (String.eqb_spec (fst e) ("demo_" ++ k)) as [Heq|Hne].
  - rewrite find_none_of_fresh by (now rewrite <- Heq).
    rewrite Heq, replace_demo. apply lookup_insert_eq.
  - rewrite lookup_insert_ne; [reflexivity|].
    intros Heq. apply Hne. now rewrite Hkey, Heq.
Qed.

Lemma NoDup_map_filter {A B : Type} (f : A -> B) (keep : A -> bool) (l : list A) :
  List.NoDup (map f l) -> List.NoDup (map f (List.filter keep l)).
Proof.
  induction l as [|x l IH]; simpl; intros H; [constructor|].
  inversion H as [|? ? Hx H']; subst.
  destruct (keep x); simpl; [|now apply IH].
  apply List.NoDup_cons; [|now apply IH].
  intros Hin. apply Hx. apply in_map_iff in Hin as (y & Heq & Hy).
  apply filter_In in Hy as [Hy _]. rewrite <- Heq. now apply in_map.
Qed.

Lemma formattedDemographics_lookup (entries : list (string * V)) (k : string) :
  List.NoDup (map fst entries) ->
  formattedDemographics entries !! k = property entries ("demo_" ++ k).
Proof.
  intros Hnodup. unfold formattedDemographics, property.
  rewrite stripped_entries_lookup.
  - rewrite find_filter.
    + destruct (List.find _ entries); [reflexivity|apply lookup_empty].
    + intros e He. apply String.eqb_eq in He. rewrite He.
      apply prefix_of_append.
  - now apply NoDup_map_filter.
  - intros e He. now apply filter_In in He.
Qed.

End Submission.

(** X12. Of the answers submitted, the respondent keeps exactly the ones
    filed under [demo_<k>], each under [k]: what is stored at [k] is the
    answer submitted for [demo_<k>], and nothing is stored at [k] when
    there is none. *)
Theorem stored_demographics_are_the_demo_answers {V : Type}
    (entries : list (string * V)) (k : string) :
  List.NoDup (map fst entries) ->
  SurveyQuestions.formattedDemographics entries !! k
  = SurveyQuestions.property entries ("demo_" ++ k).
Proof. apply formattedDemographics_lookup. Qed.

Lemma stored_demographics_witness :
  SurveyQuestions.formattedDemographics sample_answers !! "7"%string
  = SurveyQuestions.property sample_answers "demo_7".
Proof.
  apply (stored_demographics_are_the_demo_answers sample_answers "7").
  simpl. repeat (apply List.NoDup_cons; [simpl; intuition discriminate|]).
  constructor.
Defined.

(** ** The lists of surveys and of runs *)

Section UniqueVariants.

Import Runs.

Variable toDateString : Z -> string.

Lemma sameShelfAndDay_iff (v w : Variant) :
  sameShelfAndDay toDateString v w = true
  <-> shelfAndDay toDateString v = shelfAndDay toDateString w.
Proof.
  unfold sameShelfAndDay, shelfAndDay. rewrite andb_true_iff, Z.eqb_eq, String.eqb_eq.
  split; [intros [-> ->]; reflexivity|intros H; now injection H].
Qed.

Lemma find_same_none (done : list Variant) (x : Variant) :
  ~ In (shelfAndDay toDateString x) (map (shelfAndDay toDateString) done) ->
  List.find (fun v => sameShelfAndDay toDateString v x) done = None.
Proof.
  induction done as [|v done IH]; simpl; intros Hnew; [reflexivity|].
  destruct (sameShelfAndDay toDateString v x) eqn:Hsame.
  - apply sameShelfAndDay_iff in Hsame. destruct Hnew. now left.
  - apply IH. intros Hin. apply Hnew. now right.
Qed.

Lemma find_app_some {A : Type} (p : A -> bool) (l l' : list A) (x : A) :
  List.find p l = Some x -> List.find p (l ++ l') = Some x.
Proof.
  induction l as [|y l IH]; simpl; [discriminate|]. now destruct (p y).
Qed.

Lemma find_app_none {A : Type} (p : A -> bool) (l l' : list A) :
  List.find p l = None -> List.find p (l ++ l') = List.find p l'.
Proof.
  induction l as [|y l IH]; simpl; [reflexivity|]. now destruct (p y).
Qed.

Lemma uniqueVariants_loop (variants : list Variant) :
  forall (acc done : list Variant),
    (forall v, In v done ->
       In (shelfAndDay toDateString v) (map (shelfAndDay toDateString) acc)) ->
    List.NoDup (map (shelfAndDay toDateString) acc) ->
    (forall u, In u acc ->
       List.find (fun v => sameShelfAndDay toDateString v u) done = Some u) ->
    let result :=
      fold_left
        (fun acc variant =>
           if negb (existsb
                      (fun v =>
                         (shelfId v =? shelfId variant)
                         && String.eqb (toDateString (createdAt v))
                              (toDateString (createdAt variant)))
                      acc)
           then acc ++ [{| id := id variant;
                           shelfId := shelfId variant;
                           projectName := projectName variant;
                           createdAt := createdAt variant |}]
           else acc)
        variants acc in
    (forall v, In v (done ++ variants) ->
       In (shelfAndDay toDateString v) (map (shelfAndDay toDateString) result)) /\
    List.NoDup (map (shelfAndDay toDateString) result) /\
    (forall u, In u result ->
       List.find (fun v => sameShelfAndDay toDateString v u) (done ++ variants)
       = Some u).
Proof.
  induction variants as [|x variants IH]; intros acc done Hcover Hnodup Hfirst.
  - cbv zeta. cbn [fold_left]. rewrite app_nil_r. auto.
  - cbv zeta. cbn [fold_left].
    replace (done ++ x :: variants) with ((done ++ [x]) ++ variants)
      by (now rewrite <- app_assoc).
    change (existsb _ acc)
      with (existsb (fun v => sameShelfAndDay toDateString v x) acc).
    replace {| id := id x; shelfId := shelfId x; projectName := projectName x;
               createdAt := createdAt x |} with x by (now destruct x).
    destruct (existsb (fun v => sameShelfAndDay toDateString v x) acc) eqn:Hseen;
      cbn [negb].
    + apply existsb_exists in Hseen as (u & Hu & Hsame).
      apply sameShelfAndDay_iff in Hsame.
      apply IH; [|exact Hnodup|].
      * intros v Hv. apply in_app_iff in Hv as [Hv|[<-|[]]]; [now apply Hcover|].
        rewrite <- Hsame. now apply in_map.
      * intros w Hw. apply find_app_some. now apply Hfirst.
    + assert (~ In (shelfAndDay toDateString x) (map (shelfAndDay toDateString) acc))
        as Hnew.
      { intros Hin. apply in_map_iff in Hin as (u & Heq & Hu).
        assert (existsb (fun v => sameShelfAndDay toDateString v x) acc = true);
          [|congruence].
        apply existsb_exists. exists u. split; [exact Hu|].
        now apply sameShelfAndDay_iff. }
      apply IH.
      * intros v Hv. rewrite map_app, in_app_iff.
        apply in_app_iff in Hv as [Hv|[<-|[]]]; [left; now apply Hcover|].
        right. now left.
      * rewrite map_app. apply NoDup_app_disjoint; [exact Hnodup| |].
        -- simpl. apply List.NoDup_cons; [intros []|constructor].
        -- intros k Hk [<-|[]]. now apply Hnew.
      * intros w Hw. apply in_app_iff in Hw as [Hw|[<-|[]]].
        -- apply find_app_some. now apply Hfirst.
        -- rewrite find_app_none.
           ++ simpl. replace (sameShelfAndDay toDateString x x) with true; [reflexivity|].
              symmetry. now apply sameShelfAndDay_iff.
           ++ apply find_same_none. intros Hin.
              apply in_map_iff in Hin as (v & Heq & Hv).
              apply Hnew. rewrite <- Heq. now apply Hcover.
Qed.

(** X13. The list of active surveys holds one variant for each shelf and
    day that occurs, and it is the first one of that shelf and day in the
    order the variants are read (the latest, as they are read newest
    first). *)
Theorem uniqueVariants_keeps_the_first_of_each_shelf_and_day
    (activeVariants : list Variant) :
  (forall v, In v activeVariants ->
     In (shelfAndDay toDateString v)
        (map (shelfAndDay toDateString) (uniqueVariants toDateString activeVariants))) /\
  List.NoDup (map (shelfAndDay toDateString) (uniqueVariants toDateString activeVariants)) /\
  (forall u, In u (uniqueVariants toDateString activeVariants) ->
     List.find (fun v => sameShelfAndDay toDateString v u) activeVariants = Some u).
Proof.
  apply (uniqueVariants_loop activeVariants [] []).
  - intros v [].
  - constructor.
  - intros u [].
Qed.

Lemma uniqueRuns_loop (runs : list Variant) :
  forall acc : list SurveyRun,
    (forall run, In run runs -> toDateString (createdAt run) <> invalidDate) ->
    fold_left
      (fun acc run =>
         if negb (existsb
                    (fun r =>
                       (run_shelfId r =? shelfId run)
                       && String.eqb invalidDate (toDateString (createdAt run)))
                    acc)
         then acc ++ [{| run_id := id run;
                         run_shelfId := shelfId run;
                         run_projectName := projectName run;
                         date := createdAt run |}]
         else acc)
      runs acc
    = acc ++ map runOf runs.
Proof.
  induction runs as [|run runs IH]; intros acc Hvalid; cbn [fold_left map].
  - now rewrite app_nil_r.
  - assert (existsb
              (fun r =>
                 (run_shelfId r =? shelfId run)
                 && String.eqb invalidDate (toDateString (createdAt run)))
              acc = false) as ->.
    { assert (String.eqb invalidDate (toDateString (createdAt run)) = false) as ->.
      { apply String.eqb_neq. intros Heq. apply (Hvalid run); [now left|now symmetry]. }
      clear. induction acc as [|r acc IH]; simpl; [reflexivity|].
      now rewrite andb_false_r. }
    cbn [negb]. rewrite IH by (intros r Hr; apply Hvalid; now right).
    now rewrite <- app_assoc.
Qed.

(** X14. The list of survey runs is not made unique: as long as every
    variant has a valid creation date, every variant is listed, in order,
    also when several belong to one shelf and day. *)
Theorem uniqueRuns_lists_every_variant (runs : list Variant) :
  (forall run, In run runs -> toDateString (createdAt run) <> invalidDate) ->
  uniqueRuns toDateString runs = map runOf runs.
Proof. intros Hvalid. unfold uniqueRuns. now rewrite uniqueRuns_loop. Qed.

End UniqueVariants.

Lemma uniqueRuns_lists_every_variant_witness :
  Runs.uniqueRuns sample_day sample_variants = map Runs.runOf sample_variants
  /\ length (Runs.uniqueVariants sample_day sample_variants) = 2%nat.
Proof.
  split; [|reflexivity].
  apply (uniqueRuns_lists_every_variant sample_day sample_variants).
  intros run [<-|[<-|[<-|[]]]]; vm_compute; discriminate.
Defined.

(** ** The analysis of a run *)

Section AnalysisCounts.

Import AnalysisRoute.

Lemma total_insert_fresh (counts : gmap string Z) (type : string) (n : Z) :
  counts !! type = None -> total (<[type := n]> counts) = total counts + n.
Proof.
  intros Hfresh. unfold total.
  rewrite map_fold_insert_L; [reflexivity| |exact Hfresh]. intros; lia.
Qed.

Lemma total_delete (counts : gmap string Z) (type : string) (n : Z) :
  counts !! type = Some n -> total counts = total (delete type counts) + n.
Proof.
  intros Hin. unfold total.
  rewrite (map_fold_delete_L _ _ type n counts); [reflexivity| |exact Hin].
  intros; lia.
Qed.

Lemma total_add (counts : gmap string Z) (type : string) (n : Z) :
  total (<[type := tally counts type + n]> counts) = total counts + n.
Proof.
  unfold tally. destruct (counts !! type) as [m|] eqn:Hin.
  - rewrite <- insert_delete_eq, total_insert_fresh by apply lookup_delete_eq.
    rewrite (total_delete counts type m Hin). lia.
  - now rewrite total_insert_fresh.
Qed.

Lemma totalResponses_sum (responseData : list ResponseCount) :
  forall start,
    fold_left (fun sum item => sum + count item) responseData start
    = start + sumOf count responseData.
Proof.
  induction responseData as [|item rest IH]; intros start; simpl; [lia|].
  rewrite IH. lia.
Qed.

Lemma byRespondentType_total (responseData : list ResponseCount) :
  forall acc,
    total (fold_left
             (fun acc item => <[typeOf item := tally acc (typeOf item) + count item]> acc)
             responseData acc)
    = total acc + sumOf count responseData.
Proof.
  induction responseData as [|item rest IH]; intros acc; simpl; [lia|].
  rewrite IH, total_add. lia.
Qed.

Lemma total_empty : total ∅ = 0.
Proof. reflexivity. Qed.

(** X15. The counts by respondent type add up to the total number of
    responses. *)
Theorem respondent_type_counts_add_up_to_the_total
    (responseData : list ResponseCount) (productsData : list Server.Product) :
  total (byRespondentType (analysis responseData productsData))
  = totalResponses (analysis responseData productsData).
Proof.
  cbn [analysis byRespondentType totalResponses].
  rewrite byRespondentType_total, totalResponses_sum. reflexivity.
Qed.

Lemma typeOf_injective (r r' : ResponseCount) :
  typeOf r = typeOf r' -> respondentType r = respondentType r'.
Proof.
  unfold typeOf.
  destruct (respondentType r) as [[]|], (respondentType r') as [[]|];
    simpl; intros H; try reflexivity; discriminate.
Qed.

Lemma responses_total (rows : list ResponseCount) :
  forall acc,
    List.NoDup (map typeOf rows) ->
    (forall r, In r rows -> acc !! typeOf r = None) ->
    total (fold_left (fun acc item => <[typeOf item := count item]> acc) rows acc)
    = total acc + sumOf count rows.
Proof.
  induction rows as [|r rows IH]; intros acc Hnodup Hfresh; simpl; [lia|].
  inversion Hnodup as [|? ? Hr Hnodup']; subst.
  rewrite IH; [| exact Hnodup' |].
  - rewrite total_insert_fresh by (apply Hfresh; now left). lia.
  - intros r' Hr'. rewrite lookup_insert_ne; [apply Hfresh; now right|].
    intros Heq. apply Hr. rewrite Heq. now apply in_map.
Qed.

Lemma rows_of_product_distinct (responseData : list ResponseCount) (i : Z) :
  List.NoDup (map (fun r => (productId r, respondentType r)) responseData) ->
  List.NoDup (map typeOf (List.filter (fun r => productId r =? i) responseData)).
Proof.
  induction responseData as [|r rest IH]; simpl; intros Hnodup; [constructor|].
  inversion Hnodup as [|? ? Hr Hnodup']; subst.
  destruct (productId r =? i) eqn:Hi; [|now apply IH].
  simpl. apply List.NoDup_cons; [|now apply IH].
  intros Hin. apply in_map_iff in Hin as (r' & Heq & Hr').
  apply filter_In in Hr' as [Hr' Hi']. apply Hr.
  apply in_map_iff. exists r'. split; [|exact Hr'].
  apply typeOf_injective in Heq. apply Z.eqb_eq in Hi, Hi'. now rewrite Heq, Hi, Hi'.
Qed.

Lemma sumOf_indicator (ids : list Z) (k n : Z) :
  List.NoDup ids -> In k ids ->
  sumOf (fun i => if k =? i then n else 0) ids = n.
Proof.
  induction ids as [|i ids IH]; intros Hnodup Hin; [destruct Hin|].
  inversion Hnodup as [|? ? Hi Hnodup']; subst. simpl.
  destruct (Z.eqb_spec k i) as [->|Hne].
  - assert (sumOf (fun j => if i =? j then n else 0) ids = 0) as ->; [|lia].
    clear -Hi. induction ids as [|j ids IH]; simpl; [reflexivity|].
    destruct (Z.eqb_spec i j) as [->|_]; [destruct Hi; now left|].
    rewrite IH; [reflexivity|]. intros H. apply Hi. now right.
  - destruct Hin as [->|Hin]; [now destruct Hne|]. now rewrite IH.
Qed.

Lemma sumOf_plus {A : Type} (f g : A -> Z) (l : list A) :
  sumOf (fun x => f x + g x) l = sumOf f l + sumOf g l.
Proof. induction l as [|x l IH]; simpl; [reflexivity|]. rewrite IH. lia. Qed.

Lemma sumOf_ext {A : Type} (f g : A -> Z) (l : list A) :
  (forall x, f x = g x) -> sumOf f l = sumOf g l.
Proof. intros H. induction l as [|x l IH]; simpl; [reflexivity|]. now rewrite H, IH. Qed.

Lemma sumOf_by_product (responseData : list ResponseCount) (ids : list Z) :
  List.NoDup ids ->
  (forall r, In r responseData -> In (productId r) ids) ->
  sumOf (fun i => sumOf count (List.filter (fun r => productId r =? i) responseData)) ids
  = sumOf count responseData.
Proof.
  intros Hnodup. induction responseData as [|r rest IH]; intros Hcover.
  - simpl. clear. induction ids as [|i ids IH]; simpl; [reflexivity|]. now rewrite IH.
  - cbn [List.filter].
    rewrite (sumOf_ext _
               (fun i => (if productId r =? i then count r else 0)
                         + sumOf count (List.filter (fun r => productId r =? i) rest))).
    + rewrite sumOf_plus, sumOf_indicator, IH; [reflexivity| | |].
      * intros r' Hr'. apply Hcover. now right.
      * exact Hnodup.
      * apply Hcover. now left.
    + intros i. destruct (productId r =? i); simpl; lia.
Qed.

Lemma sumOf_map {A B : Type} (f : B -> Z) (g : A -> B) (l : list A) :
  sumOf f (map g l) = sumOf (fun x => f (g x)) l.
Proof. induction l as [|x l IH]; simpl; [reflexivity|]. now rewrite IH. Qed.

Lemma sumOf_ext_in {A : Type} (f g : A -> Z) (l : list A) :
  (forall x, In x l -> f x = g x) -> sumOf f l = sumOf g l.
Proof.
  induction l as [|x l IH]; intros H; simpl; [reflexivity|].
  rewrite (H x) by now left. rewrite IH; [reflexivity|].
  intros y Hy. apply H. now right.
Qed.

(** X16. When the grouped rows are distinct by product and respondent
    type, the products listed have distinct ids and every counted response
    chose one of them, the counts of the products add up to the total
    number of responses. *)
Theorem product_counts_add_up_to_the_total
    (responseData : list ResponseCount) (productsData : list Server.Product) :
  List.NoDup (map (fun r => (productId r, respondentType r)) responseData) ->
  List.NoDup (map Server.id productsData) ->
  (forall r, In r responseData -> In (productId r) (map Server.id productsData)) ->
  sumOf (fun p => total (responses p)) (byProduct (analysis responseData productsData))
  = totalResponses (analysis responseData productsData).
Proof.
  intros Hrows Hproducts Hcover.
  cbn [analysis byProduct totalResponses].
  rewrite sumOf_map, totalResponses_sum. cbn [responses].
  rewrite (sumOf_ext _
             (fun p => sumOf count
                         (List.filter (fun r => productId r =? Server.id p) responseData))).
  - rewrite <- (sumOf_map
                  (fun i => sumOf count (List.filter (fun r => productId r =? i) responseData))
                  Server.id).
    rewrite sumOf_by_product by assumption. lia.
  - intros p. rewrite responses_total.
    + rewrite total_empty. lia.
    + now apply rows_of_product_distinct.
    + intros r _. apply lookup_empty.
Qed.

End AnalysisCounts.

Lemma product_counts_witness :
  AnalysisRoute.sumOf (fun p => AnalysisRoute.total (AnalysisRoute.responses p))
    (AnalysisRoute.byProduct (AnalysisRoute.analysis sample_counts [cola; lemonade]))
  = AnalysisRoute.totalResponses (AnalysisRoute.analysis sample_counts [cola; lemonade]).
Proof.
  apply (product_counts_add_up_to_the_total sample_counts [cola; lemonade]).
  - simpl. repeat (apply List.NoDup_cons; [simpl; intuition discriminate|]). constructor.
  - simpl. repeat (apply List.NoDup_cons; [simpl; intuition discriminate|]). constructor.
  - intros r [<-|[<-|[<-|[]]]]; simpl; auto.
Defined.

(** ** Lineups and shelf metrics *)

Section ShelfMetricsFacts.

Import Shelves.

Lemma override_product (products : list Product) (override : Z) :
  override <> 0 ->
  forall start,
    fold_left
      (fun acc p =>
         let priceLevels :=
           JS.or_default (Some override) (JS.or_default (priceLevels p) 3) in
         acc * priceLevels)
      products start
    = start * override ^ Z.of_nat (length products).
Proof.
  intros Hoverride. induction products as [|p products IH]; intros start.
  - simpl. lia.
  - cbn [fold_left length]. rewrite IH, Nat2Z.inj_succ, Z.pow_succ_r by lia.
    cbv zeta. unfold JS.or_default at 1.
    destruct (Z.eqb_spec override 0); [contradiction|]. lia.
Qed.

Lemma calculateShelfMetrics_override (products : list Product) (override : Z) :
  override <> 0 ->
  totalCombinations (calculateShelfMetrics products (Some override))
  = override ^ Z.of_nat (length products).
Proof.
  intros Hoverride. unfold calculateShelfMetrics. cbn [totalCombinations].
  rewrite override_product by assumption. lia.
Qed.

(** X17. With 2, 3 or 4 price levels chosen, the number of combinations
    the shelf setup page announces is the number of rows of the conjoint
    matrix of as many products; with 5 levels the matrix of a shelf that
    has products is larger than announced. *)
Theorem announced_combinations_and_matrix_rows
    (shelfProducts : list Product) (products : list Server.Product)
    (priceLevels : Z) :
  length shelfProducts = length products ->
  2 <= priceLevels <= 5 ->
  let announced :=
    totalCombinations (calculateShelfMetrics shelfProducts (Some priceLevels)) in
  let rows := Z.of_nat (length (Server.generateConjointMatrix products priceLevels)) in
  (priceLevels <= 4 -> announced = rows) /\
  (priceLevels = 5 -> products <> [] -> announced < rows).
Proof.
  intros Hlength Hlevels announced rows. subst announced rows.
  rewrite calculateShelfMetrics_override, Hlength by lia. split.
  - intros H. now rewrite generateConjointMatrix_length_2_4 by lia.
  - intros -> Hproducts. rewrite generateConjointMatrix_length, Nat2Z.inj_pow.
    cbn [Z.eqb Pos.eqb]. change (Z.of_nat 6) with 6.
    apply Z.pow_lt_mono_l; [|lia].
    destruct products; [contradiction|]. cbn [length]. lia.
Qed.

Lemma announced_combinations_witness :
  totalCombinations
    (calculateShelfMetrics
       [ {| priceLevels := Some 5; lowPrice := None; highPrice := None |} ] (Some 3))
  = Z.of_nat (length (Server.generateConjointMatrix [cola] 3)).
Proof.
  apply (announced_combinations_and_matrix_rows
           [ {| priceLevels := Some 5; lowPrice := None; highPrice := None |} ]
           [cola] 3); [reflexivity|lia|lia].
Defined.

Lemma configured_products (products : list Product) :
  Forall (fun p => JS.or_default (priceLevels p) 0 <> 0) products ->
  forall start,
    fold_left
      (fun acc p =>
         let priceLevels :=
           JS.or_default None (JS.or_default (priceLevels p) 3) in
         acc * priceLevels)
      products start
    = fold_left
        (fun totalCombinations product =>
           let priceLevels :=
             JS.or_default (priceLevels product)
               (if JS.truthy (JS.or_default (lowPrice product) 0)
                   && JS.truthy (JS.or_default (highPrice product) 0)
                then 5 else 1) in
           totalCombinations * priceLevels)
        products start.
Proof.
  induction 1 as [|p products Hp _ IH]; intros start; [reflexivity|].
  cbn [fold_left]. rewrite IH. f_equal. cbv zeta. f_equal.
  unfold JS.or_default in *. destruct (priceLevels p) as [k|]; [|contradiction].
  destruct (k =? 0); [contradiction|reflexivity].
Qed.

(** X18. For a shelf whose products all have their number of price
    levels configured, the shelf setup page, left without a number of its
    own, and the shelf routes count the same number of combinations. *)
Theorem page_and_routes_count_the_same_combinations (products : list Product) :
  Forall (fun p => JS.or_default (priceLevels p) 0 <> 0) products ->
  totalCombinations (calculateShelfMetrics products None)
  = calculateTotalCombinations products.
Proof.
  intros Hconfigured. unfold calculateShelfMetrics, calculateTotalCombinations.
  cbn [totalCombinations]. now apply configured_products.
Qed.

Lemma page_and_routes_witness :
  totalCombinations
    (calculateShelfMetrics
       [ {| priceLevels := Some 4; lowPrice := Some 100; highPrice := Some 300 |};
         {| priceLevels := Some 2; lowPrice := None; highPrice := None |} ] None)
  = calculateTotalCombinations
       [ {| priceLevels := Some 4; lowPrice := Some 100; highPrice := Some 300 |};
         {| priceLevels := Some 2; lowPrice := None; highPrice := None |} ].
Proof.
  apply page_and_routes_count_the_same_combinations.
  repeat constructor; simpl; lia.
Defined.

End ShelfMetricsFacts.

Section Lineup.

Lemma lineup_ids (productsData : list Server.Product) :
  map Survey.productId (Shelves.productLineup productsData)
  = map Server.id productsData.
Proof. unfold Shelves.productLineup. now rewrite map_map. Qed.

Lemma findProducts_In (table : list Server.Product)
    (lineup : list Survey.ProductLineupItem) (p : Server.Product) :
  In p (Survey.findProducts table lineup)
  <-> In p table /\ In (Server.id p) (map Survey.productId lineup).
Proof.
  unfold Survey.findProducts. rewrite filter_In, bool_decide_eq_true.
  rewrite elem_of_list_to_set, list_elem_of_In. reflexivity.
Qed.

Lemma NoDup_map_filter_ids (table : list Server.Product)
    (keep : Server.Product -> bool) :
  List.NoDup (map Server.id table) ->
  List.NoDup (map Server.id (List.filter keep table)).
Proof. apply NoDup_map_filter. Qed.

(** X19. The survey page of a variant made from a shelf shows each
    product of the shelf once, also one that is on the shelf twice, as
    long as the products are rows of the table and the ids of the table
    are distinct. *)
Theorem survey_page_shows_each_product_of_the_shelf_once
    (table productsData : list Server.Product) :
  List.NoDup (map Server.id table) ->
  (forall i, In i (map Server.id productsData) -> In i (map Server.id table)) ->
  let shown :=
    map Server.id (Survey.findProducts table (Shelves.productLineup productsData)) in
  List.NoDup shown /\ (forall i, In i shown <-> In i (map Server.id productsData)).
Proof.
  intros Htable Hrows shown. subst shown. split.
  - unfold Survey.findProducts. now apply NoDup_map_filter_ids.
  - intros i. rewrite in_map_iff. split.
    + intros (p & <- & Hp). apply findProducts_In in Hp as [_ Hp].
      now rewrite lineup_ids in Hp.
    + intros Hi. pose proof (Hrows i Hi) as Hin.
      apply in_map_iff in Hin as (p & <- & Hp). exists p. split; [reflexivity|].
      apply findProducts_In. split; [exact Hp|]. now rewrite lineup_ids.
Qed.

Lemma survey_page_shows_witness :
  List.NoDup
    (map Server.id (Survey.findProducts [cola; lemonade]
                      (Shelves.productLineup [cola; cola]))) /\
  (forall i,
     In i (map Server.id (Survey.findProducts [cola; lemonade]
                            (Shelves.productLineup [cola; cola])))
     <-> In i (map Server.id [cola; cola])).
Proof.
  apply (survey_page_shows_each_product_of_the_shelf_once
           [cola; lemonade] [cola; cola]).
  - simpl. repeat (apply List.NoDup_cons; [simpl; intuition discriminate|]). constructor.
  - simpl. intros i [<-|[<-|[]]]; now left.
Defined.

End Lineup.

Section SampleSizes.

Import Shelves.

Lemma Qceiling_three_halves (t : Z) :
  Qceiling (inject_Z t * 1.5) = (3 * t + 1) / 2.
Proof.
  unfold Qceiling, Qfloor, Qmult, Qopp, inject_Z. simpl.
  Z.to_euclidean_division_equations. lia.
Qed.

Lemma calculateTotalCombinations_positive (products : list Product) :
  Forall (fun p => 0 < JS.or_default (priceLevels p) 0) products ->
  forall start,
    1 <= start ->
    1 <= fold_left
           (fun totalCombinations product =>
              let priceLevels :=
                JS.or_default (priceLevels product)
                  (if JS.truthy (JS.or_default (lowPrice product) 0)
                      && JS.truthy (JS.or_default (highPrice product) 0)
                   then 5 else 1) in
              totalCombinations * priceLevels)
           products start.
Proof.
  induction 1 as [|p products Hp _ IH]; intros start Hstart; [exact Hstart|].
  cbn [fold_left]. apply IH. cbv zeta.
  unfold JS.or_default in *. destruct (priceLevels p) as [k|]; [|lia].
  destruct (k =? 0); [lia|nia].
Qed.

(** X20. For a shelf whose products all have a positive number of price
    levels configured, the minimum sample size of the shelf setup page and
    the one of the shelf routes never agree, although both count the same
    number of combinations. *)
Theorem page_and_routes_disagree_on_the_sample_size (products : list Product) :
  Forall (fun p => 0 < JS.or_default (priceLevels p) 0) products ->
  minSampleSize (calculateShelfMetrics products None)
  <> calculateMinimumSampleSize (calculateTotalCombinations products).
Proof.
  intros Hconfigured.
  assert (totalCombinations (calculateShelfMetrics products None)
          = calculateTotalCombinations products) as Hsame.
  { unfold calculateShelfMetrics, calculateTotalCombinations. cbn [totalCombinations].
    apply configured_products.
    eapply List.Forall_impl; [|exact Hconfigured]. simpl. intros p Hp. lia. }
  assert (1 <= calculateTotalCombinations products) as Hpositive
    by (apply calculateTotalCombinations_positive; [exact Hconfigured|lia]).
  change (minSampleSize (calculateShelfMetrics products None))
    with (Qceiling (inject_Z (totalCombinations (calculateShelfMetrics products None))
                    * 1.5)).
  rewrite Hsame, Qceiling_three_halves. unfold calculateMinimumSampleSize.
  set (t := calculateTotalCombinations products) in *.
  Z.to_euclidean_division_equations. lia.
Qed.

Lemma page_and_routes_disagree_witness :
  minSampleSize
    (calculateShelfMetrics
       [ {| priceLevels := Some 4; lowPrice := Some 100; highPrice := Some 300 |};
         {| priceLevels := Some 2; lowPrice := None; highPrice := None |} ] None)
  <> calculateMinimumSampleSize
       (calculateTotalCombinations
          [ {| priceLevels := Some 4; lowPrice := Some 100; highPrice := Some 300 |};
            {| priceLevels := Some 2; lowPrice := None; highPrice := None |} ]).
Proof.
  apply page_and_routes_disagree_on_the_sample_size.
  repeat constructor.
Defined.

End SampleSizes.

(** ** The analysis page *)

Section ElasticitySign.

Import Analysis.

(** X21. Whatever the analysis data and the product, the price
    elasticity the analysis page computes is never negative: it is NaN or
    at least 0. *)
Theorem price_elasticity_is_never_negative
    (analysis : option AnalysisData) (product : ProductAnalysis) :
  PrimFloat.is_nan (calculatePriceElasticity analysis product) = true \/
  PrimFloat.leb 0 (calculatePriceElasticity analysis product) = true.
Proof. apply calculatePriceElasticity_nonnegative_or_nan. Qed.

End ElasticitySign.
